(** * B_Guides: composition-guide overlay add-on, checked against its specification

    The development embeds the parts of the add-on that the specification's
    testable statements talk about:

    - [drawing]    : [drawing.py] (frame rectangle, Cohen-Sutherland clipping,
                     golden spiral generation, ruler tick interval, per-type
                     guide geometry);
    - [operators]  : [operators.py] (drag handlers, toggle-all, the offline
                     export geometry);
    - [presets]    : [presets.py] of generation 1;
    - [properties] : the property declarations of both generations and the
                     guide-list (de)serializer of generation 2;
    - [overlay]    : the draw handler of [drawing.py] (which drawing
                     functions it calls, the fixed constructions, the grid,
                     the custom guide lines);
    - [list_operators] : the operators of [operators.py] that reorder the
                     guide list;
    - [saving]     : what the preset operators and the serializer write.

    Numbers.  Python floats are embedded as exact rationals [Q]: comparisons,
    [min]/[max] and the four operations are the mathematical ones, rounding is
    not modelled.  Python integers are [Z].  A division whose divisor is zero
    raises, and is modelled as such.  Floats that are not finite (the
    infinities and NaN) are kept apart, in [nonfinite], which follows them
    through the statements where a decoded file can bring one in.
    Transcendental functions ([math.cos],
    [math.sin], [math.sqrt], the constant [math.pi]) are parameters of the
    sections that use them. *)

From Stdlib Require Import ZArith QArith Qminmax Qround List String Ascii Lia Lqa Bool.
From Stdlib Require Import DecimalString Sorted.
From stdpp Require Import gmap strings.
Import ListNotations.

Set Warnings "-register-all".

(* ===================================================================== *)
(** * Part I: the model                                                   *)
(* ===================================================================== *)

(** ** Python-level helpers *)

Module py.

Open Scope Q_scope.

(** Outcome of running a piece of Python code: a returned value, a raised
    exception, or (for [while True] loops run with a bound) an exhausted
    iteration budget. *)
Inductive exn : Type :=
| ZeroDivisionError
| UnboundLocalError
| TypeError
| IndexError
| AttributeError
| ValueError.

Inductive result (A : Type) : Type :=
| Returned (a : A)
| Raised (e : exn)
| OutOfFuel.

Arguments Returned {A} a.
Arguments Raised {A} e.
Arguments OutOfFuel {A}.

(** [x < y] on floats. *)
Definition ltb (x y : Q) : bool :=
  match x ?= y with Lt => true | _ => false end.

(** [x >= y] on floats. *)
Definition geb (x y : Q) : bool := negb (ltb x y).

(** [x == 0] on floats. *)
Definition is_zero (x : Q) : bool := Qeq_bool x 0.

(** [a / b]: raises [ZeroDivisionError] when [b] is zero. *)
Definition div (a b : Q) : result Q :=
  if is_zero b then Raised ZeroDivisionError else Returned (a / b).

(** Python's two-argument [max(a, b)]: [b] when [b > a], else [a]. *)
Definition max (a b : Q) : Q := if ltb a b then b else a.

(** Python's two-argument [min(a, b)]: [b] when [b < a], else [a]. *)
Definition min (a b : Q) : Q := if ltb b a then b else a.

(** Sequencing of code that may raise. *)
Definition bind {A B : Type} (m : result A) (k : A -> result B) : result B :=
  match m with
  | Returned a => k a
  | Raised e => Raised e
  | OutOfFuel => OutOfFuel
  end.

(** A statement that assigns to the object [s]: either it yields the updated
    object and execution goes on with [k], or it raises and [s] stays as it
    is. *)
Definition assign_then {S : Type} (r : result S) (s : S)
    (k : S -> S * result unit) : S * result unit :=
  match r with
  | Returned s' => k s'
  | Raised e => (s, Raised e)
  | OutOfFuel => (s, OutOfFuel)
  end.

(** [abs(x)] on floats. *)
Definition abs (x : Q) : Q := if ltb x 0 then - x else x.

(** [float(n)] and the implicit promotion of an [int] operand. *)
Definition float (n : Z) : Q := inject_Z n.

(** The functions and constants taken from Python's [math] module. *)
Record MathLib : Type := mkMath
  { cos : Q -> Q; sin : Q -> Q; sqrt : Q -> Q; pi : Q }.

(** [math.radians(d)]. *)
Definition radians (M : MathLib) (d : Q) : Q := d * pi M / 180.

(** [zip(l, l[1:])]: the pairs of consecutive elements. *)
Definition consecutive {A : Type} (l : list A) : list (A * A) :=
  combine l (tl l).

(** [range(n)] for an [int] [n]. *)
Definition range (n : Z) : list nat := seq 0 (Z.to_nat n).

End py.

Notation "'let*' x ':=' m 'in' k" := (py.bind m (fun x => k))
  (at level 10, x name, m at level 100, k at level 200).

(** ** drawing.py *)

Module drawing.

Import py.
Open Scope Q_scope.

(** [mathutils.Vector] with three components. *)
Record Vector : Type := mkVector { vx : Q; vy : Q; vz : Q }.

(** A line segment as the pair of its end points. *)
Definition segment : Type := (Vector * Vector)%type.

(** *** clip_line_to_rect *)

Definition INSIDE : Z := 0.
Definition LEFT : Z := 1.
Definition RIGHT : Z := 2.
Definition BOTTOM : Z := 4.
Definition TOP : Z := 8.

(** The frame rectangle [(rect_x, rect_y, rect_width, rect_height)]. *)
Record rect : Type := mkRect
  { rect_x : Q; rect_y : Q; rect_width : Q; rect_height : Q }.

(** The nested [compute_code(x, y)]. *)
Definition compute_code (r : rect) (x y : Q) : Z :=
  let code := INSIDE in
  let code :=
    if ltb x (rect_x r) then Z.lor code LEFT
    else if ltb (rect_x r + rect_width r) x then Z.lor code RIGHT
    else code in
  let code :=
    if ltb y (rect_y r) then Z.lor code BOTTOM
    else if ltb (rect_y r + rect_height r) y then Z.lor code TOP
    else code in
  code.

(** The local variables the [while True] loop works on. *)
Record clip_state : Type := mkClip
  { x1 : Q; y1 : Q; code1 : Z; x2 : Q; y2 : Q; code2 : Z }.

(** [code_out & FLAG] used as a condition. *)
Definition has_flag (code flag : Z) : bool := negb (Z.land code flag =? 0)%Z.

(** The intersection of the current segment with the boundary violated by
    [code_out] (the [if code_out & TOP ... elif code_out & LEFT] chain). *)
Definition intersection (r : rect) (s : clip_state) (code_out : Z)
  : result (Q * Q) :=
  if has_flag code_out TOP then
    match div ((x2 s - x1 s) * (rect_y r + rect_height r - y1 s)) (y2 s - y1 s) with
    | Returned q => Returned (x1 s + q, rect_y r + rect_height r)
    | Raised e => Raised e
    | OutOfFuel => OutOfFuel
    end
  else if has_flag code_out BOTTOM then
    match div ((x2 s - x1 s) * (rect_y r - y1 s)) (y2 s - y1 s) with
    | Returned q => Returned (x1 s + q, rect_y r)
    | Raised e => Raised e
    | OutOfFuel => OutOfFuel
    end
  else if has_flag code_out RIGHT then
    match div ((y2 s - y1 s) * (rect_x r + rect_width r - x1 s)) (x2 s - x1 s) with
    | Returned q => Returned (rect_x r + rect_width r, y1 s + q)
    | Raised e => Raised e
    | OutOfFuel => OutOfFuel
    end
  else if has_flag code_out LEFT then
    match div ((y2 s - y1 s) * (rect_x r - x1 s)) (x2 s - x1 s) with
    | Returned q => Returned (rect_x r, y1 s + q)
    | Raised e => Raised e
    | OutOfFuel => OutOfFuel
    end
  else Raised UnboundLocalError.

(** One pass through the body of the [while True] loop. *)
Inductive clip_step_result : Type :=
| Break (accept : bool)
| Again (s : clip_state)
| Throws (e : exn).

Definition clip_step (r : rect) (s : clip_state) : clip_step_result :=
  if (code1 s =? 0)%Z && (code2 s =? 0)%Z then Break true
  else if negb (Z.land (code1 s) (code2 s) =? 0)%Z then Break false
  else
    let code_out := if negb (code1 s =? 0)%Z then code1 s else code2 s in
    match intersection r s code_out with
    | Returned (x, y) =>
        if (code_out =? code1 s)%Z
        then Again (mkClip x y (compute_code r x y) (x2 s) (y2 s) (code2 s))
        else Again (mkClip (x1 s) (y1 s) (code1 s) x y (compute_code r x y))
    | Raised e => Throws e
    | OutOfFuel => Throws UnboundLocalError
    end.

(** The [while True] loop, run for at most [fuel] passes; the result is the
    final state together with the [accept] flag. *)
Fixpoint clip_loop (fuel : nat) (r : rect) (s : clip_state)
  : result (bool * clip_state) :=
  match fuel with
  | O => OutOfFuel
  | S fuel' =>
      match clip_step r s with
      | Break accept => Returned (accept, s)
      | Again s' => clip_loop fuel' r s'
      | Throws e => Raised e
      end
  end.

(** [clip_line_to_rect(p1, p2, rect_x, rect_y, rect_width, rect_height)];
    [None] is Python's [None]. *)
Definition clip_line_to_rect (fuel : nat) (p1 p2 : Vector) (r : rect)
  : result (option segment) :=
  let s := mkClip (vx p1) (vy p1) (compute_code r (vx p1) (vy p1))
                  (vx p2) (vy p2) (compute_code r (vx p2) (vy p2)) in
  match clip_loop fuel r s with
  | Returned (accept, s') =>
      if accept
      then Returned (Some (mkVector (x1 s') (y1 s') 0, mkVector (x2 s') (y2 s') 0))
      else Returned None
  | Raised e => Raised e
  | OutOfFuel => OutOfFuel
  end.

(** *** get_frame_coordinates *)

(** [context.scene.render]. *)
Record RenderSettings : Type := mkRender
  { resolution_x : Z;
    resolution_y : Z;
    resolution_percentage : Z;
    pixel_aspect_x : Q;
    pixel_aspect_y : Q }.

(** A region: its pixel size and the pan/zoom transform of its 2D view,
    [view2d.view_to_region(x, y, clip=False)], which yields integer region
    coordinates. *)
Record Region : Type := mkRegion
  { width : Z;
    height : Z;
    view_to_region : Q -> Q -> Z * Z }.

Definition get_frame_coordinates (render : RenderSettings) (region : Region) : rect :=
  let render_width := resolution_x render in
  let render_height := resolution_y render in
  let pixel_aspect :=
    if negb (is_zero (pixel_aspect_y render))
    then pixel_aspect_x render / pixel_aspect_y render else 1 in
  let adjusted_width := float render_width * pixel_aspect in
  let adjusted_height := float render_height in
  if is_zero adjusted_width || is_zero adjusted_height
  then mkRect 0 0 (float (width region)) (float (height region))
  else
    let '(x1, y1) := view_to_region region (- adjusted_width / 2) (- adjusted_height / 2) in
    let '(x2, y2) := view_to_region region (adjusted_width / 2) (adjusted_height / 2) in
    mkRect (float x1) (float y1) (float (x2 - x1)) (float (y2 - y1)).

(** *** draw_rulers_base: the major tick interval *)

Definition possible_intervals : list Z :=
  [1; 2; 5; 10; 20; 50; 100; 200; 500; 1000; 2000; 5000; 10000]%Z.

Definition target_spacing_px : Q := 80.

(** [pixels_per_unit = frame_width / render_width if render_width > 0 else 1]. *)
Definition pixels_per_unit (frame_width render_width : Q) : Q :=
  if ltb 0 render_width then frame_width / render_width else 1.

(** The [for interval in possible_intervals] loop with its [break];
    [major_interval_units] is the value the variable holds on entry. *)
Fixpoint interval_loop (pixels_per_unit : Q) (intervals : list Z)
    (major_interval_units : Z) : Z :=
  match intervals with
  | [] => major_interval_units
  | interval :: rest =>
      let spacing_px := float interval * pixels_per_unit in
      if geb spacing_px target_spacing_px then interval
      else interval_loop pixels_per_unit rest major_interval_units
  end.

Definition major_interval_units (pixels_per_unit : Q) : Z :=
  interval_loop pixels_per_unit possible_intervals 100.

(** *** draw_composition_guides: the settings it reads *)

(** The fields of the settings object read by the constructions modelled
    below. *)
Record GuideSettings : Type := mkSettings
  { golden_spiral_fit : bool;
    golden_spiral_flip_h : bool;
    golden_spiral_flip_v : bool;
    golden_spiral_length : Z;
    golden_spiral_show_segments : bool;
    golden_triangle_rotation : Q;
    golden_triangle_scale : Q;
    golden_triangle_count : Z;
    vanishing_point_x : Q;
    vanishing_point_y : Q;
    vanishing_point_lines : Z;
    show_vanishing_point_grid : bool;
    vanishing_point_grid_count : Z;
    harmony_triangles_flip : bool;
    diagonal_method_angle : Q }.

Section Constructions.

Variable M : MathLib.

(** *** Golden spiral *)

Definition phi : Q := 161803398875 # 100000000000.
Definition gen_h : Q := 1000.
Definition gen_w : Q := gen_h * phi.
Definition segs : Z := 32.

(** The target rectangle [(target_w, target_h, offset_x, offset_y)]. *)
Definition spiral_target (fit : bool) (frame_width frame_height : Q)
  : result (Q * Q * Q * Q) :=
  if fit then Returned (frame_width, frame_height, 0, 0)
  else
    let* ratio := div frame_width frame_height in
    if ltb phi ratio then
      let target_h := frame_height in
      let target_w := frame_height * phi in
      Returned (target_w, target_h, (frame_width - target_w) / 2, 0)
    else if ltb ratio (1 / phi) then
      let target_w := frame_width in
      let target_h := frame_width * phi in
      Returned (target_w, target_h, 0, (frame_height - target_h) / 2)
    else
      let target_w := frame_width in
      let target_h := frame_width / phi in
      if ltb frame_height target_h then
        let target_h := frame_height in
        let target_w := frame_height * phi in
        Returned (target_w, target_h, (frame_width - target_w) / 2, 0)
      else Returned (target_w, target_h, 0, (frame_height - target_h) / 2).

(** The working variables of the generation loop. *)
Record spiral_vars : Type := mkSpiral
  { lx : Q; ly : Q; lw : Q; lh : Q;
    points : list Vector;
    rect_lines : list segment }.

(** The inner [for i in range(segs + 1)] loop: the points of one arc. *)
Definition arc_points (center_x center_y radius start_angle end_angle : Q)
  : list Vector :=
  map (fun i : nat =>
         let t := float (Z.of_nat i) / float segs in
         let angle := start_angle + (end_angle - start_angle) * t in
         let px := center_x + radius * cos M angle in
         let py := center_y + radius * sin M angle in
         mkVector px py 0)
      (range (segs + 1)).

(** One pass through the body of [for idx in range(max_iter)];
    [None] stands for [break]. *)
Definition spiral_body (show_segments : bool) (idx : nat) (v : spiral_vars)
  : option spiral_vars :=
  if ltb (lw v) 1 || ltb (lh v) 1 then None
  else
    let mindim := min (lw v) (lh v) in
    let cycle := (idx mod 4)%nat in
    let radius := mindim in
    match cycle with
    | 0%nat => (* Left *)
        let center_x := lx v + radius in
        let center_y := ly v in
        let rl := if show_segments
                  then rect_lines v ++
                       [(mkVector (lx v + radius) (ly v) 0,
                         mkVector (lx v + radius) (ly v + lh v) 0)]
                  else rect_lines v in
        Some (mkSpiral (lx v + radius) (ly v) (lw v - radius) (lh v)
                (points v ++ arc_points center_x center_y radius (pi M) (pi M / 2))
                rl)
    | 1%nat => (* Top *)
        let center_x := lx v in
        let center_y := ly v + lh v - radius in
        let rl := if show_segments
                  then rect_lines v ++
                       [(mkVector (lx v) (ly v + lh v - radius) 0,
                         mkVector (lx v + lw v) (ly v + lh v - radius) 0)]
                  else rect_lines v in
        Some (mkSpiral (lx v) (ly v) (lw v) (lh v - radius)
                (points v ++ arc_points center_x center_y radius (pi M / 2) 0)
                rl)
    | 2%nat => (* Right *)
        let center_x := lx v + lw v - radius in
        let center_y := ly v + lh v in
        let rl := if show_segments
                  then rect_lines v ++
                       [(mkVector (lx v + lw v - radius) (ly v) 0,
                         mkVector (lx v + lw v - radius) (ly v + lh v) 0)]
                  else rect_lines v in
        Some (mkSpiral (lx v) (ly v) (lw v - radius) (lh v)
                (points v ++ arc_points center_x center_y radius 0 (- pi M / 2))
                rl)
    | _ => (* Bottom: cycle == 3 *)
        let center_x := lx v + lw v in
        let center_y := ly v + radius in
        let rl := if show_segments
                  then rect_lines v ++
                       [(mkVector (lx v) (ly v + radius) 0,
                         mkVector (lx v + lw v) (ly v + radius) 0)]
                  else rect_lines v in
        Some (mkSpiral (lx v) (ly v + radius) (lw v) (lh v - radius)
                (points v ++ arc_points center_x center_y radius (- pi M / 2) (- pi M))
                rl)
    end.

(** [for idx in range(max_iter)], over the indices still to visit. *)
Fixpoint spiral_for (show_segments : bool) (idxs : list nat) (v : spiral_vars)
  : spiral_vars :=
  match idxs with
  | [] => v
  | idx :: rest =>
      match spiral_body show_segments idx v with
      | None => v
      | Some v' => spiral_for show_segments rest v'
      end
  end.

Definition spiral_init : spiral_vars := mkSpiral 0 0 gen_w gen_h [] [].

(** The generation loop as the drawing code runs it. *)
Definition spiral_generate (show_segments : bool) (max_iter : Z) : spiral_vars :=
  spiral_for show_segments (range max_iter) spiral_init.

(** [all_lines_to_transform]. *)
Definition spiral_all_lines (show_segments : bool) (v : spiral_vars) : list segment :=
  let curve :=
    if (1 <? length (points v))%nat then consecutive (points v) else [] in
  if show_segments then curve ++ rect_lines v else curve.

(** Flip, scale and offset of one end point. *)
Definition spiral_place (flip_h flip_v : bool) (scale_x scale_y dx dy : Q)
    (p : Vector) : Vector :=
  let x := if flip_h then gen_w - vx p else vx p in
  let y := if flip_v then gen_h - vy p else vy p in
  mkVector (x * scale_x + dx) (y * scale_y + dy) (vz p).

(** The golden-spiral block of [draw_composition_guides]: the lines handed
    to [draw_lines]. *)
Definition golden_spiral_lines (settings : GuideSettings) (frame : rect)
  : result (list segment) :=
  let* tgt := spiral_target (golden_spiral_fit settings)
                (rect_width frame) (rect_height frame) in
  let '(target_w, target_h, offset_x, offset_y) := tgt in
  let v := spiral_generate (golden_spiral_show_segments settings)
             (golden_spiral_length settings) in
  let all_lines := spiral_all_lines (golden_spiral_show_segments settings) v in
  let scale_x := target_w / gen_w in
  let scale_y := target_h / gen_h in
  let place := spiral_place (golden_spiral_flip_h settings)
                 (golden_spiral_flip_v settings) scale_x scale_y
                 (rect_x frame + offset_x) (rect_y frame + offset_y) in
  Returned (map (fun l : segment => (place (fst l), place (snd l))) all_lines).

(** *** Golden triangle *)

(** [pivot + (Matrix.Rotation(angle, 4, 'Z') @ (p - pivot))]. *)
Definition rotate_about (pivot : Vector) (angle : Q) (p : Vector) : Vector :=
  let dx := vx p - vx pivot in
  let dy := vy p - vy pivot in
  let dz := vz p - vz pivot in
  mkVector (vx pivot + (cos M angle * dx - sin M angle * dy))
           (vy pivot + (sin M angle * dx + cos M angle * dy))
           (vz pivot + dz).

Definition golden_triangle_lines (settings : GuideSettings) (frame : rect)
  : result (list segment) :=
  let center_x := rect_x frame + rect_width frame / 2 in
  let center_y := rect_y frame + rect_height frame / 2 in
  let scale := golden_triangle_scale settings in
  let triangle_count := golden_triangle_count settings in
  let base_size := min (rect_width frame) (rect_height frame) / 2 * scale in
  let tri_h := base_size * sqrt M 3 / 2 in
  Returned (flat_map (fun t : nat =>
    let t_scale :=
      if (1 <? triangle_count)%Z
      then 1 - float (Z.of_nat t) / float triangle_count else 1 in
    let top_x := center_x in
    let top_y := center_y + tri_h * 2 / 3 * t_scale in
    let bl_x := center_x - base_size * t_scale in
    let bl_y := center_y - tri_h * 1 / 3 * t_scale in
    let br_x := center_x + base_size * t_scale in
    let br_y := center_y - tri_h * 1 / 3 * t_scale in
    if negb (is_zero (golden_triangle_rotation settings)) then
      let pivot := mkVector center_x center_y 0 in
      let rot := rotate_about pivot (golden_triangle_rotation settings) in
      let p1 := rot (mkVector top_x top_y 0) in
      let p2 := rot (mkVector bl_x bl_y 0) in
      let p3 := rot (mkVector br_x br_y 0) in
      [(p1, p2); (p2, p3); (p3, p1)]
    else
      [(mkVector top_x top_y 0, mkVector bl_x bl_y 0);
       (mkVector bl_x bl_y 0, mkVector br_x br_y 0);
       (mkVector br_x br_y 0, mkVector top_x top_y 0)])
    (range triangle_count)).

(** *** Vanishing point *)

(** [a.lerp(b, t)] of [mathutils.Vector]. *)
Definition Vector_lerp (a b : Vector) (t : Q) : Vector :=
  mkVector ((1 - t) * vx a + t * vx b)
           ((1 - t) * vy a + t * vy b)
           ((1 - t) * vz a + t * vz b).

Definition vanishing_point_lines_of (settings : GuideSettings) (frame : rect)
  : result (list segment) :=
  let frame_x := rect_x frame in
  let frame_y := rect_y frame in
  let frame_width := rect_width frame in
  let frame_height := rect_height frame in
  let vp_x := frame_x + frame_width * vanishing_point_x settings in
  let vp_y := frame_y + frame_height * vanishing_point_y settings in
  let vp := mkVector vp_x vp_y 0 in
  let line_count := vanishing_point_lines settings in
  let radial :=
    if (0 <? line_count)%Z then
      let subdivisions := line_count in
      let tl := mkVector frame_x (frame_y + frame_height) 0 in
      let tr := mkVector (frame_x + frame_width) (frame_y + frame_height) 0 in
      let br := mkVector (frame_x + frame_width) frame_y 0 in
      let bl := mkVector frame_x frame_y 0 in
      let edges := [(tl, tr); (tr, br); (br, bl); (bl, tl)] in
      flat_map (fun e : segment =>
        map (fun i : nat =>
               let t := float (Z.of_nat i) / float subdivisions in
               (vp, Vector_lerp (fst e) (snd e) t))
            (range subdivisions)) edges
    else [] in
  let grid :=
    if show_vanishing_point_grid settings then
      let grid_count := vanishing_point_grid_count settings in
      if (0 <? grid_count)%Z then
        let c1 := mkVector frame_x frame_y 0 in
        let c2 := mkVector (frame_x + frame_width) frame_y 0 in
        let c3 := mkVector (frame_x + frame_width) (frame_y + frame_height) 0 in
        let c4 := mkVector frame_x (frame_y + frame_height) 0 in
        flat_map (fun k : nat =>
          let i := (Z.of_nat k + 1)%Z in
          let t := float i / float (grid_count + 1) in
          let p1 := Vector_lerp c1 vp t in
          let p2 := Vector_lerp c2 vp t in
          let p3 := Vector_lerp c3 vp t in
          let p4 := Vector_lerp c4 vp t in
          [(p1, p2); (p2, p3); (p3, p4); (p4, p1)])
          (range grid_count)
      else []
    else [] in
  Returned (radial ++ grid).

(** *** Harmony triangles *)

(** The nested [add_harmony_lines(flip_h, flip_v)]: the lines it appends. *)
Definition add_harmony_lines (frame : rect) (flip_h flip_v : bool) : list segment :=
  let x1 := rect_x frame in
  let y1 := rect_y frame in
  let x2 := rect_x frame + rect_width frame in
  let y2 := rect_y frame + rect_height frame in
  let '(x1, x2) := if flip_h then (x2, x1) else (x1, x2) in
  let '(y1, y2) := if flip_v then (y2, y1) else (y1, y2) in
  let start := mkVector x1 y1 0 in
  let finish := mkVector x2 y2 0 in
  let c1 := mkVector x1 y2 0 in
  let c2 := mkVector x2 y1 0 in
  let line_x := vx finish - vx start in
  let line_y := vy finish - vy start in
  let line_len_sq := line_x * line_x + line_y * line_y in
  (start, finish) ::
  (if ltb 0 line_len_sq then
     let t1 := ((vx c1 - vx start) * line_x + (vy c1 - vy start) * line_y)
               / line_len_sq in
     let foot1 := mkVector (vx start + line_x * t1) (vy start + line_y * t1) 0 in
     let t2 := ((vx c2 - vx start) * line_x + (vy c2 - vy start) * line_y)
               / line_len_sq in
     let foot2 := mkVector (vx start + line_x * t2) (vy start + line_y * t2) 0 in
     [(c1, foot1); (c2, foot2)]
   else []).

Definition harmony_triangles_lines (settings : GuideSettings) (frame : rect)
  : list segment :=
  add_harmony_lines frame false false ++
  (if harmony_triangles_flip settings
   then add_harmony_lines frame true false else []).

(** *** Diagonal method *)

Definition diagonal_method_lines (settings : GuideSettings) (frame : rect)
  : list segment :=
  let frame_x := rect_x frame in
  let frame_y := rect_y frame in
  let frame_width := rect_width frame in
  let frame_height := rect_height frame in
  let angle_rad := radians M (diagonal_method_angle settings) in
  let max_len := max frame_width frame_height * 2 in
  let dx := max_len * cos M angle_rad in
  let dy := max_len * sin M angle_rad in
  [ (mkVector frame_x frame_y 0,
     mkVector (frame_x + dx) (frame_y + dy) 0);
    (mkVector (frame_x + frame_width) frame_y 0,
     mkVector (frame_x + frame_width - dx) (frame_y + dy) 0);
    (mkVector frame_x (frame_y + frame_height) 0,
     mkVector (frame_x + dx) (frame_y + frame_height - dy) 0);
    (mkVector (frame_x + frame_width) (frame_y + frame_height) 0,
     mkVector (frame_x + frame_width - dx) (frame_y + frame_height - dy) 0) ].

End Constructions.

End drawing.

(** ** properties.py *)

Module properties.

Import py.
Open Scope Q_scope.
Open Scope string_scope.

(** *** Python values *)

(** The Python values that reach the add-on from JSON documents and from
    operator code: [None], [bool], [int], [float], [str], sequences and
    [dict]s (in insertion order). *)
Inductive pyval : Type :=
| PNone
| PBool (b : bool)
| PInt (z : Z)
| PFloat (q : Q)
| PStr (s : string)
| PList (l : list pyval)
| PDict (d : list (string * pyval)).

(** [d.get(key, default)] on the items of a [dict]. *)
Fixpoint dict_get (d : list (string * pyval)) (key : string) (default : pyval)
  : pyval :=
  match d with
  | [] => default
  | (k, v) :: rest => if String.eqb k key then v else dict_get rest key default
  end.

(** [key in d]. *)
Definition dict_has (d : list (string * pyval)) (key : string) : bool :=
  existsb (fun kv => String.eqb (fst kv) key) d.

(** *** The host's property system ([bpy.props])

    A property is declared with a type, optional hard limits and a default.
    Assigning to it converts the Python value to the property's type, raises
    [TypeError] when that is not possible, and clamps numbers to the hard
    limits.  Reading a property that was never assigned yields its
    default. *)

Inductive prop_decl : Type :=
| BoolProperty (default : bool)
| IntProperty (min max : option Z) (default : Z)
| FloatProperty (min max : option Q) (default : Q)
| EnumProperty (items : list string) (default : string)
| FloatVectorProperty (size : nat) (min max : Q) (default : list Q)
| StringProperty (default : string).

(** A stored property value. *)
Inductive propval : Type :=
| VBool (b : bool)
| VInt (z : Z)
| VFloat (q : Q)
| VEnum (s : string)
| VVec (l : list Q)
| VStr (s : string).

Definition default_value (d : prop_decl) : propval :=
  match d with
  | BoolProperty b => VBool b
  | IntProperty _ _ z => VInt z
  | FloatProperty _ _ q => VFloat q
  | EnumProperty _ s => VEnum s
  | FloatVectorProperty _ _ _ l => VVec l
  | StringProperty s => VStr s
  end.

(** Clamping to hard limits, [max(lo, min(hi, v))]. *)
Definition clamp (lo hi v : Q) : Q := max lo (min hi v).

Definition clamp_float (lo hi : option Q) (v : Q) : Q :=
  let v := match hi with Some h => min h v | None => v end in
  match lo with Some l => max l v | None => v end.

Definition clamp_int (lo hi : option Z) (v : Z) : Z :=
  let v := match hi with Some h => Z.min h v | None => v end in
  match lo with Some l => Z.max l v | None => v end.

(** Conversions of an assigned Python value. *)
Definition to_bool (v : pyval) : result bool :=
  match v with
  | PBool b => Returned b
  | PInt 0 => Returned false
  | PInt 1 => Returned true
  | _ => Raised TypeError
  end.

Definition to_int (v : pyval) : result Z :=
  match v with
  | PInt z => Returned z
  | PBool b => Returned (if b then 1 else 0)%Z
  | _ => Raised TypeError
  end.

Definition to_float (v : pyval) : result Q :=
  match v with
  | PFloat q => Returned q
  | PInt z => Returned (float z)
  | PBool b => Returned (if b then 1 else 0)
  | _ => Raised TypeError
  end.

Fixpoint to_floats (l : list pyval) : result (list Q) :=
  match l with
  | [] => Returned []
  | v :: rest =>
      let* q := to_float v in
      let* qs := to_floats rest in
      Returned (q :: qs)
  end.

(** [owner.prop = v]: the value stored by an assignment.  A sequence of
    the wrong length is refused with [ValueError], a value of the wrong
    type with [TypeError].  Integers are taken to be within the range of
    the host's C [int]: one outside it is refused by the host and is
    outside this model. *)
Definition rna_assign (d : prop_decl) (v : pyval) : result propval :=
  match d with
  | BoolProperty _ =>
      let* b := to_bool v in Returned (VBool b)
  | IntProperty lo hi _ =>
      let* z := to_int v in Returned (VInt (clamp_int lo hi z))
  | FloatProperty lo hi _ =>
      let* q := to_float v in Returned (VFloat (clamp_float lo hi q))
  | EnumProperty items _ =>
      match v with
      | PStr s => if existsb (String.eqb s) items
                  then Returned (VEnum s) else Raised TypeError
      | _ => Raised TypeError
      end
  | FloatVectorProperty size lo hi _ =>
      match v with
      | PList l =>
          if (length l =? size)%nat
          then let* qs := to_floats l in Returned (VVec (map (clamp lo hi) qs))
          else Raised ValueError
      | _ => Raised TypeError
      end
  | StringProperty _ =>
      match v with
      | PStr s => Returned (VStr s)
      | _ => Raised TypeError
      end
  end.

(** [owner.prop[i] = v] on the current value [cur] of the property. *)
Definition rna_assign_item (d : prop_decl) (cur : propval) (i : nat) (v : pyval)
  : result propval :=
  match d, cur with
  | FloatVectorProperty _ lo hi _, VVec l =>
      if (i <? length l)%nat
      then let* q := to_float v in Returned (VVec (<[i := clamp lo hi q]> l))
      else Raised IndexError
  | _, _ => Raised TypeError
  end.

(** Truth value of a property value read back. *)
Definition truthy (v : propval) : bool :=
  match v with
  | VBool b => b
  | VInt z => negb (z =? 0)%Z
  | VFloat q => negb (is_zero q)
  | VEnum s | VStr s => negb (String.eqb s "")
  | VVec l => negb (length l =? 0)%nat
  end.

(** The stored value seen from Python. *)
Definition to_py (v : propval) : pyval :=
  match v with
  | VBool b => PBool b
  | VInt z => PInt z
  | VFloat q => PFloat q
  | VEnum s | VStr s => PStr s
  | VVec l => PList (map PFloat l)
  end.

(** *** CustomGuide *)

Inductive Orientation : Type := HORIZONTAL | VERTICAL.

Record CustomGuide : Type := mkGuide
  { name : string;
    position_x : Q;
    position_y : Q;
    rotation : Q;
    orientation : Orientation;
    color : list Q }.

(** The declared limits of [position_x] and [position_y]: [min=-1.0],
    [max=1.0]. *)
Definition position_min : Q := -1.
Definition position_max : Q := 1.

(** [custom_guides.add()]: a guide with every field at its default. *)
Definition new_guide : CustomGuide :=
  mkGuide "Guide" 0 0 0 HORIZONTAL [0; 4 # 10; 1; 5 # 10].

(** [guide.position_x = q] and [guide.position_y = q] for a float [q]. *)
Definition set_position_x (g : CustomGuide) (q : Q) : CustomGuide :=
  mkGuide (name g) (clamp position_min position_max q) (position_y g)
          (rotation g) (orientation g) (color g).

Definition set_position_y (g : CustomGuide) (q : Q) : CustomGuide :=
  mkGuide (name g) (position_x g) (clamp position_min position_max q)
          (rotation g) (orientation g) (color g).

(** [guide.rotation = q]: no limits are declared. *)
Definition set_rotation (g : CustomGuide) (q : Q) : CustomGuide :=
  mkGuide (name g) (position_x g) (position_y g) q (orientation g) (color g).

Definition set_orientation (g : CustomGuide) (o : Orientation) : CustomGuide :=
  mkGuide (name g) (position_x g) (position_y g) (rotation g) o (color g).

Definition set_name (g : CustomGuide) (s : string) : CustomGuide :=
  mkGuide s (position_x g) (position_y g) (rotation g) (orientation g) (color g).

Definition set_color (g : CustomGuide) (c : list Q) : CustomGuide :=
  mkGuide (name g) (position_x g) (position_y g) (rotation g) (orientation g) c.

(** The same assignments with an arbitrary Python value on the right. *)
Definition assign_position_x (g : CustomGuide) (v : pyval) : result CustomGuide :=
  let* q := to_float v in Returned (set_position_x g q).

Definition assign_position_y (g : CustomGuide) (v : pyval) : result CustomGuide :=
  let* q := to_float v in Returned (set_position_y g q).

Definition assign_rotation (g : CustomGuide) (v : pyval) : result CustomGuide :=
  let* q := to_float v in Returned (set_rotation g q).

Definition assign_orientation (g : CustomGuide) (v : pyval) : result CustomGuide :=
  match v with
  | PStr s =>
      if String.eqb s "HORIZONTAL" then Returned (set_orientation g HORIZONTAL)
      else if String.eqb s "VERTICAL" then Returned (set_orientation g VERTICAL)
      else Raised TypeError
  | _ => Raised TypeError
  end.

Definition assign_name (g : CustomGuide) (v : pyval) : result CustomGuide :=
  match v with
  | PStr s => Returned (set_name g s)
  | _ => Raised TypeError
  end.

(** [guide.color = v]: a sequence of four numbers, each clamped to [0, 1]. *)
Definition assign_color (g : CustomGuide) (v : pyval) : result CustomGuide :=
  match v with
  | PList l =>
      if (length l =? 4)%nat
      then let* qs := to_floats l in Returned (set_color g (map (clamp 0 1) qs))
      else Raised ValueError
  | _ => Raised TypeError
  end.

(** [guide.color[i] = v]. *)
Definition assign_color_item (g : CustomGuide) (i : nat) (v : pyval)
  : result CustomGuide :=
  if (i <? length (color g))%nat
  then let* q := to_float v in
       Returned (set_color g (<[i := clamp 0 1 q]> (color g)))
  else Raised IndexError.

(** Iterating over a Python value: [for x in v]. *)
Definition iterate (v : pyval) : result (list pyval) :=
  match v with
  | PList l => Returned l
  | PDict d => Returned (map (fun kv => PStr (fst kv)) d)
  | PStr s => Returned (map (fun c => PStr (String c EmptyString)) (list_ascii_of_string s))
  | _ => Raised TypeError
  end.

(** [item.get(key, default)]: only a [dict] has the method. *)
Definition item_get (item : pyval) (key : string) (default : pyval) : result pyval :=
  match item with
  | PDict d => Returned (dict_get d key default)
  | _ => Raised AttributeError
  end.

(** *** VSEGuidesSettings (generation 1) *)

(** The declared properties of the settings class, in source order. *)
Definition VSEGuidesSettings : list (string * prop_decl) :=
  [
    ("show_thirds", BoolProperty false);
    ("thirds_color", FloatVectorProperty 4 0 1 [1; 1; 1; (5 # 10)]);
    ("show_golden", BoolProperty false);
    ("golden_color", FloatVectorProperty 4 0 1 [1; 1; 1; (5 # 10)]);
    ("show_center", BoolProperty false);
    ("center_color", FloatVectorProperty 4 0 1 [1; 1; 1; (5 # 10)]);
    ("show_diagonals", BoolProperty false);
    ("diagonals_color", FloatVectorProperty 4 0 1 [1; 1; 1; (5 # 10)]);
    ("show_golden_spiral", BoolProperty false);
    ("golden_spiral_flip_h", BoolProperty false);
    ("golden_spiral_flip_v", BoolProperty false);
    ("golden_spiral_length", IntProperty (Some 1%Z) (Some 24%Z) 8);
    ("golden_spiral_show_segments", BoolProperty true);
    ("golden_spiral_fit", BoolProperty false);
    ("golden_spiral_color", FloatVectorProperty 4 0 1 [1; 1; 1; (5 # 10)]);
    ("show_golden_triangle", BoolProperty false);
    ("golden_triangle_rotation", FloatProperty None None 0);
    ("golden_triangle_scale", FloatProperty (Some (1 # 10)) (Some 2) 1);
    ("golden_triangle_count", IntProperty (Some 1%Z) (Some 10%Z) 1);
    ("golden_triangle_color", FloatVectorProperty 4 0 1 [1; 1; 1; (5 # 10)]);
    ("show_radial_symmetry", BoolProperty false);
    ("radial_symmetry_color", FloatVectorProperty 4 0 1 [1; 1; 1; (5 # 10)]);
    ("radial_line_count", IntProperty (Some 2%Z) (Some 32%Z) 8);
    ("show_vanishing_point", BoolProperty false);
    ("vanishing_point_color", FloatVectorProperty 4 0 1 [1; 1; 1; (5 # 10)]);
    ("vanishing_point_x", FloatProperty (Some 0) (Some 1) (5 # 10));
    ("vanishing_point_y", FloatProperty (Some 0) (Some 1) (5 # 10));
    ("vanishing_point_lines", IntProperty (Some 1%Z) (Some 16%Z) 1);
    ("show_vanishing_point_grid", BoolProperty false);
    ("vanishing_point_grid_count", IntProperty (Some 2%Z) (Some 64%Z) 10);
    ("show_circular_thirds", BoolProperty false);
    ("circular_thirds_count", IntProperty (Some 1%Z) (Some 10%Z) 3);
    ("circular_thirds_fit", BoolProperty false);
    ("circular_thirds_color", FloatVectorProperty 4 0 1 [1; 1; 1; (5 # 10)]);
    ("show_diagonal_reciprocals", BoolProperty false);
    ("diagonal_reciprocals_color", FloatVectorProperty 4 0 1 [1; 1; 1; (5 # 10)]);
    ("show_harmony_triangles", BoolProperty false);
    ("harmony_triangles_color", FloatVectorProperty 4 0 1 [1; 1; 1; (5 # 10)]);
    ("harmony_triangles_flip", BoolProperty false);
    ("show_diagonal_method", BoolProperty false);
    ("diagonal_method_color", FloatVectorProperty 4 0 1 [1; 1; 1; (5 # 10)]);
    ("diagonal_method_angle", FloatProperty (Some 0) (Some 90) 45);
    ("show_rulers", BoolProperty false);
    ("ruler_units", EnumProperty ["RESOLUTION"; "PIXELS"; "PERCENT"] "RESOLUTION");
    ("ruler_color", FloatVectorProperty 4 0 1 [1; 1; 1; (5 # 10)]);
    ("line_width", FloatProperty (Some (5 # 10)) (Some 5) 1);
    ("ruler_size", IntProperty (Some 20%Z) (Some 50%Z) 30);
    ("bg_color", FloatVectorProperty 4 0 1 [(16 # 100); (16 # 100); (16 # 100); (96 # 100)]);
    ("show_grid", BoolProperty false);
    ("grid_divisions", IntProperty (Some 2%Z) (Some 32%Z) 8);
    ("grid_square", BoolProperty false);
    ("grid_color", FloatVectorProperty 4 0 1 [1; 1; 1; (3 # 10)]);
    ("show_custom_guides", BoolProperty true);
    ("active_guide_index", IntProperty None None 0);
    ("hide_guides_outside_frame", BoolProperty true);
    ("stored_active_guides", StringProperty EmptyString);
    ("active_preset", StringProperty EmptyString);
    ("new_preset_name", StringProperty EmptyString)
  ].

(** The declaration of an attribute, if the class declares it. *)
Fixpoint declaration (schema : list (string * prop_decl)) (prop_name : string)
  : option prop_decl :=
  match schema with
  | [] => None
  | (n, d) :: rest =>
      if String.eqb n prop_name then Some d else declaration rest prop_name
  end.

(** A settings object: the values assigned so far, by property name. *)
Abbreviation settings := (gmap string propval).

(** [hasattr(settings, prop_name)], for the declared properties.  Python's
    [hasattr] is also true for the attributes that every property group
    has, such as [bl_rna] and [name]; here such a name counts as
    absent. *)
Definition hasattr (prop_name : string) : bool :=
  match declaration VSEGuidesSettings prop_name with
  | Some _ => true
  | None => false
  end.

(** [getattr(settings, prop_name)]. *)
Definition getattr (s : settings) (prop_name : string) : result propval :=
  match declaration VSEGuidesSettings prop_name with
  | Some d =>
      Returned (match s !! prop_name with Some v => v | None => default_value d end)
  | None => Raised AttributeError
  end.

(** [setattr(settings, prop_name, value)]; the settings are returned as they
    are after the statement, together with its outcome. *)
Definition setattr (s : settings) (prop_name : string) (value : pyval)
  : settings * result unit :=
  match declaration VSEGuidesSettings prop_name with
  | Some d =>
      match rna_assign d value with
      | Returned v => (<[prop_name := v]> s, Returned tt)
      | Raised e => (s, Raised e)
      | OutOfFuel => (s, OutOfFuel)
      end
  | None => (s, Raised AttributeError)
  end.

(** *** deserialize_guides (generation 2) *)

(** The body of the [for item in data] loop for one [item], applied to the
    guide just added. *)
Definition deserialize_item (item : pyval) (guide : CustomGuide)
  : CustomGuide * result unit :=
  assign_then (let* v := item_get item "name" (PStr "Guide") in
               assign_name guide v) guide (fun guide =>
  assign_then (let* v := item_get item "position_x" (PFloat 0) in
               assign_position_x guide v) guide (fun guide =>
  assign_then (let* v := item_get item "position_y" (PFloat 0) in
               assign_position_y guide v) guide (fun guide =>
  assign_then (let* v := item_get item "rotation" (PFloat 0) in
               assign_rotation guide v) guide (fun guide =>
  assign_then (let* v := item_get item "orientation" (PStr "HORIZONTAL") in
               assign_orientation guide v) guide (fun guide =>
  assign_then (let* v := item_get item "color"
                           (PList [PFloat 0; PFloat (4 # 10); PFloat 1; PFloat (5 # 10)]) in
               assign_color guide v) guide (fun guide =>
  (guide, Returned tt))))))).

(** The [for item in data] loop on the collection: every pass appends a new
    guide and then fills it in; an exception leaves the collection as it is
    at that point. *)
Fixpoint deserialize_loop (items : list pyval) (guides_collection : list CustomGuide)
  : list CustomGuide * result unit :=
  match items with
  | [] => (guides_collection, Returned tt)
  | item :: rest =>
      match deserialize_item item new_guide with
      | (guide, Returned _) => deserialize_loop rest (guides_collection ++ [guide])%list
      | (guide, Raised e) => ((guides_collection ++ [guide])%list, Raised e)
      | (guide, OutOfFuel) => ((guides_collection ++ [guide])%list, OutOfFuel)
      end
  end.

(** [deserialize_guides(guides_collection, value)].  [json_loads] is
    [json.loads], with [None] for a raised [ValueError]. *)
Definition deserialize_guides (json_loads : string -> option pyval)
    (guides_collection : list CustomGuide) (value : string)
  : list CustomGuide * result unit :=
  if String.eqb value "" then (guides_collection, Returned tt)
  else
    match json_loads value with
    | None => (guides_collection, Returned tt)
    | Some data =>
        let guides_collection := @nil CustomGuide in
        match iterate data with
        | Returned items => deserialize_loop items guides_collection
        | Raised e => (guides_collection, Raised e)
        | OutOfFuel => (guides_collection, OutOfFuel)
        end
    end.

(** Writing the computed property [custom_guides_data] of a settings object
    whose owner holds [custom_guides]. *)
Definition set_custom_guides_data (json_loads : string -> option pyval)
    (custom_guides : list CustomGuide) (value : string)
  : list CustomGuide * result unit :=
  deserialize_guides json_loads custom_guides value.

End properties.

(** ** operators.py *)

Module operators.

Import py drawing properties.
Open Scope Q_scope.
Open Scope string_scope.

(** The result codes of the host's operator framework. *)
Inductive op_return : Type := FINISHED | CANCELLED | RUNNING_MODAL | PASS_THROUGH.

(** The events the modal handlers distinguish. *)
Inductive event_type : Type :=
| MOUSEMOVE | LEFTMOUSE | RIGHTMOUSE | ESC | DEL | OTHER_TYPE.

Inductive event_value : Type := PRESS | RELEASE | OTHER_VALUE.

Record Event : Type := mkEvent
  { type : event_type;
    value : event_value;
    mouse_region_x : Z;
    mouse_region_y : Z }.

(** [a <= b] on floats. *)
Definition leb (a b : Q) : bool := negb (ltb b a).

(** [collection.remove(index)]: nothing happens for an index out of range. *)
Definition collection_remove {A : Type} (l : list A) (index : Z) : list A :=
  if (index <? 0)%Z then l else delete (Z.to_nat index) l.

(** *** VSE_OT_move_custom_guide *)

(** The attributes the operator instance keeps between [invoke] and
    [modal]; [guide] is the position in the collection of the item the
    attribute [self.guide] refers to. *)
Record MoveOp : Type := mkMoveOp
  { frame_x : Q;
    frame_y : Q;
    frame_width : Q;
    frame_height : Q;
    guide : nat;
    guide_index : Z;
    original_position_x : Q;
    original_position_y : Q }.

(** The frame rectangle computed at the start of [invoke]; [None] when the
    operator returns [CANCELLED] because a render dimension is zero. *)
Definition invoke_frame (render : RenderSettings) (region : Region) : option rect :=
  let render_width := resolution_x render in
  let render_height := resolution_y render in
  if (render_width =? 0)%Z || (render_height =? 0)%Z then None
  else
    let '(x1, y1) :=
      view_to_region region (float (- render_width) / 2) (float (- render_height) / 2) in
    let '(x2, y2) :=
      view_to_region region (float render_width / 2) (float render_height / 2) in
    Some (mkRect (float x1) (float y1) (float (x2 - x1)) (float (y2 - y1))).

(** The local variables of the hit-test loop. *)
Record hit : Type := mkHit
  { closest_guide : option nat;
    closest_distance : Q;
    closest_index : Z }.

(** The body of [for i, guide in enumerate(context.scene.custom_guides)]. *)
Definition hit_test_body (f : rect) (mouse_x mouse_y : Z) (i : nat)
    (g : CustomGuide) (h : hit) : hit :=
  let center_x := rect_x f + rect_width f / 2 in
  let center_y := rect_y f + rect_height f / 2 in
  match orientation g with
  | HORIZONTAL =>
      let guide_screen_y := center_y + position_y g * rect_height f / 2 in
      let distance := abs (float mouse_y - guide_screen_y) in
      if ltb distance (closest_distance h)
         && (leb (rect_x f) (float mouse_x)
             && leb (float mouse_x) (rect_x f + rect_width f))
      then mkHit (Some i) distance (Z.of_nat i)
      else h
  | VERTICAL =>
      let guide_screen_x := center_x + position_x g * rect_width f / 2 in
      let distance := abs (float mouse_x - guide_screen_x) in
      if ltb distance (closest_distance h)
         && (leb (rect_y f) (float mouse_y)
             && leb (float mouse_y) (rect_y f + rect_height f))
      then mkHit (Some i) distance (Z.of_nat i)
      else h
  end.

Fixpoint hit_test_loop (f : rect) (mouse_x mouse_y : Z) (i : nat)
    (guides : list CustomGuide) (h : hit) : hit :=
  match guides with
  | [] => h
  | g :: rest =>
      hit_test_loop f mouse_x mouse_y (S i) rest (hit_test_body f mouse_x mouse_y i g h)
  end.

(** [invoke]: the result code, the operator attributes when the operator
    goes modal, and the settings with the new active index. *)
Definition move_invoke (render : RenderSettings) (region : Region)
    (custom_guides : list CustomGuide) (vse_guides : settings) (event : Event)
  : op_return * option MoveOp * settings :=
  match invoke_frame render region with
  | None => (CANCELLED, None, vse_guides)
  | Some f =>
      let threshold := 5 in
      let h := hit_test_loop f (mouse_region_x event) (mouse_region_y event) 0
                 custom_guides (mkHit None threshold (-1)) in
      match closest_guide h with
      | None => (PASS_THROUGH, None, vse_guides)
      | Some i =>
          match custom_guides !! i with
          | None => (PASS_THROUGH, None, vse_guides)
          | Some g =>
              (RUNNING_MODAL,
               Some (mkMoveOp (rect_x f) (rect_y f) (rect_width f) (rect_height f)
                       i (closest_index h) (position_x g) (position_y g)),
               fst (setattr vse_guides "active_guide_index" (PInt (closest_index h))))
          end
      end
  end.

(** The [MOUSEMOVE] branch shared by the two modal handlers: the guide moved
    to the mouse position, clamped. *)
Definition drag_to_mouse (fx fy fw fh : Q) (event : Event) (g : CustomGuide)
  : result CustomGuide :=
  match orientation g with
  | HORIZONTAL =>
      let center_y := fy + fh / 2 in
      let screen_offset_y := float (mouse_region_y event) - center_y in
      let* val := div screen_offset_y (fh / 2) in
      Returned (set_position_y g (max (-1) (min 1 val)))
  | VERTICAL =>
      let center_x := fx + fw / 2 in
      let screen_offset_x := float (mouse_region_x event) - center_x in
      let* val := div screen_offset_x (fw / 2) in
      Returned (set_position_x g (max (-1) (min 1 val)))
  end.

(** [modal]: the collection after the event and the outcome. *)
Definition move_modal (self : MoveOp) (custom_guides : list CustomGuide)
    (event : Event) : list CustomGuide * result op_return :=
  match type event, value event with
  | MOUSEMOVE, _ =>
      match custom_guides !! guide self with
      | Some g =>
          match drag_to_mouse (frame_x self) (frame_y self) (frame_width self)
                  (frame_height self) event g with
          | Returned g' => (<[guide self := g']> custom_guides, Returned RUNNING_MODAL)
          | Raised e => (custom_guides, Raised e)
          | OutOfFuel => (custom_guides, OutOfFuel)
          end
      | None => (custom_guides, Returned RUNNING_MODAL)
      end
  | LEFTMOUSE, RELEASE => (custom_guides, Returned FINISHED)
  | RIGHTMOUSE, _ | ESC, _ =>
      match custom_guides !! guide self with
      | Some g =>
          let g := set_position_x g (original_position_x self) in
          let g := set_position_y g (original_position_y self) in
          (<[guide self := g]> custom_guides, Returned CANCELLED)
      | None => (custom_guides, Returned CANCELLED)
      end
  | DEL, PRESS =>
      if (0 <=? guide_index self)%Z
      then (collection_remove custom_guides (guide_index self), Returned FINISHED)
      else (custom_guides, Returned FINISHED)
  | _, _ => (custom_guides, Returned RUNNING_MODAL)
  end.

(** *** VSE_OT_drag_guide_from_ruler *)

Record DragOp : Type := mkDragOp
  { drag_frame_x : Q;
    drag_frame_y : Q;
    drag_frame_width : Q;
    drag_frame_height : Q;
    drag_guide : nat }.

Definition drag_invoke (render : RenderSettings) (region : Region)
    (ruler_size : Z) (custom_guides : list CustomGuide) (event : Event)
  : list CustomGuide * result (op_return * option DragOp) :=
  match invoke_frame render region with
  | None => (custom_guides, Returned (CANCELLED, None))
  | Some f =>
      let fx := rect_x f in
      let fy := rect_y f in
      let fw := rect_width f in
      let fh := rect_height f in
      let mouse_x := float (mouse_region_x event) in
      let mouse_y := float (mouse_region_y event) in
      let in_top_ruler :=
        (leb fx mouse_x && leb mouse_x (fx + fw))
        && (leb (fy + fh) mouse_y && leb mouse_y (fy + fh + float ruler_size)) in
      let in_left_ruler :=
        (leb (fx - float ruler_size) mouse_x && leb mouse_x fx)
        && (leb fy mouse_y && leb mouse_y (fy + fh)) in
      if negb (in_top_ruler || in_left_ruler)
      then (custom_guides, Returned (CANCELLED, None))
      else
        let i := length custom_guides in
        let g := new_guide in
        if in_top_ruler then
          let g := set_orientation g HORIZONTAL in
          let center_y := fy + fh / 2 in
          match div (mouse_y - center_y) (fh / 2) with
          | Returned val =>
              let g := set_position_y g (max (-1) (min 1 val)) in
              ((custom_guides ++ [g])%list,
               Returned (RUNNING_MODAL, Some (mkDragOp fx fy fw fh i)))
          | Raised e => ((custom_guides ++ [g])%list, Raised e)
          | OutOfFuel => ((custom_guides ++ [g])%list, OutOfFuel)
          end
        else
          let g := set_orientation g VERTICAL in
          let center_x := fx + fw / 2 in
          match div (mouse_x - center_x) (fw / 2) with
          | Returned val =>
              let g := set_position_x g (max (-1) (min 1 val)) in
              ((custom_guides ++ [g])%list,
               Returned (RUNNING_MODAL, Some (mkDragOp fx fy fw fh i)))
          | Raised e => ((custom_guides ++ [g])%list, Raised e)
          | OutOfFuel => ((custom_guides ++ [g])%list, OutOfFuel)
          end
  end.

Definition drag_modal (self : DragOp) (custom_guides : list CustomGuide)
    (event : Event) : list CustomGuide * result op_return :=
  match type event, value event with
  | MOUSEMOVE, _ =>
      match custom_guides !! drag_guide self with
      | Some g =>
          match drag_to_mouse (drag_frame_x self) (drag_frame_y self)
                  (drag_frame_width self) (drag_frame_height self) event g with
          | Returned g' =>
              (<[drag_guide self := g']> custom_guides, Returned RUNNING_MODAL)
          | Raised e => (custom_guides, Raised e)
          | OutOfFuel => (custom_guides, OutOfFuel)
          end
      | None => (custom_guides, Returned RUNNING_MODAL)
      end
  | LEFTMOUSE, RELEASE =>
      match custom_guides !! drag_guide self with
      | Some _ => (custom_guides, Returned FINISHED)
      | None => (custom_guides, Returned CANCELLED)
      end
  | RIGHTMOUSE, _ | ESC, _ =>
      match custom_guides !! drag_guide self with
      | Some _ =>
          (collection_remove custom_guides (Z.of_nat (length custom_guides) - 1),
           Returned CANCELLED)
      | None => (custom_guides, Returned CANCELLED)
      end
  | _, _ => (custom_guides, Returned RUNNING_MODAL)
  end.

(** *** The list operators *)

(** [str(n)] of a collection size. *)
Definition str_of_nat (n : nat) : string :=
  NilEmpty.string_of_uint (Nat.to_uint n).

(** [VSE_OT_add_custom_guide.execute] with the operator's [orientation]. *)
Definition add_custom_guide (orientation : Orientation)
    (custom_guides : list CustomGuide) : list CustomGuide :=
  let g := new_guide in
  let g := set_orientation g orientation in
  let g := set_position_x g 0 in
  let g := set_position_y g 0 in
  let g := set_name g (str_of_nat (length custom_guides + 1)) in
  (custom_guides ++ [g])%list.

(** [VSE_OT_remove_custom_guide.execute] with the operator's [index]. *)
Definition remove_custom_guide (index : Z) (custom_guides : list CustomGuide)
  : list CustomGuide :=
  if (0 <=? index)%Z && (index <? Z.of_nat (length custom_guides))%Z
  then collection_remove custom_guides index
  else custom_guides.

(** [VSE_OT_clear_custom_guides.execute]. *)
Definition clear_custom_guides (custom_guides : list CustomGuide)
  : list CustomGuide := [].

(** *** VSE_OT_toggle_all_guides *)

Definition guide_props : list string :=
  [ "show_thirds"; "show_golden"; "show_center"; "show_diagonals";
    "show_rulers"; "show_grid"; "show_custom_guides"; "show_golden_spiral";
    "show_golden_triangle"; "show_circular_thirds"; "show_radial_symmetry";
    "show_vanishing_point"; "show_diagonal_reciprocals";
    "show_harmony_triangles"; "show_diagonal_method" ].

(** [sep.join(l)]. *)
Fixpoint join (sep : string) (l : list string) : string :=
  match l with
  | [] => ""
  | [x] => x
  | x :: rest => x ++ sep ++ join sep rest
  end.

(** [s.split(sep)] for a one-character separator. *)
Fixpoint split (sep : ascii) (s : string) : list string :=
  match s with
  | EmptyString => [EmptyString]
  | String c s' =>
      if Ascii.eqb c sep then EmptyString :: split sep s'
      else
        match split sep s' with
        | [] => [String c EmptyString]
        | x :: xs => String c x :: xs
        end
  end.

(** [getattr(settings, prop)] used as a condition. *)
Definition attr_true (s : settings) (prop : string) : result bool :=
  let* v := getattr s prop in Returned (truthy v).

(** The first loop: is any guide active? *)
Fixpoint any_active_loop (s : settings) (props : list string) : result bool :=
  match props with
  | [] => Returned false
  | prop :: rest =>
      let* b := attr_true s prop in
      if b then Returned true else any_active_loop s rest
  end.

(** The loop that records the active guides and switches them off. *)
Fixpoint disable_loop (props : list string) (s : settings)
    (active_guides : list string) : settings * list string * result unit :=
  match props with
  | [] => (s, active_guides, Returned tt)
  | prop :: rest =>
      match attr_true s prop with
      | Returned true =>
          match setattr s prop (PBool false) with
          | (s', Returned _) => disable_loop rest s' (active_guides ++ [prop])%list
          | (s', Raised e) => (s', (active_guides ++ [prop])%list, Raised e)
          | (s', OutOfFuel) => (s', (active_guides ++ [prop])%list, OutOfFuel)
          end
      | Returned false => disable_loop rest s active_guides
      | Raised e => (s, active_guides, Raised e)
      | OutOfFuel => (s, active_guides, OutOfFuel)
      end
  end.

(** The loop that restores the saved guides; [count] is the number of
    attributes set. *)
Fixpoint restore_loop (saved_guides : list string) (s : settings) (count : Z)
  : settings * Z * result unit :=
  match saved_guides with
  | [] => (s, count, Returned tt)
  | prop :: rest =>
      if hasattr prop then
        match setattr s prop (PBool true) with
        | (s', Returned _) => restore_loop rest s' (count + 1)%Z
        | (s', Raised e) => (s', count, Raised e)
        | (s', OutOfFuel) => (s', count, OutOfFuel)
        end
      else restore_loop rest s count
  end.

(** The fallback: thirds and custom guide lines on. *)
Definition enable_defaults (s : settings) : settings :=
  let s := fst (setattr s "show_thirds" (PBool true)) in
  fst (setattr s "show_custom_guides" (PBool true)).

(** [VSE_OT_toggle_all_guides.execute]: the settings after the call and its
    outcome. *)
Definition toggle_all_guides (s : settings) : settings * result op_return :=
  match any_active_loop s guide_props with
  | Raised e => (s, Raised e)
  | OutOfFuel => (s, OutOfFuel)
  | Returned true =>
      match disable_loop guide_props s [] with
      | (s, active_guides, Returned _) =>
          match setattr s "stored_active_guides" (PStr (join "," active_guides)) with
          | (s, Returned _) => (s, Returned FINISHED)
          | (s, Raised e) => (s, Raised e)
          | (s, OutOfFuel) => (s, OutOfFuel)
          end
      | (s, _, Raised e) => (s, Raised e)
      | (s, _, OutOfFuel) => (s, OutOfFuel)
      end
  | Returned false =>
      match getattr s "stored_active_guides" with
      | Returned (VStr stored) =>
          if negb (String.eqb stored "") then
            let saved_guides := split "," stored in
            match restore_loop saved_guides s 0 with
            | (s, count, Returned _) =>
                if (count =? 0)%Z
                then (enable_defaults s, Returned FINISHED)
                else (s, Returned FINISHED)
            | (s, _, Raised e) => (s, Raised e)
            | (s, _, OutOfFuel) => (s, OutOfFuel)
            end
          else (enable_defaults s, Returned FINISHED)
      | Returned _ => (s, Raised AttributeError)
      | Raised e => (s, Raised e)
      | OutOfFuel => (s, OutOfFuel)
      end
  end.

(** *** VSE_OT_export_guides_image: the geometry handed to [draw_line]

    Each construction is given as the list of [draw_line(x0, y0, x1, y1)]
    calls it makes, in order. *)

Definition line2 : Type := (Q * Q * Q * Q)%type.

Section ExportGeometry.

Variable M : MathLib.

(** The target rectangle of the spiral, as recomputed in [execute]. *)
Definition export_spiral_target (fit : bool) (width height : Z)
  : result (Q * Q * Q * Q) :=
  if fit then Returned (float width, float height, 0, 0)
  else
    let* ratio := div (float width) (float height) in
    if ltb phi ratio then
      let target_h := float height in
      let target_w := float height * phi in
      Returned (target_w, target_h, (float width - target_w) / 2, 0)
    else if ltb ratio (1 / phi) then
      let target_w := float width in
      let target_h := float width * phi in
      Returned (target_w, target_h, 0, (float height - target_h) / 2)
    else
      let target_w := float width in
      let target_h := float width / phi in
      if ltb (float height) target_h then
        let target_h := float height in
        let target_w := float height * phi in
        Returned (target_w, target_h, (float width - target_w) / 2, 0)
      else Returned (target_w, target_h, 0, (float height - target_h) / 2).

Record export_spiral_vars : Type := mkExportSpiral
  { e_lx : Q; e_ly : Q; e_lw : Q; e_lh : Q;
    e_points : list (Q * Q);
    segment_lines : list ((Q * Q) * (Q * Q)) }.

Definition export_arc_points (center_x center_y radius start_angle end_angle : Q)
  : list (Q * Q) :=
  map (fun i : nat =>
         let t := float (Z.of_nat i) / float 32 in
         let angle := start_angle + (end_angle - start_angle) * t in
         (center_x + radius * cos M angle, center_y + radius * sin M angle))
      (range (32 + 1)).

Definition export_spiral_body (show_segments : bool) (idx : nat)
    (v : export_spiral_vars) : option export_spiral_vars :=
  if ltb (e_lw v) 1 || ltb (e_lh v) 1 then None
  else
    let mindim := min (e_lw v) (e_lh v) in
    let radius := mindim in
    match (idx mod 4)%nat with
    | 0%nat =>
        let sl := if show_segments
                  then (segment_lines v ++
                        [((e_lx v + radius, e_ly v), (e_lx v + radius, e_ly v + e_lh v))])%list
                  else segment_lines v in
        Some (mkExportSpiral (e_lx v + radius) (e_ly v) (e_lw v - radius) (e_lh v)
                (e_points v ++
                 export_arc_points (e_lx v + radius) (e_ly v) radius (pi M) (pi M / 2))%list
                sl)
    | 1%nat =>
        let sl := if show_segments
                  then (segment_lines v ++
                        [((e_lx v, e_ly v + e_lh v - radius),
                          (e_lx v + e_lw v, e_ly v + e_lh v - radius))])%list
                  else segment_lines v in
        Some (mkExportSpiral (e_lx v) (e_ly v) (e_lw v) (e_lh v - radius)
                (e_points v ++
                 export_arc_points (e_lx v) (e_ly v + e_lh v - radius) radius
                   (pi M / 2) 0)%list
                sl)
    | 2%nat =>
        let sl := if show_segments
                  then (segment_lines v ++
                        [((e_lx v + e_lw v - radius, e_ly v),
                          (e_lx v + e_lw v - radius, e_ly v + e_lh v))])%list
                  else segment_lines v in
        Some (mkExportSpiral (e_lx v) (e_ly v) (e_lw v - radius) (e_lh v)
                (e_points v ++
                 export_arc_points (e_lx v + e_lw v - radius) (e_ly v + e_lh v) radius
                   0 (- pi M / 2))%list
                sl)
    | _ =>
        let sl := if show_segments
                  then (segment_lines v ++
                        [((e_lx v, e_ly v + radius), (e_lx v + e_lw v, e_ly v + radius))])%list
                  else segment_lines v in
        Some (mkExportSpiral (e_lx v) (e_ly v + radius) (e_lw v) (e_lh v - radius)
                (e_points v ++
                 export_arc_points (e_lx v + e_lw v) (e_ly v + radius) radius
                   (- pi M / 2) (- pi M))%list
                sl)
    end.

Fixpoint export_spiral_for (show_segments : bool) (idxs : list nat)
    (v : export_spiral_vars) : export_spiral_vars :=
  match idxs with
  | [] => v
  | idx :: rest =>
      match export_spiral_body show_segments idx v with
      | None => v
      | Some v' => export_spiral_for show_segments rest v'
      end
  end.

(** The nested [transform_point(px, py)]. *)
Definition transform_point (flip_h flip_v : bool) (scale_x scale_y offset_x offset_y : Q)
    (p : Q * Q) : Q * Q :=
  let px := if flip_h then gen_w - fst p else fst p in
  let py := if flip_v then gen_h - snd p else snd p in
  (px * scale_x + offset_x, py * scale_y + offset_y).

Definition export_golden_spiral (settings : GuideSettings) (width height : Z)
  : result (list line2) :=
  let* tgt := export_spiral_target (golden_spiral_fit settings) width height in
  let '(target_w, target_h, offset_x, offset_y) := tgt in
  let v := export_spiral_for (golden_spiral_show_segments settings)
             (range (golden_spiral_length settings))
             (mkExportSpiral 0 0 gen_w gen_h [] []) in
  let scale_x := target_w / gen_w in
  let scale_y := target_h / gen_h in
  let tp := transform_point (golden_spiral_flip_h settings)
              (golden_spiral_flip_v settings) scale_x scale_y offset_x offset_y in
  let curve :=
    map (fun pq : (Q * Q) * (Q * Q) =>
           (fst (tp (fst pq)), snd (tp (fst pq)), fst (tp (snd pq)), snd (tp (snd pq))))
        (consecutive (e_points v)) in
  let segments :=
    if golden_spiral_show_segments settings then
      map (fun pq : (Q * Q) * (Q * Q) =>
             (fst (tp (fst pq)), snd (tp (fst pq)), fst (tp (snd pq)), snd (tp (snd pq))))
          (segment_lines v)
    else [] in
  Returned (curve ++ segments)%list.

(** [execute] as far as the golden spiral goes: with a render width or
    height of zero the operator reports an error and returns
    [CANCELLED] before any block is reached; otherwise the block gives
    its lines. *)
Definition export_spiral_execute (settings : GuideSettings) (width height : Z)
  : op_return + result (list line2) :=
  if (width =? 0)%Z || (height =? 0)%Z then inl CANCELLED
  else inr (export_golden_spiral settings width height).

(** The vanishing-point block. *)
Definition export_vanishing_point (settings : GuideSettings) (width height : Z)
  : list line2 :=
  let w := float width in
  let h := float height in
  let vp_x := w * vanishing_point_x settings in
  let vp_y := h * vanishing_point_y settings in
  let line_count := vanishing_point_lines settings in
  let radial :=
    if (0 <? line_count)%Z then
      let subdivisions := line_count in
      let tl := (0, h) in
      let tr := (w, h) in
      let br := (w, 0) in
      let bl := (0, 0) in
      let edges := [(tl, tr); (tr, br); (br, bl); (bl, tl)] in
      flat_map (fun e : (Q * Q) * (Q * Q) =>
        let '((sx, sy), (ex, ey)) := e in
        map (fun i : nat =>
               let t := float (Z.of_nat i) / float subdivisions in
               let px := sx * (1 - t) + ex * t in
               let py := sy * (1 - t) + ey * t in
               (vp_x, vp_y, px, py))
            (range subdivisions)) edges
    else [] in
  let grid :=
    if show_vanishing_point_grid settings then
      let grid_count := vanishing_point_grid_count settings in
      if (0 <? grid_count)%Z then
        let c1x := 0 in let c1y := 0 in
        let c2x := w in let c2y := 0 in
        let c3x := w in let c3y := h in
        let c4x := 0 in let c4y := h in
        flat_map (fun k : nat =>
          let i := (Z.of_nat k + 1)%Z in
          let t := float i / float (grid_count + 1) in
          let p1x := c1x * (1 - t) + vp_x * t in
          let p1y := c1y * (1 - t) + vp_y * t in
          let p2x := c2x * (1 - t) + vp_x * t in
          let p2y := c2y * (1 - t) + vp_y * t in
          let p3x := c3x * (1 - t) + vp_x * t in
          let p3y := c3y * (1 - t) + vp_y * t in
          let p4x := c4x * (1 - t) + vp_x * t in
          let p4y := c4y * (1 - t) + vp_y * t in
          [ (p1x, p1y, p2x, p2y); (p2x, p2y, p3x, p3y);
            (p3x, p3y, p4x, p4y); (p4x, p4y, p1x, p1y) ])
          (range grid_count)
      else []
    else [] in
  (radial ++ grid)%list.

(** The harmony-triangles block. *)
Definition export_harmony_triangles (settings : GuideSettings) (width height : Z)
  : list line2 :=
  let w := float width in
  let h := float height in
  let w_sq := (width * width)%Z in
  let h_sq := (height * height)%Z in
  let denom := (w_sq + h_sq)%Z in
  (0, 0, w, h) ::
  (if (0 <? denom)%Z then
     let foot_x := float (width * h_sq) / float denom in
     let foot_y := float (height * h_sq) / float denom in
     let foot_x2 := float (width * w_sq) / float denom in
     let foot_y2 := float (height * w_sq) / float denom in
     [ (0, h, foot_x, foot_y); (w, 0, foot_x2, foot_y2) ]
   else []).

(** The diagonal-method block. *)
Definition export_diagonal_method (settings : GuideSettings) (width height : Z)
  : list line2 :=
  let w := float width in
  let h := float height in
  let min_dim := float (Z.min width height) in
  [ (0, 0, min_dim, min_dim);
    (w, 0, w - min_dim, min_dim);
    (0, h, min_dim, h - min_dim);
    (w, h, w - min_dim, h - min_dim) ].

(** The nested [rotate_point(x, y)] of the golden-triangle block. *)
Definition rotate_point (rotation cx cy : Q) (p : Q * Q) : Q * Q :=
  if negb (is_zero rotation) then
    let cos_r := cos M rotation in
    let sin_r := sin M rotation in
    let dx := fst p - cx in
    let dy := snd p - cy in
    (cx + dx * cos_r - dy * sin_r, cy + dx * sin_r + dy * cos_r)
  else p.

(** The golden-triangle block. *)
Definition export_golden_triangle (settings : GuideSettings) (width height : Z)
  : list line2 :=
  let cx := float width / 2 in
  let cy := float height / 2 in
  let scale := golden_triangle_scale settings in
  let triangle_count := golden_triangle_count settings in
  let base_size := float (Z.min width height) / 2 * scale in
  let tri_h := base_size * sqrt M 3 / 2 in
  flat_map (fun t : nat =>
    let t_scale :=
      if (1 <? triangle_count)%Z
      then 1 - float (Z.of_nat t) / float triangle_count else 1 in
    let top := rotate_point (golden_triangle_rotation settings) cx cy
                 (cx, cy + tri_h * 2 / 3 * t_scale) in
    let bl := rotate_point (golden_triangle_rotation settings) cx cy
                (cx - base_size * t_scale, cy - tri_h * 1 / 3 * t_scale) in
    let br := rotate_point (golden_triangle_rotation settings) cx cy
                (cx + base_size * t_scale, cy - tri_h * 1 / 3 * t_scale) in
    [ (fst top, snd top, fst bl, snd bl);
      (fst bl, snd bl, fst br, snd br);
      (fst br, snd br, fst top, snd top) ])
    (range triangle_count).

End ExportGeometry.

End operators.

(** ** presets.py (generation 1) *)

Module presets.

Import py properties.
Open Scope Q_scope.
Open Scope string_scope.

(** Properties to save/load in presets. *)
Definition PRESET_PROPERTIES : list string :=
  [
    "show_thirds"; "show_golden"; "show_center"; "show_diagonals";
    "show_golden_spiral"; "show_golden_triangle"; "show_radial_symmetry";
    "show_vanishing_point"; "show_circular_thirds";
    "show_diagonal_reciprocals"; "show_harmony_triangles";
    "show_diagonal_method"; "show_rulers"; "show_grid";
    "show_custom_guides"; "thirds_color"; "golden_color"; "center_color";
    "diagonals_color"; "golden_spiral_color"; "golden_triangle_color";
    "radial_symmetry_color"; "vanishing_point_color";
    "circular_thirds_color"; "diagonal_reciprocals_color";
    "harmony_triangles_color"; "diagonal_method_color"; "ruler_color";
    "bg_color"; "grid_color"; "golden_spiral_flip_h";
    "golden_spiral_flip_v"; "golden_spiral_length";
    "golden_spiral_show_segments"; "golden_spiral_fit";
    "golden_triangle_rotation"; "golden_triangle_fit"; "radial_line_count";
    "vanishing_point_x"; "vanishing_point_y"; "circular_thirds_count";
    "circular_thirds_fit"; "ruler_units"; "line_width"; "ruler_size";
    "grid_divisions"; "grid_square"; "hide_guides_outside_frame"
  ].

(** [prop_name in PRESET_PROPERTIES]. *)
Definition in_preset_properties (prop_name : string) : bool :=
  existsb (String.eqb prop_name) PRESET_PROPERTIES.

(** [settings_to_dict(settings)]: the items of the dictionary, in insertion
    order. *)
Definition settings_to_dict (s : settings) : list (string * pyval) :=
  flat_map (fun prop_name =>
    if hasattr prop_name then
      match getattr s prop_name with
      | Returned value => [(prop_name, to_py value)]
      | _ => []
      end
    else []) PRESET_PROPERTIES.

(** The [for i, v in enumerate(value): prop[i] = v] loop on the current
    value of the property; the loop stops at the first assignment that
    raises, and what was assigned before stays. *)
Fixpoint assign_items (d : prop_decl) (cur : propval) (i : nat) (vals : list pyval)
  : propval :=
  match vals with
  | [] => cur
  | v :: rest =>
      match rna_assign_item d cur i v with
      | Returned cur' => assign_items d cur' (S i) rest
      | _ => cur
      end
  end.

(** One pass through the loop of [dict_to_settings]. *)
Definition apply_item (s : settings) (item : string * pyval) : settings :=
  let '(prop_name, value) := item in
  if in_preset_properties prop_name && hasattr prop_name then
    match value with
    | PList l =>
        match declaration VSEGuidesSettings prop_name, getattr s prop_name with
        | Some d, Returned cur =>
            match l with
            | [] => s
            | _ => match assign_items d cur 0 l with
                   | VVec q => <[prop_name := VVec q]> s
                   | _ => s
                   end
            end
        | _, _ => s
        end
    | _ => fst (setattr s prop_name value)
    end
  else s.

(** [dict_to_settings(data, settings)]. *)
Definition dict_to_settings (data : list (string * pyval)) (s : settings) : settings :=
  fold_left apply_item data s.

(** The [for i, v in enumerate(guide_data['color']): guide.color[i] = v]
    loop. *)
Fixpoint color_loop (i : nat) (vals : list pyval) (guide : CustomGuide)
  : CustomGuide * result unit :=
  match vals with
  | [] => (guide, Returned tt)
  | v :: rest =>
      assign_then (assign_color_item guide i v) guide (color_loop (S i) rest)
  end.

(** The body of the [for guide_data in data['custom_guides']] loop, applied
    to the guide just added. *)
Definition load_guide (guide_data : pyval) (guide : CustomGuide)
  : CustomGuide * result unit :=
  assign_then (let* v := item_get guide_data "position_x" (PFloat 0) in
               assign_position_x guide v) guide (fun guide =>
  assign_then (let* v := item_get guide_data "position_y" (PFloat 0) in
               assign_position_y guide v) guide (fun guide =>
  assign_then (let* v := item_get guide_data "rotation" (PFloat 0) in
               assign_rotation guide v) guide (fun guide =>
  assign_then (let* v := item_get guide_data "orientation" (PStr "HORIZONTAL") in
               assign_orientation guide v) guide (fun guide =>
  match guide_data with
  | PDict d =>
      if dict_has d "color" then
        match iterate (dict_get d "color" PNone) with
        | Returned vals => color_loop 0 vals guide
        | Raised e => (guide, Raised e)
        | OutOfFuel => (guide, OutOfFuel)
        end
      else (guide, Returned tt)
  | _ => (guide, Raised TypeError)
  end)))).

Fixpoint load_guides_loop (items : list pyval) (custom_guides : list CustomGuide)
  : list CustomGuide * result unit :=
  match items with
  | [] => (custom_guides, Returned tt)
  | guide_data :: rest =>
      match load_guide guide_data new_guide with
      | (guide, Returned _) => load_guides_loop rest (custom_guides ++ [guide])%list
      | (guide, Raised e) => ((custom_guides ++ [guide])%list, Raised e)
      | (guide, OutOfFuel) => ((custom_guides ++ [guide])%list, OutOfFuel)
      end
  end.

(** The part of [VSE_OT_load_preset.execute] and of
    [VSE_OT_import_preset.execute] that repopulates the guide collection. *)
Definition load_custom_guides (data : list (string * pyval))
    (custom_guides : list CustomGuide) : list CustomGuide * result unit :=
  if dict_has data "custom_guides" then
    match iterate (dict_get data "custom_guides" PNone) with
    | Returned items => load_guides_loop items []
    | Raised e => ([], Raised e)
    | OutOfFuel => ([], OutOfFuel)
    end
  else (custom_guides, Returned tt).

(** [VSE_OT_load_preset.execute] from the point where the file has been
    read into [data]: guide collection, settings and outcome. *)
Definition load_preset (preset_name : string) (data : list (string * pyval))
    (s : settings) (custom_guides : list CustomGuide)
  : settings * list CustomGuide * result operators.op_return :=
  match load_custom_guides data custom_guides with
  | (custom_guides, Returned _) =>
      let s := dict_to_settings data s in
      let s := fst (setattr s "active_preset" (PStr preset_name)) in
      (s, custom_guides, Returned operators.FINISHED)
  | (custom_guides, Raised e) => (s, custom_guides, Raised e)
  | (custom_guides, OutOfFuel) => (s, custom_guides, OutOfFuel)
  end.

(** [VSE_OT_import_preset.execute] from the same point. *)
Definition import_preset (data : list (string * pyval))
    (s : settings) (custom_guides : list CustomGuide)
  : settings * list CustomGuide * result operators.op_return :=
  match load_custom_guides data custom_guides with
  | (custom_guides, Returned _) =>
      let s := dict_to_settings data s in
      (s, custom_guides, Returned operators.FINISHED)
  | (custom_guides, Raised e) => (s, custom_guides, Raised e)
  | (custom_guides, OutOfFuel) => (s, custom_guides, OutOfFuel)
  end.

End presets.

(** ** Floats that are not finite

    Everywhere else in the model a float is a rational.  A Python float
    can also be an infinity or NaN, and Python's [json] module decodes the
    literals [Infinity], [-Infinity] and [NaN], which are not JSON, to
    such floats; a preset file, or the text written to
    [custom_guides_data], can therefore bring one to the add-on.  This
    module follows such a value through the statements that meet it
    first: the loop head of [deserialize_guides], and the assignments
    [guide.position_x = guide_data.get('position_x', 0.0)] of the two
    preset operators and of [deserialize_guides]. *)

Module nonfinite.

Import py properties.
Open Scope Q_scope.
Open Scope string_scope.

(** The floats that are not finite, named as [json] writes them. *)
Inductive special : Type := Infinity | NegInfinity | NaN.

(** A Python float. *)
Inductive pyfloat : Type :=
| Finite (q : Q)
| NotFinite (x : special).

(** [a < b] on floats: false as soon as one side is NaN. *)
Definition flt (a b : pyfloat) : bool :=
  match a, b with
  | NotFinite NaN, _ | _, NotFinite NaN => false
  | Finite x, Finite y => ltb x y
  | _, NotFinite NegInfinity => false
  | NotFinite NegInfinity, _ => true
  | NotFinite Infinity, _ => false
  | Finite _, NotFinite Infinity => true
  end.

(** [a <= b] on floats: false as soon as one side is NaN. *)
Definition fle (a b : pyfloat) : bool :=
  match a, b with
  | NotFinite NaN, _ | _, NotFinite NaN => false
  | Finite x, Finite y => negb (ltb y x)
  | NotFinite NegInfinity, _ => true
  | _, NotFinite Infinity => true
  | _, NotFinite NegInfinity => false
  | NotFinite Infinity, _ => false
  end.

(** What a float property declared with [min=lo] and [max=hi] holds after
    an assignment: the host sets a value below [lo] to [lo] and a value
    above [hi] to [hi], and keeps every other value.  NaN is neither
    below [lo] nor above [hi]. *)
Definition store_float (lo hi : Q) (v : pyfloat) : pyfloat :=
  if flt v (Finite lo) then Finite lo
  else if flt (Finite hi) v then Finite hi
  else v.

(** The component lies in [-1, 1]. *)
Definition in_range (x : pyfloat) : bool :=
  fle (Finite position_min) x && fle x (Finite position_max).

(** A decoded value: a value of the model, or a float that is not
    finite. *)
Inductive decoded : Type :=
| Value (v : pyval)
| Float (x : special).

(** The float that an assignment to a float property receives. *)
Definition to_pyfloat (v : decoded) : result pyfloat :=
  match v with
  | Value v => let* q := to_float v in Returned (Finite q)
  | Float x => Returned (NotFinite x)
  end.

(** [d.get(key, default)] on a decoded dictionary. *)
Fixpoint get (d : list (string * decoded)) (key : string) (default : decoded)
  : decoded :=
  match d with
  | [] => default
  | (k, v) :: rest => if String.eqb k key then v else get rest key default
  end.

(** [guide.position_x = guide_data.get('position_x', 0.0)], and the same
    for [position_y]: the float the field holds after the statement. *)
Definition loaded_position (guide_data : list (string * decoded)) (key : string)
  : result pyfloat :=
  let* v := to_pyfloat (get guide_data key (Value (PFloat 0))) in
  Returned (store_float position_min position_max v).

(** [for item in data]: a float is not iterable. *)
Definition iterate_decoded (data : decoded) : result (list pyval) :=
  match data with
  | Value v => iterate v
  | Float _ => Raised TypeError
  end.

(** [deserialize_guides(guides_collection, value)] with a decoder that
    may return a float that is not finite; [None] stands for a raised
    [ValueError], as in [deserialize_guides]. *)
Definition deserialize_guides_decoded (json_loads : string -> option decoded)
    (guides_collection : list CustomGuide) (value : string)
  : list CustomGuide * result unit :=
  if String.eqb value "" then (guides_collection, Returned tt)
  else
    match json_loads value with
    | None => (guides_collection, Returned tt)
    | Some data =>
        let guides_collection := @nil CustomGuide in
        match iterate_decoded data with
        | Returned items => deserialize_loop items guides_collection
        | Raised e => (guides_collection, Raised e)
        | OutOfFuel => (guides_collection, OutOfFuel)
        end
    end.

End nonfinite.

(** ** drawing.py: the overlay handlers *)

Module overlay.

Import py drawing properties operators.
Open Scope Q_scope.
Open Scope string_scope.

(** [int(x)] of a float: truncation towards zero. *)
Definition int (x : Q) : Z := if ltb x 0 then Qceiling x else Qfloor x.

(** [range(a, b)]. *)
Definition range_from (a b : Z) : list Z :=
  map (fun k : nat => (a + Z.of_nat k)%Z) (seq 0 (Z.to_nat (b - a))).

(** *** draw_composition_guides: [draw_lines] and the fixed constructions *)

(** The nested [draw_lines(lines, color)]: the vertices handed to the
    batch, in order.  [hide] is [settings.hide_guides_outside_frame] and
    [fuel] bounds the loop of [clip_line_to_rect]. *)
Fixpoint draw_lines (fuel : nat) (hide : bool) (frame : rect) (lines : list segment)
  : result (list Vector) :=
  match lines with
  | [] => Returned []
  | (line_start, line_end) :: rest =>
      if hide then
        let* clipped := clip_line_to_rect fuel line_start line_end frame in
        let* vertices := draw_lines fuel hide frame rest in
        Returned (match clipped with
                  | Some (a, b) => a :: b :: vertices
                  | None => vertices
                  end)
      else
        let* vertices := draw_lines fuel hide frame rest in
        Returned (line_start :: line_end :: vertices)
  end.

(** Rule of thirds. *)
Definition thirds_lines (frame : rect) : list segment :=
  let frame_x := rect_x frame in
  let frame_y := rect_y frame in
  let frame_width := rect_width frame in
  let frame_height := rect_height frame in
  let third_w := frame_width / 3 in
  let third_h := frame_height / 3 in
  [ (mkVector (frame_x + third_w) frame_y 0,
     mkVector (frame_x + third_w) (frame_y + frame_height) 0);
    (mkVector (frame_x + 2 * third_w) frame_y 0,
     mkVector (frame_x + 2 * third_w) (frame_y + frame_height) 0);
    (mkVector frame_x (frame_y + third_h) 0,
     mkVector (frame_x + frame_width) (frame_y + third_h) 0);
    (mkVector frame_x (frame_y + 2 * third_h) 0,
     mkVector (frame_x + frame_width) (frame_y + 2 * third_h) 0) ].

(** Golden ratio, with the constant [golden = 1.618]. *)
Definition golden : Q := 1618 # 1000.

Definition golden_lines (frame : rect) : list segment :=
  let frame_x := rect_x frame in
  let frame_y := rect_y frame in
  let frame_width := rect_width frame in
  let frame_height := rect_height frame in
  let golden_w := frame_width / golden in
  let golden_h := frame_height / golden in
  [ (mkVector (frame_x + golden_w) frame_y 0,
     mkVector (frame_x + golden_w) (frame_y + frame_height) 0);
    (mkVector (frame_x + frame_width - golden_w) frame_y 0,
     mkVector (frame_x + frame_width - golden_w) (frame_y + frame_height) 0);
    (mkVector frame_x (frame_y + golden_h) 0,
     mkVector (frame_x + frame_width) (frame_y + golden_h) 0);
    (mkVector frame_x (frame_y + frame_height - golden_h) 0,
     mkVector (frame_x + frame_width) (frame_y + frame_height - golden_h) 0) ].

(** The cross at the centre. *)
Definition center_lines (frame : rect) : list segment :=
  let frame_x := rect_x frame in
  let frame_y := rect_y frame in
  let frame_width := rect_width frame in
  let frame_height := rect_height frame in
  let center_x := frame_x + frame_width / 2 in
  let center_y := frame_y + frame_height / 2 in
  let cross_size := min frame_width frame_height * (5 # 100) in
  [ (mkVector (center_x - cross_size) center_y 0,
     mkVector (center_x + cross_size) center_y 0);
    (mkVector center_x (center_y - cross_size) 0,
     mkVector center_x (center_y + cross_size) 0) ].

(** The two diagonals. *)
Definition diagonals_lines (frame : rect) : list segment :=
  let frame_x := rect_x frame in
  let frame_y := rect_y frame in
  let frame_width := rect_width frame in
  let frame_height := rect_height frame in
  [ (mkVector frame_x frame_y 0,
     mkVector (frame_x + frame_width) (frame_y + frame_height) 0);
    (mkVector (frame_x + frame_width) frame_y 0,
     mkVector frame_x (frame_y + frame_height) 0) ].

(** Diagonal reciprocals. *)
Definition diagonal_reciprocals_lines (frame : rect) : list segment :=
  let frame_x := rect_x frame in
  let frame_y := rect_y frame in
  let frame_width := rect_width frame in
  let frame_height := rect_height frame in
  [ (mkVector frame_x frame_y 0,
     mkVector (frame_x + frame_width) (frame_y + frame_height) 0);
    (mkVector (frame_x + frame_width) frame_y 0,
     mkVector frame_x (frame_y + frame_height) 0);
    (mkVector frame_x (frame_y + frame_height) 0,
     mkVector (frame_x + frame_width / 2) frame_y 0);
    (mkVector (frame_x + frame_width / 2) (frame_y + frame_height) 0,
     mkVector (frame_x + frame_width) frame_y 0);
    (mkVector (frame_x + frame_width) (frame_y + frame_height) 0,
     mkVector (frame_x + frame_width / 2) frame_y 0);
    (mkVector (frame_x + frame_width / 2) (frame_y + frame_height) 0,
     mkVector frame_x frame_y 0);
    (mkVector frame_x (frame_y + frame_height / 2) 0,
     mkVector (frame_x + frame_width) (frame_y + frame_height) 0);
    (mkVector frame_x (frame_y + frame_height / 2) 0,
     mkVector (frame_x + frame_width) frame_y 0);
    (mkVector (frame_x + frame_width) (frame_y + frame_height / 2) 0,
     mkVector frame_x (frame_y + frame_height) 0);
    (mkVector (frame_x + frame_width) (frame_y + frame_height / 2) 0,
     mkVector frame_x frame_y 0) ].

(** *** draw_grid *)

(** The vertices [lines] that [draw_grid] hands to the batch, two per
    line; [divisions] is [settings.grid_divisions].  In the regular grid
    the division by [divisions] is only evaluated inside
    [range(1, divisions)], where [divisions] is at least 2. *)
Definition draw_grid (divisions : Z) (grid_square : bool) (frame : rect)
  : result (list Vector) :=
  let frame_x := rect_x frame in
  let frame_y := rect_y frame in
  let frame_width := rect_width frame in
  let frame_height := rect_height frame in
  if grid_square then
    let min_dimension := min frame_width frame_height in
    let* cell_size := div min_dimension (float divisions) in
    let* h_ratio := div frame_width cell_size in
    let h_cells := int h_ratio in
    let* v_ratio := div frame_height cell_size in
    let v_cells := int v_ratio in
    let h_offset := (frame_width - float h_cells * cell_size) / 2 in
    let v_offset := (frame_height - float v_cells * cell_size) / 2 in
    let grid_left := frame_x + h_offset in
    let grid_right := frame_x + h_offset + float h_cells * cell_size in
    let grid_bottom := frame_y + v_offset in
    let grid_top := frame_y + v_offset + float v_cells * cell_size in
    Returned
      ([ mkVector grid_left grid_bottom 0; mkVector grid_right grid_bottom 0;
         mkVector grid_right grid_bottom 0; mkVector grid_right grid_top 0;
         mkVector grid_right grid_top 0; mkVector grid_left grid_top 0;
         mkVector grid_left grid_top 0; mkVector grid_left grid_bottom 0 ]
       ++ flat_map (fun i : Z =>
            let x := grid_left + cell_size * float i in
            [mkVector x grid_bottom 0; mkVector x grid_top 0])
            (range_from 1 h_cells)
       ++ flat_map (fun i : Z =>
            let y := grid_bottom + cell_size * float i in
            [mkVector grid_left y 0; mkVector grid_right y 0])
            (range_from 1 v_cells))%list
  else
    Returned
      (flat_map (fun i : Z =>
         let x := frame_x + frame_width / float divisions * float i in
         [mkVector x frame_y 0; mkVector x (frame_y + frame_height) 0])
         (range_from 1 divisions)
       ++ flat_map (fun i : Z =>
         let y := frame_y + frame_height / float divisions * float i in
         [mkVector frame_x y 0; mkVector (frame_x + frame_width) y 0])
         (range_from 1 divisions))%list.

(** *** draw_custom_guides *)

Section CustomGuides.

Variable M : MathLib.






End CustomGuides.

(** *** draw_guides_view *)

(** The drawing functions [draw_guides_view] calls. *)
Inductive draw_call : Type :=
| draw_rulers_base | draw_grid_call | draw_composition_guides | draw_custom_guides_call.

(** The toggles listed in the first [any([...])], in source order. *)
Definition view_toggles : list string :=
  [ "show_thirds"; "show_golden"; "show_center"; "show_diagonals";
    "show_grid"; "show_custom_guides"; "show_golden_spiral";
    "show_golden_triangle"; "show_circular_thirds"; "show_radial_symmetry";
    "show_vanishing_point"; "show_diagonal_reciprocals";
    "show_harmony_triangles"; "show_diagonal_method"; "show_rulers" ].

(** The toggles listed in the [any([...])] that guards
    [draw_composition_guides]. *)
Definition composition_toggles : list string :=
  [ "show_thirds"; "show_golden"; "show_center"; "show_diagonals";
    "show_golden_spiral"; "show_golden_triangle"; "show_circular_thirds";
    "show_radial_symmetry"; "show_vanishing_point";
    "show_diagonal_reciprocals"; "show_harmony_triangles";
    "show_diagonal_method" ].

(** [any([settings.a, settings.b, ...])]: every attribute is read, then
    the truth values are combined. *)
Fixpoint read_all (s : settings) (props : list string) : result (list bool) :=
  match props with
  | [] => Returned []
  | prop :: rest =>
      let* b := attr_true s prop in
      let* bs := read_all s rest in
      Returned (b :: bs)
  end.

Definition any_of (s : settings) (props : list string) : result bool :=
  let* bs := read_all s props in Returned (existsb (fun b => b) bs).

(** [draw_guides_view]: the drawing functions it calls, in order, when
    each of them returns normally.  [in_preview] stands for the checks on
    the area, the space and the region; an exception raised while the
    settings are read is caught by the handler, and nothing is drawn. *)
Definition draw_guides_view (s : settings) (in_preview : bool) : list draw_call :=
  match
    (let* any_shown := any_of s view_toggles in
     if negb any_shown then Returned []
     else if negb in_preview then Returned []
     else
       let* rulers := attr_true s "show_rulers" in
       let* grid := attr_true s "show_grid" in
       let* composition := any_of s composition_toggles in
       let* custom := attr_true s "show_custom_guides" in
       Returned ((if rulers then [draw_rulers_base] else [])
                 ++ (if grid then [draw_grid_call] else [])
                 ++ (if composition then [draw_composition_guides] else [])
                 ++ (if custom then [draw_custom_guides_call] else []))%list)
  with
  | Returned calls => calls
  | _ => []
  end.

End overlay.

(** ** operators.py: reordering the guide list *)

Module list_operators.

Import py properties operators.
Open Scope Q_scope.
Open Scope string_scope.

(** [collection.move(key, pos)] of the host: the item at [key] is taken
    out and put back at [pos]; nothing happens when an index is out of
    range. *)
Definition collection_move {A : Type} (l : list A) (key pos : Z) : list A :=
  if ((0 <=? key) && (key <? Z.of_nat (length l)) &&
      (0 <=? pos) && (pos <? Z.of_nat (length l)))%Z
  then
    match l !! Z.to_nat key with
    | Some x =>
        let l' := delete (Z.to_nat key) l in
        (take (Z.to_nat pos) l' ++ x :: drop (Z.to_nat pos) l')%list
    | None => l
    end
  else l.

(** [settings.active_guide_index] read as an integer. *)
Definition active_guide_index (s : settings) : result Z :=
  let* v := getattr s "active_guide_index" in
  match v with
  | VInt z => Returned z
  | _ => Raised TypeError
  end.

(** [VSE_OT_move_guide_up.execute]. *)
Definition move_guide_up (s : settings) (custom_guides : list CustomGuide)
  : settings * list CustomGuide * result op_return :=
  match active_guide_index s with
  | Returned index =>
      if (0 <? index)%Z then
        let custom_guides := collection_move custom_guides index (index - 1) in
        match setattr s "active_guide_index" (PInt (index - 1)) with
        | (s, Returned _) => (s, custom_guides, Returned FINISHED)
        | (s, Raised e) => (s, custom_guides, Raised e)
        | (s, OutOfFuel) => (s, custom_guides, OutOfFuel)
        end
      else (s, custom_guides, Returned FINISHED)
  | Raised e => (s, custom_guides, Raised e)
  | OutOfFuel => (s, custom_guides, OutOfFuel)
  end.

(** [VSE_OT_move_guide_down.execute]. *)
Definition move_guide_down (s : settings) (custom_guides : list CustomGuide)
  : settings * list CustomGuide * result op_return :=
  match active_guide_index s with
  | Returned index =>
      if (index <? Z.of_nat (length custom_guides) - 1)%Z then
        let custom_guides := collection_move custom_guides index (index + 1) in
        match setattr s "active_guide_index" (PInt (index + 1)) with
        | (s, Returned _) => (s, custom_guides, Returned FINISHED)
        | (s, Raised e) => (s, custom_guides, Raised e)
        | (s, OutOfFuel) => (s, custom_guides, OutOfFuel)
        end
      else (s, custom_guides, Returned FINISHED)
  | Raised e => (s, custom_guides, Raised e)
  | OutOfFuel => (s, custom_guides, OutOfFuel)
  end.

End list_operators.

(** ** Saving: presets.py (generation 1) and serialize_guides (generation 2) *)

Module saving.

Import py properties presets.
Open Scope Q_scope.
Open Scope string_scope.

(** The value of [guide.orientation] read from Python. *)
Definition orientation_name (o : Orientation) : string :=
  match o with
  | HORIZONTAL => "HORIZONTAL"
  | VERTICAL => "VERTICAL"
  end.

(** [d[key] = value] on the items of a [dict]: an existing key keeps its
    place, a new one goes last. *)
Fixpoint dict_set (d : list (string * pyval)) (key : string) (value : pyval)
  : list (string * pyval) :=
  match d with
  | [] => [(key, value)]
  | (k, v) :: rest =>
      if String.eqb k key then (k, value) :: rest
      else (k, v) :: dict_set rest key value
  end.

(** The dictionary appended for one guide by the Save and Export
    operators of generation 1. *)
Definition guide_entry (guide : CustomGuide) : pyval :=
  PDict [ ("position_x", PFloat (position_x guide));
          ("position_y", PFloat (position_y guide));
          ("rotation", PFloat (rotation guide));
          ("orientation", PStr (orientation_name (orientation guide)));
          ("color", PList (map PFloat (color guide))) ].

(** The [data] that [VSE_OT_save_preset.execute] and
    [VSE_OT_export_preset.execute] write to the file. *)
Definition preset_data (s : settings) (custom_guides_list : list CustomGuide)
  : list (string * pyval) :=
  let data := settings_to_dict s in
  let custom_guides := map guide_entry custom_guides_list in
  dict_set data "custom_guides" (PList custom_guides).

(** The dictionary appended for one guide by [serialize_guides] of
    generation 2. *)
Definition serialize_item (guide : CustomGuide) : pyval :=
  PDict [ ("name", PStr (name guide));
          ("position_x", PFloat (position_x guide));
          ("position_y", PFloat (position_y guide));
          ("rotation", PFloat (rotation guide));
          ("orientation", PStr (orientation_name (orientation guide)));
          ("color", PList (map PFloat (color guide))) ].

(** [serialize_guides(guides_collection)]; [json_dumps] is [json.dumps]. *)
Definition serialize_guides (json_dumps : pyval -> string)
    (guides_collection : list CustomGuide) : string :=
  json_dumps (PList (map serialize_item guides_collection)).

End saving.

(** ** Vocabulary for the clipping specification *)

Module clipping.

Import py drawing.
Open Scope Q_scope.

(** The closed rectangle. *)
Definition inside (r : rect) (x y : Q) : Prop :=
  rect_x r <= x /\ x <= rect_x r + rect_width r /\
  rect_y r <= y /\ y <= rect_y r + rect_height r.

(** The four lines carrying the edges of the rectangle. *)
Definition on_edge_line (r : rect) (x y : Q) : Prop :=
  x == rect_x r \/ x == rect_x r + rect_width r \/
  y == rect_y r \/ y == rect_y r + rect_height r.

(** The point at parameter [t] between [a] and [b]. *)
Definition lerp (a b t : Q) : Q := a + t * (b - a).

(** Both end points lie beyond the same edge line. *)
Definition shared_outside (r : rect) (p1 p2 : Vector) : Prop :=
  (vx p1 < rect_x r /\ vx p2 < rect_x r) \/
  (rect_x r + rect_width r < vx p1 /\ rect_x r + rect_width r < vx p2) \/
  (vy p1 < rect_y r /\ vy p2 < rect_y r) \/
  (rect_y r + rect_height r < vy p1 /\ rect_y r + rect_height r < vy p2).

(** The returned vectors are built with a zero third component. *)
Definition flat (p : Vector) : Vector := mkVector (vx p) (vy p) 0.

(** What a result of [clip_line_to_rect] has to satisfy: a returned segment
    is exactly the part of the input segment that lies in the rectangle,
    and [None] is returned only when no point of the segment lies in it. *)
Definition clip_result_spec (r : rect) (p1 p2 : Vector) (res : option segment) : Prop :=
  match res with
  | Some (q1, q2) =>
      vz q1 = 0 /\ vz q2 = 0 /\
      exists t1 t2,
        0 <= t1 /\ t1 <= t2 /\ t2 <= 1 /\
        vx q1 == lerp (vx p1) (vx p2) t1 /\ vy q1 == lerp (vy p1) (vy p2) t1 /\
        vx q2 == lerp (vx p1) (vx p2) t2 /\ vy q2 == lerp (vy p1) (vy p2) t2 /\
        (forall t, 0 <= t -> t <= 1 ->
           (inside r (lerp (vx p1) (vx p2) t) (lerp (vy p1) (vy p2) t)
            <-> t1 <= t /\ t <= t2)) /\
        (~ inside r (vx p1) (vy p1) -> on_edge_line r (vx q1) (vy q1)) /\
        (~ inside r (vx p2) (vy p2) -> on_edge_line r (vx q2) (vy q2))
  | None =>
      forall t, 0 <= t -> t <= 1 ->
        ~ inside r (lerp (vx p1) (vx p2) t) (lerp (vy p1) (vy p2) t)
  end.

(** The frame of the specification's examples. *)
Definition frame_100 : rect := mkRect 0 0 100 100.

(** *** Proof vocabulary: loop invariant and termination measure *)

Definition b2n (b : bool) : nat := if b then 1 else 0.

(** Number of region flags set in an outcode. *)
Definition bits (c : Z) : nat :=
  (b2n (has_flag c TOP) + b2n (has_flag c BOTTOM) +
   b2n (has_flag c RIGHT) + b2n (has_flag c LEFT))%nat.

(** The loop variant: zero once the two codes share a flag. *)
Definition rank (s : clip_state) : nat :=
  if (Z.land (code1 s) (code2 s) =? 0)%Z
  then (bits (code1 s) + bits (code2 s))%nat else 0%nat.

(** The state the loop starts from. *)
Definition clip_start (r : rect) (p1 p2 : Vector) : clip_state :=
  mkClip (vx p1) (vy p1) (compute_code r (vx p1) (vy p1))
         (vx p2) (vy p2) (compute_code r (vx p2) (vy p2)).

(** The loop invariant: the current end points sit at parameters
    [t1 <= t2] of the input segment, the stored codes are those of the
    current end points, every point of the input segment inside the
    rectangle lies between them, and an end point that has moved lies on
    an edge line. *)
Record clip_inv (r : rect) (p1 p2 : Vector) (s : clip_state) (t1 t2 : Q) : Prop :=
  { inv_t1 : 0 <= t1;
    inv_t12 : t1 <= t2;
    inv_t2 : t2 <= 1;
    inv_x1 : x1 s == vx p1 + t1 * (vx p2 - vx p1);
    inv_y1 : y1 s == vy p1 + t1 * (vy p2 - vy p1);
    inv_x2 : x2 s == vx p1 + t2 * (vx p2 - vx p1);
    inv_y2 : y2 s == vy p1 + t2 * (vy p2 - vy p1);
    inv_c1 : code1 s = compute_code r (x1 s) (y1 s);
    inv_c2 : code2 s = compute_code r (x2 s) (y2 s);
    inv_complete : forall t, 0 <= t -> t <= 1 ->
      inside r (vx p1 + t * (vx p2 - vx p1)) (vy p1 + t * (vy p2 - vy p1)) ->
      t1 <= t /\ t <= t2;
    inv_end1 : (x1 s = vx p1 /\ y1 s = vy p1) \/ on_edge_line r (x1 s) (y1 s);
    inv_end2 : (x2 s = vx p2 /\ y2 s = vy p2) \/ on_edge_line r (x2 s) (y2 s) }.

End clipping.


(** ** Vocabulary for the ruler and spiral specifications *)

Module rulers.

Import py drawing.
Open Scope Q_scope.

(** An interval reaches the target spacing on screen. *)
Definition reaches_target (ppu : Q) (interval : Z) : Prop :=
  target_spacing_px <= float interval * ppu.

(** [i] is the smallest candidate that reaches the target spacing. *)
Definition smallest_candidate (ppu : Q) (i : Z) : Prop :=
  In i possible_intervals /\ reaches_target ppu i /\
  forall j, In j possible_intervals -> reaches_target ppu j -> (i <= j)%Z.

End rulers.

Module spiral.

Import py drawing.
Open Scope Q_scope.

(** The working rectangle [(lx, ly, lw, lh)]. *)
Definition work : Type := (Q * Q * Q * Q)%type.

(** Either remaining dimension is below one logical unit. *)
Definition too_small (w : work) : bool :=
  let '(_, _, lw, lh) := w in ltb lw 1 || ltb lh 1.

(** Carving the largest square off the working rectangle, on the side given
    by the phase [idx mod 4]: left, top, right, bottom. *)
Definition carve (idx : nat) (w : work) : work :=
  let '(lx, ly, lw, lh) := w in
  let side := min lw lh in
  match (idx mod 4)%nat with
  | 0%nat => (lx + side, ly, lw - side, lh)
  | 1%nat => (lx, ly, lw, lh - side)
  | 2%nat => (lx, ly, lw - side, lh)
  | _ => (lx, ly + side, lw, lh - side)
  end.

(** The working rectangle on entry to pass [k]. *)
Fixpoint work_rect (k : nat) : work :=
  match k with
  | O => (0, 0, gen_w, gen_h)
  | S k' => carve k' (work_rect k')
  end.

(** The quarter arc drawn in pass [idx] inside the square carved from [w]. *)
Definition arc_of (M : MathLib) (idx : nat) (w : work) : list Vector :=
  let '(lx, ly, lw, lh) := w in
  let side := min lw lh in
  match (idx mod 4)%nat with
  | 0%nat => arc_points M (lx + side) ly side (pi M) (pi M / 2)
  | 1%nat => arc_points M lx (ly + lh - side) side (pi M / 2) 0
  | 2%nat => arc_points M (lx + lw - side) (ly + lh) side 0 (- pi M / 2)
  | _ => arc_points M (lx + lw) (ly + side) side (- pi M / 2) (- pi M)
  end.

(** The carve boundary of pass [idx]. *)
Definition boundary_of (idx : nat) (w : work) : segment :=
  let '(lx, ly, lw, lh) := w in
  let side := min lw lh in
  match (idx mod 4)%nat with
  | 0%nat => (mkVector (lx + side) ly 0, mkVector (lx + side) (ly + lh) 0)
  | 1%nat => (mkVector lx (ly + lh - side) 0, mkVector (lx + lw) (ly + lh - side) 0)
  | 2%nat => (mkVector (lx + lw - side) ly 0, mkVector (lx + lw - side) (ly + lh) 0)
  | _ => (mkVector lx (ly + side) 0, mkVector (lx + lw) (ly + side) 0)
  end.

(** Number of passes completed when the loop starts at index [k] and has
    [m] indices left: it stops at the first index whose working rectangle
    is too small. *)
Fixpoint passes_from (k m : nat) : nat :=
  match m with
  | O => O
  | S m' => if too_small (work_rect k) then O else S (passes_from (S k) m')
  end.

(** The same sequence of rectangles with every component kept in lowest
    terms; equal to [work_rect] as rationals, and cheap to evaluate. *)
Definition reduce (w : work) : work :=
  let '(lx, ly, lw, lh) := w in (Qred lx, Qred ly, Qred lw, Qred lh).

Fixpoint work_red (k : nat) : work :=
  match k with
  | O => reduce (0, 0, gen_w, gen_h)
  | S k' => reduce (carve k' (work_red k'))
  end.

(** Componentwise equality of rationals. *)
Definition work_eq (w w' : work) : Prop :=
  let '(a, b, c, d) := w in
  let '(a', b', c', d') := w' in
  a == a' /\ b == b' /\ c == c' /\ d == d'.

Definition work_of (v : spiral_vars) : work := (lx v, ly v, lw v, lh v).

End spiral.

(** ** Vocabulary: guide positions *)
Module positions.

Import py drawing properties operators presets.
Open Scope Q_scope.

(** [max(-1, min(1, v))]. *)
Definition clamp_unit (v : Q) : Q := max (-1) (min 1 v).

(** Both position components lie in [-1, 1]. *)
Definition position_ok (g : CustomGuide) : Prop :=
  (-1 <= position_x g /\ position_x g <= 1) /\
  (-1 <= position_y g /\ position_y g <= 1).

(** The operations that change a guide-line collection: the modal drag
    handlers, drag-create, add, remove, clear, preset load and import
    (generation 1), the preset field of generation 2, and an edit of a
    position field in the panel. *)
Inductive mutation : list CustomGuide -> list CustomGuide -> Prop :=
| mut_move_modal (self : MoveOp) (event : Event) (gs : list CustomGuide) :
    mutation gs (fst (move_modal self gs event))
| mut_drag_invoke (render : RenderSettings) (region : Region) (ruler_size : Z)
    (event : Event) (gs : list CustomGuide) :
    mutation gs (fst (drag_invoke render region ruler_size gs event))
| mut_drag_modal (self : DragOp) (event : Event) (gs : list CustomGuide) :
    mutation gs (fst (drag_modal self gs event))
| mut_add (o : Orientation) (gs : list CustomGuide) :
    mutation gs (add_custom_guide o gs)
| mut_remove (index : Z) (gs : list CustomGuide) :
    mutation gs (remove_custom_guide index gs)
| mut_clear (gs : list CustomGuide) :
    mutation gs (clear_custom_guides gs)
| mut_load (data : list (string * pyval)) (gs : list CustomGuide) :
    mutation gs (fst (load_custom_guides data gs))
| mut_deserialize (json_loads : string -> option pyval) (value : string)
    (gs : list CustomGuide) :
    mutation gs (fst (deserialize_guides json_loads gs value))
| mut_edit_x (i : nat) (g : CustomGuide) (v : pyval) (g' : CustomGuide)
    (gs : list CustomGuide) :
    gs !! i = Some g -> assign_position_x g v = Returned g' ->
    mutation gs (<[i := g']> gs)
| mut_edit_y (i : nat) (g : CustomGuide) (v : pyval) (g' : CustomGuide)
    (gs : list CustomGuide) :
    gs !! i = Some g -> assign_position_y g v = Returned g' ->
    mutation gs (<[i := g']> gs).

(** A vertical guide is added and dragged to the pointer at x = 1900 on
    a frame that spans x = 100 .. 900: the offset is 3.5 half-widths. *)
Definition dragged_guides : list CustomGuide :=
  fst (move_modal (mkMoveOp 100 50 800 450 0 0 0 0)
         (add_custom_guide VERTICAL [])
         (mkEvent MOUSEMOVE OTHER_VALUE 1900 300)).

(** The collections that can arise from the empty one. *)
Inductive reachable : list CustomGuide -> Prop :=
| reach_empty : reachable []
| reach_step (gs gs' : list CustomGuide) :
    reachable gs -> mutation gs gs' -> reachable gs'.

(** Statements that keep the positions. *)
Definition keeps (P : CustomGuide -> Prop) (r : result CustomGuide) : Prop :=
  forall g', r = Returned g' -> P g'.

(** Predicates that look at the two position fields only. *)
Definition positional (P : CustomGuide -> Prop) : Prop :=
  forall g g', position_x g' = position_x g -> position_y g' = position_y g ->
               P g -> P g'.

Abbreviation all_ok := (List.Forall position_ok).

(** [g'] is [g] moved to the pointer of [event] in the frame: the
    component across the guide holds [max(-1, min(1, val))] for the
    offset [val] of the pointer from the centre in half-frames, and the
    other component is the one of [g]. *)
Definition moved_to (fx fy fw fh : Q) (event : Event) (g g' : CustomGuide) : Prop :=
  match orientation g with
  | HORIZONTAL =>
      exists val,
        div (float (mouse_region_y event) - (fy + fh / 2)) (fh / 2) = Returned val /\
        position_y g' = clamp_unit val /\ position_x g' = position_x g
  | VERTICAL =>
      exists val,
        div (float (mouse_region_x event) - (fx + fw / 2)) (fw / 2) = Returned val /\
        position_x g' = clamp_unit val /\ position_y g' = position_y g
  end.

(** [g] holds the positions of the entry [item] of a preset, clamped:
    [item] is a dictionary, and each component of [g] is
    [max(-1, min(1, v))] for the number [v] under its key, or for 0.0
    when the key is missing. *)
Definition loaded_from (item : pyval) (g : CustomGuide) : Prop :=
  exists d x y,
    item = PDict d /\
    to_float (dict_get d "position_x" (PFloat 0)) = Returned x /\
    to_float (dict_get d "position_y" (PFloat 0)) = Returned y /\
    position_x g = clamp_unit x /\ position_y g = clamp_unit y.

(** A preset entry for one guide whose [position_x] is NaN. *)
Definition nan_entry : list (string * nonfinite.decoded) :=
  [ ("position_x", nonfinite.Float nonfinite.NaN);
    ("position_y", nonfinite.Value (PFloat (1 # 4))) ].

(** The entries of a dictionary of the model as decoded values. *)
Definition decoded_entries (d : list (string * pyval))
  : list (string * nonfinite.decoded) :=
  map (fun kv => (fst kv, nonfinite.Value (snd kv))) d.

End positions.

(** ** Vocabulary: the toggle-all operator *)
Module toggling.

Import py properties operators.
Open Scope string_scope.

(** The toggle [p] reads as true in [s]. *)
Definition is_on (s : settings) (p : string) : bool :=
  match s !! p with
  | Some v => truthy v
  | None =>
      match declaration VSEGuidesSettings p with
      | Some d => truthy (default_value d)
      | None => false
      end
  end.

(** Settings with only [show_thirds] and [show_grid] on. *)
Definition thirds_and_grid : settings :=
  <[ "show_thirds" := VBool true ]>
    (<[ "show_grid" := VBool true ]>
       (<[ "show_custom_guides" := VBool false ]> ∅)).

(** No comma occurs in the string. *)
Fixpoint comma_free (s : string) : bool :=
  match s with
  | EmptyString => true
  | String c s' => negb (Ascii.eqb c ",") && comma_free s'
  end.

(** The settings with every toggle among [props] that is on switched off. *)
Definition switched_off (props : list string) (s : settings) : settings :=
  fold_left (fun s p => if is_on s p then <[p := VBool false]> s else s) props s.

(** The settings with every name in [l] switched on. *)
Definition switched_on (l : list string) (s : settings) : settings :=
  fold_left (fun s p => <[p := VBool true]> s) l s.

End toggling.

(** ** Vocabulary: preset application *)
Module preset_fields.

Import py properties presets.
Open Scope string_scope.

(** The declared settings fields that the allow-list leaves out. *)
Definition unsaved_fields : list string :=
  [ "golden_triangle_scale"; "golden_triangle_count"; "vanishing_point_lines";
    "show_vanishing_point_grid"; "vanishing_point_grid_count";
    "harmony_triangles_flip"; "diagonal_method_angle" ].

(** A preset file holding only [{"show_center": true}]. *)
Definition show_center_only : list (string * pyval) :=
  [("show_center", PBool true)].

(** A hand-edited preset that carries an entry for a field outside the
    allow-list. *)
Definition angle_entry : list (string * pyval) :=
  [("diagonal_method_angle", PFloat 30)].

(** Settings in which only [show_thirds] has been switched on. *)
Definition thirds_on : settings := {[ "show_thirds" := VBool true ]}.

(** A field is touched by a preset only when its name is a key of the data,
    is on the allow-list and names a declared property. *)
Definition touched (data : list (string * pyval)) (f : string) : Prop :=
  In f (map fst data) /\ in_preset_properties f = true /\ hasattr f = true.

End preset_fields.

(** ** Vocabulary: overlay and export geometry *)
Module export_compare.

Import py drawing operators.
Open Scope Q_scope.

(** The end point coordinates of an overlay segment, as [draw_line] takes them. *)
Definition seg_xy (s : segment) : line2 :=
  (vx (fst s), vy (fst s), vx (snd s), vy (snd s)).

(** Equality of two lines as rational numbers. *)
Definition line2_eq (a b : line2) : Prop :=
  let '(a1, a2, a3, a4) := a in
  let '(b1, b2, b3, b4) := b in
  a1 == b1 /\ a2 == b2 /\ a3 == b3 /\ a4 == b4.

(** The overlay and the export produce the same lines, in the same order. *)
Definition same_lines (overlay : list segment) (export : list line2) : Prop :=
  Forall2 line2_eq (map seg_xy overlay) export.

(** Two lines point the same way (or opposite ways): the cross product of
    their direction vectors vanishes.  Clipping a line to the frame keeps
    its direction. *)
Definition parallel (a b : line2) : Prop :=
  let '(a1, a2, a3, a4) := a in
  let '(b1, b2, b3, b4) := b in
  (a3 - a1) * (b4 - b2) == (a4 - a2) * (b3 - b1).

(** The frame rectangle of the full document resolution. *)
Definition full_frame (width height : Z) : rect :=
  mkRect 0 0 (float width) (float height).

(** The direction at a given angle has length one. *)
Definition unit_direction (M : MathLib) (angle : Q) : Prop :=
  cos M angle * cos M angle + sin M angle * sin M angle == 1.

(** A direction table for the examples: every angle maps to (3/5, 4/5). *)
Definition fixed_direction : MathLib :=
  mkMath (fun _ => 3 # 5) (fun _ => 4 # 5) (fun x => x) (355 # 113).

Definition default_settings : GuideSettings :=
  mkSettings false false false 8 true 0 1 1 (1 # 2) (1 # 2) 1 false 10 false 45.

Definition flipped_settings : GuideSettings :=
  mkSettings false false false 8 true 0 1 1 (1 # 2) (1 # 2) 1 false 10 true 45.

End export_compare.

(** ** Vocabulary: the frame rectangle of the drag operators *)
Module framing.

Import py drawing operators.
Open Scope Q_scope.

(** A region of 1000 x 600 pixels showing the preview unzoomed, with the
    origin of the view at the centre of the region. *)
Definition unzoomed_region : Region :=
  mkRegion 1000 600 (fun x y => ((Qfloor x + 500)%Z, (Qfloor y + 300)%Z)).

(** Full HD with anamorphic (2:1) pixels. *)
Definition anamorphic_render : RenderSettings := mkRender 1920 1080 100 2 1.

(** The transform of a region depends on the value of its arguments only. *)
Definition view_respects_eq (region : Region) : Prop :=
  forall x x' y y', x == x' -> y == y' ->
    view_to_region region x y = view_to_region region x' y'.

End framing.

(** ** Vocabulary: the serialized guide collection *)
Module serialization.

Import py properties.
Open Scope string_scope.

(** A decoder for the examples: it accepts the five literal documents
    below and rejects every other text, as [json.loads] does for text that
    is not JSON. *)
Definition json_loads_literals (text : string) : option pyval :=
  if String.eqb text "null" then Some PNone
  else if String.eqb text "true" then Some (PBool true)
  else if String.eqb text "false" then Some (PBool false)
  else if String.eqb text "[]" then Some (PList [])
  else if String.eqb text "{}" then Some (PDict [])
  else None.

(** A collection holding one guide line. *)
Definition one_guide : list CustomGuide :=
  [mkGuide "1" (3 # 10) 0 0 VERTICAL [0; 4 # 10; 1; 5 # 10]].

(** The same decoder, which also accepts the three literals that are not
    JSON but that [json.loads] decodes to floats. *)
Definition json_loads_lenient (text : string) : option nonfinite.decoded :=
  if String.eqb text "NaN" then Some (nonfinite.Float nonfinite.NaN)
  else if String.eqb text "Infinity" then Some (nonfinite.Float nonfinite.Infinity)
  else if String.eqb text "-Infinity" then Some (nonfinite.Float nonfinite.NegInfinity)
  else option_map nonfinite.Value (json_loads_literals text).

End serialization.

(** ** Vocabulary: the pointer operators *)
Module interaction.

Import py drawing properties operators positions.
Open Scope Q_scope.

(** The screen coordinate of a guide in a frame: where the hit test looks
    for it and where the overlay draws its pivot. *)
Definition guide_screen_x (f : rect) (g : CustomGuide) : Q :=
  rect_x f + rect_width f / 2 + position_x g * rect_width f / 2.

Definition guide_screen_y (f : rect) (g : CustomGuide) : Q :=
  rect_y f + rect_height f / 2 + position_y g * rect_height f / 2.

(** The distance the hit test measures between the pointer and a guide. *)
Definition hit_distance (f : rect) (mouse_x mouse_y : Z) (g : CustomGuide) : Q :=
  match orientation g with
  | HORIZONTAL => abs (float mouse_y - guide_screen_y f g)
  | VERTICAL => abs (float mouse_x - guide_screen_x f g)
  end.

(** The pointer lies within the extent of the frame along the guide. *)
Definition in_span (f : rect) (mouse_x mouse_y : Z) (g : CustomGuide) : bool :=
  match orientation g with
  | HORIZONTAL =>
      leb (rect_x f) (float mouse_x) && leb (float mouse_x) (rect_x f + rect_width f)
  | VERTICAL =>
      leb (rect_y f) (float mouse_y) && leb (float mouse_y) (rect_y f + rect_height f)
  end.

(** Two guides with the same name and orientation and equal numbers. *)
Definition guide_equiv (g g' : CustomGuide) : Prop :=
  name g = name g' /\ position_x g == position_x g' /\
  position_y g == position_y g' /\ rotation g == rotation g' /\
  orientation g = orientation g' /\ Forall2 Qeq (color g) (color g').


(** The same for the drag-from-ruler operator. *)
Fixpoint drag_modal_run (self : DragOp) (events : list Event)
    (custom_guides : list CustomGuide) : list CustomGuide * result op_return :=
  match events with
  | [] => (custom_guides, Returned RUNNING_MODAL)
  | event :: rest =>
      match drag_modal self custom_guides event with
      | (gs, Returned RUNNING_MODAL) => drag_modal_run self rest gs
      | out => out
      end
  end.

(** The event is a pointer motion. *)
Definition is_mousemove (event : Event) : Prop := type event = MOUSEMOVE.

(** The event cancels a modal operator. *)
Definition is_cancel (event : Event) : Prop :=
  type event = RIGHTMOUSE \/ type event = ESC.

(** What the hit-test loop has found after a stretch of the collection. *)
Definition found (f : rect) (mx my : Z) (i : nat) (guides : list CustomGuide)
    (h h' : hit) : Prop :=
  closest_distance h' <= closest_distance h /\
  (forall k g, guides !! k = Some g -> in_span f mx my g = true ->
     closest_distance h' <= hit_distance f mx my g) /\
  (h' = h \/
   exists k g, guides !! k = Some g /\
     h' = mkHit (Some (i + k)%nat) (hit_distance f mx my g) (Z.of_nat (i + k)) /\
     in_span f mx my g = true /\
     hit_distance f mx my g < closest_distance h).

End interaction.

(** ** Vocabulary: reordering the guide list *)
Module reordering.

Import interaction.
Import py properties operators list_operators.
Open Scope Q_scope.
Open Scope string_scope.

(** A list of three guides with the second one active. *)
Definition three_guides : list CustomGuide :=
  [ mkGuide "a" 0 0 0 VERTICAL [1; 0; 0; 1];
    mkGuide "b" (1 # 2) 0 0 VERTICAL [0; 1; 0; 1];
    mkGuide "c" 0 (1 # 2) 0 HORIZONTAL [0; 0; 1; 1] ].

Definition second_active : settings := <[ "active_guide_index" := VInt 1 ]> ∅.

End reordering.

(** ** Vocabulary: the defaults of toggle-all *)
Module toggle_defaults.

Import py properties operators toggling overlay.
Open Scope string_scope.

(** Settings in which the user has switched every guide off by hand. *)
Definition all_off : settings := {[ "show_custom_guides" := VBool false ]}.

(** The two guides the toggle-all operator falls back to. *)
Definition is_default_guide (p : string) : bool :=
  String.eqb p "show_thirds" || String.eqb p "show_custom_guides".

End toggle_defaults.

(** ** Vocabulary: lines in the frame *)
Module frame_lines.

Import interaction.
Import py drawing properties operators positions clipping overlay.
Open Scope Q_scope.

(** Both end points of a line lie in the frame, in the plane z = 0. *)
Definition within (frame : rect) (l : segment) : Prop :=
  inside frame (vx (fst l)) (vy (fst l)) /\ inside frame (vx (snd l)) (vy (snd l)) /\
  vz (fst l) = 0 /\ vz (snd l) = 0.

(** The lines of all batches of [draw_custom_guides]. *)
Definition all_lines (lines_by_color : list (list Q * list segment)) : list segment :=
  flat_map snd lines_by_color.



End frame_lines.

(** ** Vocabulary: vertices of the grid *)
Module grid_lines.

Import interaction.
Import py drawing properties operators clipping overlay.
Open Scope Q_scope.

(** A vertex of a batch lies in the frame, in the plane z = 0. *)
Definition vertex_within (frame : rect) (v : Vector) : Prop :=
  inside frame (vx v) (vy v) /\ vz v = 0.

End grid_lines.

(** ** Vocabulary: geometry shared by overlay and export *)
Module geometry.

Import py drawing operators clipping export_compare.
Open Scope Q_scope.

(** Two lines are at a right angle: the dot product of their direction
    vectors vanishes. *)
Definition perpendicular (a b : segment) : Prop :=
  (vx (snd a) - vx (fst a)) * (vx (snd b) - vx (fst b))
  + (vy (snd a) - vy (fst a)) * (vy (snd b) - vy (fst b)) == 0.

(** The point lies on the line, between its end points. *)
Definition on_segment (p : Vector) (l : segment) : Prop :=
  exists t, 0 <= t /\ t <= 1 /\
    vx p == lerp (vx (fst l)) (vx (snd l)) t /\
    vy p == lerp (vy (fst l)) (vy (snd l)) t.

(** The outcome of an overlay construction and of its export counterpart
    are the same: the same lines, or the same exception. *)
Definition same_outcome (overlay : result (list segment)) (export : result (list line2))
  : Prop :=
  match overlay, export with
  | Returned a, Returned b => same_lines a b
  | Raised e, Raised e' => e = e'
  | _, _ => False
  end.

(** Settings of the examples: a vanishing point off centre with its grid,
    two nested triangles turned by a third of a radian. *)
Definition perspective_settings : GuideSettings :=
  mkSettings false true false 5 true (1 # 3) (3 # 2) 2 (1 # 3) (1 # 4) 2 true 3 false 45.

(** The plane coordinates of a point. *)
Definition xy (p : Vector) : Q * Q := (vx p, vy p).

(** The working variables of the overlay's spiral loop, seen as those of
    the export's loop. *)
Definition export_view (v : spiral_vars) : export_spiral_vars :=
  mkExportSpiral (lx v) (ly v) (lw v) (lh v) (map xy (points v))
    (map (fun l : segment => (xy (fst l), xy (snd l))) (rect_lines v)).

End geometry.

(** ** Vocabulary: guides through a file *)
Module round_trip.

Import interaction.
Import py properties operators presets positions saving.
Open Scope Q_scope.
Open Scope string_scope.

(** A guide as the collection can hold it: both positions in [-1, 1] and
    a colour of four components in [0, 1]. *)
Definition storable (g : CustomGuide) : Prop :=
  position_ok g /\ length (color g) = 4%nat /\
  List.Forall (fun c => 0 <= c /\ c <= 1) (color g).

(** The guide a preset of generation 1 brings back: the preset does not
    hold the name, so the guide is called [Guide]. *)
Definition unnamed (g : CustomGuide) : CustomGuide := set_name g "Guide".

(** A codec for the examples: the encoder writes a fixed text for the
    guides of the example and the decoder reads that text back. *)
Definition example_guides : list CustomGuide :=
  [ mkGuide "left" (-(1 # 2)) 0 0 VERTICAL [1; 0; 0; 1];
    mkGuide "horizon" 0 (1 # 3) (1 # 10) HORIZONTAL [0; 4 # 10; 1; 5 # 10] ].

Definition example_dumps (d : pyval) : string := "[2 guides]".

Definition example_loads (text : string) : option pyval :=
  if String.eqb text "[2 guides]"
  then Some (PList (map serialize_item example_guides)) else None.

End round_trip.

(** ** Vocabulary: values the property system holds *)
Module typed_settings.

Import interaction toggle_defaults round_trip.
Import py properties operators presets positions saving.
Open Scope Q_scope.
Open Scope string_scope.

(** A value the property system can hold for a declaration: what some
    assignment to the property stores. *)
Definition storable_value (d : prop_decl) (v : propval) : Prop :=
  exists value : pyval, rna_assign d value = Returned v.

(** Every value assigned so far is one the property system can hold. *)
Definition well_typed (s : settings) : Prop :=
  map_Forall (fun prop_name v =>
    forall d, declaration VSEGuidesSettings prop_name = Some d ->
              storable_value d v) s.

End typed_settings.

(* ===================================================================== *)
(** * Part II: properties                                                 *)
(* ===================================================================== *)

(** ** Facts about the Python-level helpers *)

Section PyFacts.

Import py.
Open Scope Q_scope.

Lemma ltb_lt (x y : Q) : ltb x y = true <-> x < y.
Proof.
  unfold ltb. rewrite Qlt_alt.
  destruct (x ?= y); split; congruence.
Qed.

Lemma ltb_ge (x y : Q) : ltb x y = false <-> y <= x.
Proof.
  split; intros H.
  - apply Qnot_lt_le. intros Hlt. apply ltb_lt in Hlt. congruence.
  - destruct (ltb x y) eqn:E; [|reflexivity].
    apply ltb_lt in E. lra.
Qed.

Lemma is_zero_true (x : Q) : is_zero x = true <-> x == 0.
Proof. unfold is_zero. apply Qeq_bool_iff. Qed.

Lemma is_zero_false (x : Q) : is_zero x = false <-> ~ x == 0.
Proof.
  rewrite <- is_zero_true. destruct (is_zero x); split; congruence.
Qed.

Lemma div_nonzero (a b : Q) : ~ b == 0 -> div a b = Returned (a / b).
Proof.
  intros H. unfold div. apply is_zero_false in H. rewrite H. reflexivity.
Qed.

End PyFacts.

(** ** C1: Cohen-Sutherland clipping *)

Ltac split_ltb :=
  repeat match goal with
  | |- context [py.ltb ?a ?b] =>
      let E := fresh "E" in
      destruct (py.ltb a b) eqn:E;
      [apply ltb_lt in E | apply ltb_ge in E]; try (exfalso; lra)
  end.

Ltac ltb_hyp H :=
  repeat match type of H with
  | context [py.ltb ?a ?b] =>
      let E := fresh "E" in
      destruct (py.ltb a b) eqn:E;
      [apply ltb_lt in E | apply ltb_ge in E]; try (exfalso; lra)
  end.

(** *** Cutting an affine segment at a coordinate value *)

Section Cut.

Open Scope Q_scope.

Variables (X1 Y1 DX DY t1 t2 xa ya xb yb m : Q).
Hypothesis Ht12 : t1 <= t2.
Hypothesis Hxa : xa == X1 + t1 * DX.
Hypothesis Hya : ya == Y1 + t1 * DY.
Hypothesis Hxb : xb == X1 + t2 * DX.
Hypothesis Hyb : yb == Y1 + t2 * DY.
Hypothesis Hne : ~ yb - ya == 0.
Hypothesis Hbetween : (ya <= m /\ m <= yb) \/ (yb <= m /\ m <= ya).

Let sigma := (m - ya) / (yb - ya).
Let u := t1 + sigma * (t2 - t1).

Lemma sigma_mul : sigma * (yb - ya) == m - ya.
Proof. unfold sigma. field. exact Hne. Qed.

Lemma sigma_range : 0 <= sigma /\ sigma <= 1.
Proof.
  pose proof sigma_mul as E.
  destruct Hbetween as [[H1 H2]|[H1 H2]]; split; nra.
Qed.

Lemma cut_u_range : t1 <= u /\ u <= t2.
Proof.
  destruct sigma_range. unfold u. split; nra.
Qed.

Lemma cut_x : xa + ((xb - xa) * (m - ya)) / (yb - ya) == X1 + u * DX.
Proof.
  assert (E : ((xb - xa) * (m - ya)) / (yb - ya) == (xb - xa) * sigma).
  { unfold sigma. field. exact Hne. }
  rewrite E. unfold u. rewrite Hxa, Hxb. ring.
Qed.

Lemma cut_y : m == Y1 + u * DY.
Proof.
  assert (E : m == ya + sigma * (yb - ya)).
  { rewrite sigma_mul. ring. }
  rewrite E. unfold u. rewrite Hya, Hyb. ring.
Qed.

Lemma cut_lo_above (t : Q) : m < ya -> t1 <= t -> Y1 + t * DY <= m -> u <= t.
Proof.
  intros Hout Ht Hin. pose proof cut_y as Ey. pose proof cut_u_range as [Hu1 Hu2].
  assert (Hd : DY < 0) by nra.
  nra.
Qed.

Lemma cut_lo_below (t : Q) : ya < m -> t1 <= t -> m <= Y1 + t * DY -> u <= t.
Proof.
  intros Hout Ht Hin. pose proof cut_y as Ey. pose proof cut_u_range as [Hu1 Hu2].
  assert (Hd : 0 < DY) by nra.
  nra.
Qed.

Lemma cut_hi_above (t : Q) : m < yb -> t <= t2 -> Y1 + t * DY <= m -> t <= u.
Proof.
  intros Hout Ht Hin. pose proof cut_y as Ey. pose proof cut_u_range as [Hu1 Hu2].
  assert (Hd : 0 < DY) by nra.
  nra.
Qed.

Lemma cut_hi_below (t : Q) : yb < m -> t <= t2 -> m <= Y1 + t * DY -> t <= u.
Proof.
  intros Hout Ht Hin. pose proof cut_y as Ey. pose proof cut_u_range as [Hu1 Hu2].
  assert (Hd : DY < 0) by nra.
  nra.
Qed.

(** The other coordinate of the cut point stays between those of the ends. *)
Lemma cut_x_between :
  let x := xa + ((xb - xa) * (m - ya)) / (yb - ya) in
  (xa <= x /\ x <= xb) \/ (xb <= x /\ x <= xa).
Proof.
  intros x.
  assert (E : x == xa + sigma * (xb - xa)).
  { unfold x, sigma. field. exact Hne. }
  destruct sigma_range as [H0 H1].
  destruct (Qlt_le_dec xa xb); [left|right]; split; nra.
Qed.
End Cut.

Section ClipProofs.

Import py drawing clipping.
Open Scope Q_scope.

Section ClipFacts.
Variable r : rect.
Hypothesis Hw : 0 <= rect_width r.
Hypothesis Hh : 0 <= rect_height r.

Ltac case_codes :=
  unfold compute_code, has_flag, INSIDE, LEFT, RIGHT, BOTTOM, TOP;
  repeat match goal with
  | |- context [ltb ?a ?b] =>
      let E := fresh "E" in destruct (ltb a b) eqn:E;
      [apply ltb_lt in E | apply ltb_ge in E]
  end.

Lemma flag_top x y :
  has_flag (compute_code r x y) TOP = ltb (rect_y r + rect_height r) y.
Proof.
  destruct (ltb (rect_y r + rect_height r) y) eqn:E0;
  [apply ltb_lt in E0 | apply ltb_ge in E0]; case_codes; try reflexivity; lra.
Qed.

Lemma flag_bottom x y :
  has_flag (compute_code r x y) BOTTOM = ltb y (rect_y r).
Proof.
  destruct (ltb y (rect_y r)) eqn:E0;
  [apply ltb_lt in E0 | apply ltb_ge in E0]; case_codes; try reflexivity; lra.
Qed.

Lemma flag_right x y :
  has_flag (compute_code r x y) RIGHT = ltb (rect_x r + rect_width r) x.
Proof.
  destruct (ltb (rect_x r + rect_width r) x) eqn:E0;
  [apply ltb_lt in E0 | apply ltb_ge in E0]; case_codes; try reflexivity; lra.
Qed.

Lemma flag_left x y :
  has_flag (compute_code r x y) LEFT = ltb x (rect_x r).
Proof.
  destruct (ltb x (rect_x r)) eqn:E0;
  [apply ltb_lt in E0 | apply ltb_ge in E0]; case_codes; try reflexivity; lra.
Qed.

End ClipFacts.

(** Facts on the codes that hold for every rectangle. *)
Lemma code_zero_flags r x y :
  (compute_code r x y =? 0)%Z =
  negb (has_flag (compute_code r x y) TOP || has_flag (compute_code r x y) BOTTOM
        || has_flag (compute_code r x y) RIGHT || has_flag (compute_code r x y) LEFT).
Proof.
  unfold compute_code, has_flag, INSIDE, LEFT, RIGHT, BOTTOM, TOP.
  destruct (ltb x (rect_x r)), (ltb (rect_x r + rect_width r) x),
    (ltb y (rect_y r)), (ltb (rect_y r + rect_height r) y); reflexivity.
Qed.

Lemma land_zero_flags r x y x' y' :
  (Z.land (compute_code r x y) (compute_code r x' y') =? 0)%Z =
  negb ((has_flag (compute_code r x y) TOP && has_flag (compute_code r x' y') TOP)
     || (has_flag (compute_code r x y) BOTTOM && has_flag (compute_code r x' y') BOTTOM)
     || (has_flag (compute_code r x y) RIGHT && has_flag (compute_code r x' y') RIGHT)
     || (has_flag (compute_code r x y) LEFT && has_flag (compute_code r x' y') LEFT)).
Proof.
  unfold compute_code, has_flag, INSIDE, LEFT, RIGHT, BOTTOM, TOP.
  destruct (ltb x (rect_x r)), (ltb (rect_x r + rect_width r) x),
    (ltb y (rect_y r)), (ltb (rect_y r + rect_height r) y),
    (ltb x' (rect_x r)), (ltb (rect_x r + rect_width r) x'),
    (ltb y' (rect_y r)), (ltb (rect_y r + rect_height r) y'); reflexivity.
Qed.

Lemma code_zero_inside r x y :
  compute_code r x y = 0%Z <-> inside r x y.
Proof.
  unfold inside, compute_code, INSIDE, LEFT, RIGHT, BOTTOM, TOP.
  destruct (ltb x (rect_x r)) eqn:E1, (ltb (rect_x r + rect_width r) x) eqn:E2,
    (ltb y (rect_y r)) eqn:E3, (ltb (rect_y r + rect_height r) y) eqn:E4;
  try apply ltb_lt in E1; try apply ltb_ge in E1;
  try apply ltb_lt in E2; try apply ltb_ge in E2;
  try apply ltb_lt in E3; try apply ltb_ge in E3;
  try apply ltb_lt in E4; try apply ltb_ge in E4;
  cbn; split; intros H; try discriminate; try lra; try reflexivity.
Qed.

Section ClipStep.
Variable r : rect.
Hypothesis Hw : 0 <= rect_width r.
Hypothesis Hh : 0 <= rect_height r.
Variables p1 p2 : Vector.

Lemma bits_le_4 x y x' y' :
  (Z.land (compute_code r x y) (compute_code r x' y') =? 0)%Z = true ->
  (bits (compute_code r x y) + bits (compute_code r x' y') <= 4)%nat.
Proof.
  unfold bits, compute_code, has_flag, INSIDE, LEFT, RIGHT, BOTTOM, TOP.
  destruct (ltb x (rect_x r)), (ltb (rect_x r + rect_width r) x),
    (ltb y (rect_y r)), (ltb (rect_y r + rect_height r) y),
    (ltb x' (rect_x r)), (ltb (rect_x r + rect_width r) x'),
    (ltb y' (rect_y r)), (ltb (rect_y r + rect_height r) y'); vm_compute; intros; try lia; congruence.
Qed.


(* the cut along the y axis (TOP or BOTTOM boundary at height m) *)
Ltac cut_y_axis s t1 t2 m Ht12 Hx1 Hy1 Hx2 Hy2 Hcomp Eland Hc1 Hc2 first_out :=
  let Hne := fresh "Hne" in let Hbt := fresh "Hbt" in
  assert (Hne : ~ y2 s - y1 s == 0) by lra;
  assert (Hbt : (y1 s <= m /\ m <= y2 s) \/ (y2 s <= m /\ m <= y1 s)) by lra;
  rewrite div_nonzero by exact Hne;
  pose proof (cut_u_range _ _ t1 t2 _ _ m Ht12 Hy1 Hy2 Hne Hbt) as [? ?];
  pose proof (cut_x _ _ _ _ _ _ _ _ m Hx1 Hx2 Hne);
  pose proof (cut_y _ _ _ _ _ _ m Hy1 Hy2 Hne);
  pose proof (cut_x_between _ _ _ _ (x1 s) _ (x2 s) _ m Hy1 Hy2 Hne Hbt) as Hbx;
  cbv zeta in Hbx;
  pose proof (cut_lo_above _ _ t1 t2 _ _ m Ht12 Hy1 Hy2 Hne Hbt) as Hla;
  pose proof (cut_lo_below _ _ t1 t2 _ _ m Ht12 Hy1 Hy2 Hne Hbt) as Hlb;
  pose proof (cut_hi_above _ _ t1 t2 _ _ m Ht12 Hy1 Hy2 Hne Hbt) as Hha;
  pose proof (cut_hi_below _ _ t1 t2 _ _ m Ht12 Hy1 Hy2 Hne Hbt) as Hhb;
  set (u := t1 + (m - y1 s) / (y2 s - y1 s) * (t2 - t1)) in *;
  set (x := x1 s + (x2 s - x1 s) * (m - y1 s) / (y2 s - y1 s)) in *;
  first_out u.

Ltac cut_x_axis s t1 t2 m Ht12 Hx1 Hy1 Hx2 Hy2 Hcomp Eland Hc1 Hc2 first_out :=
  let Hne := fresh "Hne" in let Hbt := fresh "Hbt" in
  assert (Hne : ~ x2 s - x1 s == 0) by lra;
  assert (Hbt : (x1 s <= m /\ m <= x2 s) \/ (x2 s <= m /\ m <= x1 s)) by lra;
  rewrite div_nonzero by exact Hne;
  pose proof (cut_u_range _ _ t1 t2 _ _ m Ht12 Hx1 Hx2 Hne Hbt) as [? ?];
  pose proof (cut_x _ _ _ _ _ _ _ _ m Hy1 Hy2 Hne);
  pose proof (cut_y _ _ _ _ _ _ m Hx1 Hx2 Hne);
  pose proof (cut_x_between _ _ _ _ (y1 s) _ (y2 s) _ m Hx1 Hx2 Hne Hbt) as Hbx;
  cbv zeta in Hbx;
  pose proof (cut_lo_above _ _ t1 t2 _ _ m Ht12 Hx1 Hx2 Hne Hbt) as Hla;
  pose proof (cut_lo_below _ _ t1 t2 _ _ m Ht12 Hx1 Hx2 Hne Hbt) as Hlb;
  pose proof (cut_hi_above _ _ t1 t2 _ _ m Ht12 Hx1 Hx2 Hne Hbt) as Hha;
  pose proof (cut_hi_below _ _ t1 t2 _ _ m Ht12 Hx1 Hx2 Hne Hbt) as Hhb;
  set (u := t1 + (m - x1 s) / (x2 s - x1 s) * (t2 - t1)) in *;
  set (y := y1 s + (y2 s - y1 s) * (m - x1 s) / (x2 s - x1 s)) in *;
  first_out u.


Ltac edge_line :=
  unfold on_edge_line;
  first [ left; reflexivity
        | right; left; reflexivity
        | right; right; left; reflexivity
        | right; right; right; reflexivity ].

Ltac finish_cut Hla Hlb Hha Hhb Hrank Hc1 Hc2 Hw Hh :=
  cbn [x1 y1 x2 y2 code1 code2];
  try assumption; try lra; try reflexivity;
  try (intros t ? ? (? & ? & ? & ?) ? ?; split;
       first [ assumption
             | apply Hla; lra | apply Hlb; lra
             | apply Hha; lra | apply Hhb; lra ]);
  try (right; edge_line);
  try (rewrite Hrank; unfold rank; cbn [code1 code2]; rewrite ?Hc1, ?Hc2;
       rewrite land_zero_flags; unfold bits;
       rewrite !flag_top, !flag_bottom, !flag_right, !flag_left by assumption;
       split_ltb; cbn; lia).

Lemma clip_step_inv s t1 t2 :
  clip_inv r p1 p2 s t1 t2 ->
  match clip_step r s with
  | Break _ => True
  | Again s' => exists t1' t2', clip_inv r p1 p2 s' t1' t2' /\ (rank s' < rank s)%nat
  | Throws _ => False
  end.
Proof.
  intros [Ht1 Ht12 Ht2 Hx1 Hy1 Hx2 Hy2 Hc1 Hc2 Hcomp He1 He2].
  unfold clip_step.
  destruct ((code1 s =? 0)%Z && (code2 s =? 0)%Z) eqn:Ezz; [exact I|].
  destruct (Z.land (code1 s) (code2 s) =? 0)%Z eqn:Eland; [|exact I].
  cbn [negb].
  pose proof Eland as Eland'. pose proof Ezz as Ezz'.
  rewrite Hc1, Hc2 in Eland'. rewrite land_zero_flags in Eland'.
  rewrite Hc1, Hc2 in Ezz'. rewrite !code_zero_flags in Ezz'.
  rewrite !flag_top, !flag_bottom, !flag_right, !flag_left in Eland', Ezz' by assumption.
  assert (Hfin : forall s' t1' t2',
    0 <= t1' -> t1' <= t2' -> t2' <= 1 ->
    x1 s' == vx p1 + t1' * (vx p2 - vx p1) ->
    y1 s' == vy p1 + t1' * (vy p2 - vy p1) ->
    x2 s' == vx p1 + t2' * (vx p2 - vx p1) ->
    y2 s' == vy p1 + t2' * (vy p2 - vy p1) ->
    code1 s' = compute_code r (x1 s') (y1 s') ->
    code2 s' = compute_code r (x2 s') (y2 s') ->
    (forall t, 0 <= t -> t <= 1 ->
      inside r (vx p1 + t * (vx p2 - vx p1)) (vy p1 + t * (vy p2 - vy p1)) ->
      t1 <= t -> t <= t2 -> t1' <= t /\ t <= t2') ->
    ((x1 s' = vx p1 /\ y1 s' = vy p1) \/ on_edge_line r (x1 s') (y1 s')) ->
    ((x2 s' = vx p2 /\ y2 s' = vy p2) \/ on_edge_line r (x2 s') (y2 s')) ->
    (rank s' < rank s)%nat ->
    exists t1' t2', clip_inv r p1 p2 s' t1' t2' /\ (rank s' < rank s)%nat).
  { intros s' t1' t2' ? ? ? ? ? ? ? ? ? Hc' ? ? ?. exists t1', t2'. split; [|assumption].
    constructor; try assumption.
    intros t Ht0 Ht1' Hin. destruct (Hcomp t Ht0 Ht1' Hin). apply Hc'; assumption. }
  assert (Hrank : rank s = (bits (code1 s) + bits (code2 s))%nat).
  { unfold rank. rewrite Eland. reflexivity. }
  destruct (code1 s =? 0)%Z eqn:Ec1; cbn [negb].
  - (* only the second end point is outside *)
    cbn [andb] in Ezz.
    assert (Ene : (code2 s =? code1 s)%Z = false).
    { apply Z.eqb_eq in Ec1. rewrite Ec1. exact Ezz. }
    rewrite Ene.
    unfold intersection. rewrite Hc2.
    rewrite !flag_top, !flag_bottom, !flag_right, !flag_left by assumption.
    destruct (ltb (rect_y r + rect_height r) (y2 s)) eqn:T2;
      [|destruct (ltb (y2 s) (rect_y r)) eqn:B2;
        [|destruct (ltb (rect_x r + rect_width r) (x2 s)) eqn:R2;
          [|destruct (ltb (x2 s) (rect_x r)) eqn:L2]]].
    + apply ltb_lt in T2. ltb_hyp Eland'.
      all: cut_y_axis s t1 t2 (rect_y r + rect_height r) Ht12 Hx1 Hy1 Hx2 Hy2 Hcomp Eland Hc1 Hc2
        ltac:(fun u => apply (Hfin (mkClip _ _ _ _ _ _) t1 u)).
      all: finish_cut Hla Hlb Hha Hhb Hrank Hc1 Hc2 Hw Hh.
    + apply ltb_lt in B2. ltb_hyp Eland'.
      all: cut_y_axis s t1 t2 (rect_y r) Ht12 Hx1 Hy1 Hx2 Hy2 Hcomp Eland Hc1 Hc2
        ltac:(fun u => apply (Hfin (mkClip _ _ _ _ _ _) t1 u)).
      all: finish_cut Hla Hlb Hha Hhb Hrank Hc1 Hc2 Hw Hh.
    + apply ltb_lt in R2. ltb_hyp Eland'.
      all: cut_x_axis s t1 t2 (rect_x r + rect_width r) Ht12 Hx1 Hy1 Hx2 Hy2 Hcomp Eland Hc1 Hc2
        ltac:(fun u => apply (Hfin (mkClip _ _ _ _ _ _) t1 u)).
      all: finish_cut Hla Hlb Hha Hhb Hrank Hc1 Hc2 Hw Hh.
    + apply ltb_lt in L2. ltb_hyp Eland'.
      all: cut_x_axis s t1 t2 (rect_x r) Ht12 Hx1 Hy1 Hx2 Hy2 Hcomp Eland Hc1 Hc2
        ltac:(fun u => apply (Hfin (mkClip _ _ _ _ _ _) t1 u)).
      all: finish_cut Hla Hlb Hha Hhb Hrank Hc1 Hc2 Hw Hh.
    + exfalso. rewrite Hc1 in Ec1. rewrite code_zero_flags in Ec1.
      rewrite !flag_top, !flag_bottom, !flag_right, !flag_left in Ec1 by assumption.
      rewrite Ec1 in Ezz'. cbn in Ezz'. discriminate.
  - rewrite Z.eqb_refl.
    unfold intersection. rewrite Hc1.
    rewrite !flag_top, !flag_bottom, !flag_right, !flag_left by assumption.
    destruct (ltb (rect_y r + rect_height r) (y1 s)) eqn:T1;
      [|destruct (ltb (y1 s) (rect_y r)) eqn:B1;
        [|destruct (ltb (rect_x r + rect_width r) (x1 s)) eqn:R1;
          [|destruct (ltb (x1 s) (rect_x r)) eqn:L1]]].
    + apply ltb_lt in T1. ltb_hyp Eland'.
      all: cut_y_axis s t1 t2 (rect_y r + rect_height r) Ht12 Hx1 Hy1 Hx2 Hy2 Hcomp Eland Hc1 Hc2
        ltac:(fun u => apply (Hfin (mkClip _ _ _ _ _ _) u t2)).
      all: finish_cut Hla Hlb Hha Hhb Hrank Hc1 Hc2 Hw Hh.
    + apply ltb_lt in B1. ltb_hyp Eland'.
      all: cut_y_axis s t1 t2 (rect_y r) Ht12 Hx1 Hy1 Hx2 Hy2 Hcomp Eland Hc1 Hc2
        ltac:(fun u => apply (Hfin (mkClip _ _ _ _ _ _) u t2)).
      all: finish_cut Hla Hlb Hha Hhb Hrank Hc1 Hc2 Hw Hh.
    + apply ltb_lt in R1. ltb_hyp Eland'.
      all: cut_x_axis s t1 t2 (rect_x r + rect_width r) Ht12 Hx1 Hy1 Hx2 Hy2 Hcomp Eland Hc1 Hc2
        ltac:(fun u => apply (Hfin (mkClip _ _ _ _ _ _) u t2)).
      all: finish_cut Hla Hlb Hha Hhb Hrank Hc1 Hc2 Hw Hh.
    + apply ltb_lt in L1. ltb_hyp Eland'.
      all: cut_x_axis s t1 t2 (rect_x r) Ht12 Hx1 Hy1 Hx2 Hy2 Hcomp Eland Hc1 Hc2
        ltac:(fun u => apply (Hfin (mkClip _ _ _ _ _ _) u t2)).
      all: finish_cut Hla Hlb Hha Hhb Hrank Hc1 Hc2 Hw Hh.
    + exfalso. rewrite Hc1 in Ec1. rewrite code_zero_flags in Ec1.
      rewrite !flag_top, !flag_bottom, !flag_right, !flag_left in Ec1 by assumption.
      rewrite T1, B1, R1, L1 in Ec1. discriminate.
Qed.
End ClipStep.

Section ClipLoop.
Variable r : rect.
Hypothesis Hw : 0 <= rect_width r.
Hypothesis Hh : 0 <= rect_height r.
Variables p1 p2 : Vector.

Lemma clip_inv_start : clip_inv r p1 p2 (clip_start r p1 p2) 0 1.
Proof.
  constructor; cbn; try lra; try reflexivity; try ring.
  - intros; split; assumption.
  - left; split; reflexivity.
  - left; split; reflexivity.
Qed.

Lemma rank_le_4 s t1 t2 : clip_inv r p1 p2 s t1 t2 -> (rank s <= 4)%nat.
Proof.
  intros H. unfold rank.
  destruct (Z.land (code1 s) (code2 s) =? 0)%Z eqn:E; [|lia].
  rewrite (inv_c1 _ _ _ _ _ _ H), (inv_c2 _ _ _ _ _ _ H) in *.
  apply bits_le_4. exact E.
Qed.

Lemma clip_loop_run n : forall s t1 t2,
  clip_inv r p1 p2 s t1 t2 -> (rank s < n)%nat ->
  exists acc sf t1' t2',
    clip_loop n r s = Returned (acc, sf) /\
    clip_inv r p1 p2 sf t1' t2' /\ clip_step r sf = Break acc.
Proof.
  induction n as [|n IH]; intros s t1 t2 Hinv Hrank; [lia|].
  pose proof (clip_step_inv r Hw Hh p1 p2 s t1 t2 Hinv) as Hstep.
  cbn [clip_loop].
  destruct (clip_step r s) as [acc|s'|e] eqn:E.
  - exists acc, s, t1, t2. auto.
  - destruct Hstep as (t1' & t2' & Hinv' & Hlt).
    apply (IH s' t1' t2' Hinv'). lia.
  - contradiction.
Qed.

Lemma break_true s :
  clip_step r s = Break true -> code1 s = 0%Z /\ code2 s = 0%Z.
Proof.
  unfold clip_step.
  destruct (code1 s =? 0)%Z eqn:E1, (code2 s =? 0)%Z eqn:E2; cbn [andb];
    try (intros _; split; apply Z.eqb_eq; assumption).
  all: destruct (negb (Z.land (code1 s) (code2 s) =? 0)%Z); try discriminate.
  all: match goal with
       | |- context [intersection ?a ?b ?c] => destruct (intersection a b c) as [[? ?]| |]
       end; try discriminate.
  all: match goal with
       | |- context [if ?b then _ else _] => destruct b
       end; discriminate.
Qed.

Lemma break_false s :
  clip_step r s = Break false -> Z.land (code1 s) (code2 s) <> 0%Z.
Proof.
  unfold clip_step.
  destruct ((code1 s =? 0)%Z && (code2 s =? 0)%Z); [discriminate|].
  destruct (Z.land (code1 s) (code2 s) =? 0)%Z eqn:E; cbn [negb].
  - match goal with
    | |- context [intersection ?a ?b ?c] => destruct (intersection a b c) as [[? ?]| |]
    end; try discriminate.
    match goal with
    | |- context [if ?b then _ else _] => destruct b
    end; discriminate.
  - intros _. apply Z.eqb_neq. exact E.
Qed.

Lemma lerp_inside t1 t2 t xa ya xb yb :
  t1 <= t -> t <= t2 ->
  xa == vx p1 + t1 * (vx p2 - vx p1) -> ya == vy p1 + t1 * (vy p2 - vy p1) ->
  xb == vx p1 + t2 * (vx p2 - vx p1) -> yb == vy p1 + t2 * (vy p2 - vy p1) ->
  inside r xa ya -> inside r xb yb ->
  inside r (vx p1 + t * (vx p2 - vx p1)) (vy p1 + t * (vy p2 - vy p1)).
Proof.
  unfold inside. intros H1 H2 Hxa Hya Hxb Hyb (A1 & A2 & A3 & A4) (B1 & B2 & B3 & B4).
  destruct (Qlt_le_dec 0 (vx p2 - vx p1)), (Qlt_le_dec 0 (vy p2 - vy p1));
    repeat split; nra.
Qed.

Lemma shared_flag_outside t1 t2 t xa ya xb yb :
  t1 <= t -> t <= t2 ->
  xa == vx p1 + t1 * (vx p2 - vx p1) -> ya == vy p1 + t1 * (vy p2 - vy p1) ->
  xb == vx p1 + t2 * (vx p2 - vx p1) -> yb == vy p1 + t2 * (vy p2 - vy p1) ->
  Z.land (compute_code r xa ya) (compute_code r xb yb) <> 0%Z ->
  ~ inside r (vx p1 + t * (vx p2 - vx p1)) (vy p1 + t * (vy p2 - vy p1)).
Proof.
  intros H1 H2 Hxa Hya Hxb Hyb Hland (A1 & A2 & A3 & A4).
  apply Z.eqb_neq in Hland. rewrite land_zero_flags in Hland.
  rewrite !flag_top, !flag_bottom, !flag_right, !flag_left in Hland by assumption.
  ltb_hyp Hland; try (cbn in Hland; discriminate).
  all: destruct (Qlt_le_dec 0 (vx p2 - vx p1)), (Qlt_le_dec 0 (vy p2 - vy p1)); nra.
Qed.

Lemma shared_outside_land :
  shared_outside r p1 p2 <->
  Z.land (compute_code r (vx p1) (vy p1)) (compute_code r (vx p2) (vy p2)) <> 0%Z.
Proof.
  unfold shared_outside.
  rewrite <- Z.eqb_neq, land_zero_flags.
  rewrite !flag_top, !flag_bottom, !flag_right, !flag_left by assumption.
  split.
  - intros H. split_ltb; cbn; try reflexivity; exfalso; lra.
  - intros H. ltb_hyp H; try (cbn in H; discriminate); lra.
Qed.

End ClipLoop.

Lemma clip_inside_both r p1 p2 n :
  inside r (vx p1) (vy p1) -> inside r (vx p2) (vy p2) ->
  clip_line_to_rect (S n) p1 p2 r = Returned (Some (flat p1, flat p2)).
Proof.
  intros H1 H2. apply code_zero_inside in H1, H2.
  unfold clip_line_to_rect. cbn [clip_loop]. unfold clip_step.
  cbn [code1 code2]. rewrite H1, H2. reflexivity.
Qed.

Lemma clip_shared_outside r p1 p2 n :
  Z.land (compute_code r (vx p1) (vy p1)) (compute_code r (vx p2) (vy p2)) <> 0%Z ->
  clip_line_to_rect (S n) p1 p2 r = Returned None.
Proof.
  intros H.
  unfold clip_line_to_rect. cbn [clip_loop]. unfold clip_step.
  cbn [code1 code2].
  destruct (compute_code r (vx p1) (vy p1) =? 0)%Z eqn:E1.
  { apply Z.eqb_eq in E1. rewrite E1 in H. rewrite Z.land_0_l in H. congruence. }
  cbn [andb]. apply Z.eqb_neq in H. rewrite H. reflexivity.
Qed.

(** C1.  For every segment and every frame rectangle of non-negative
    width and height, [clip_line_to_rect] returns within five passes of
    its loop, without raising: the segment unchanged when both end points
    lie inside the rectangle, nothing when both end points lie beyond the
    same edge line, and otherwise exactly the part of the segment that
    lies inside the rectangle (nothing when there is none).  On the frame
    (0, 0, 100, 100): (10,10)-(90,90) is returned as it is,
    (-50,50)-(150,50) becomes (0,50)-(100,50), and (-10,-10)-(-5,-5)
    gives nothing. *)
Theorem clip_line_to_rect_correct :
  (forall (r : rect) (p1 p2 : Vector) (fuel : nat),
      0 <= rect_width r -> 0 <= rect_height r -> (5 <= fuel)%nat ->
      exists res : option segment,
        clip_line_to_rect fuel p1 p2 r = Returned res /\
        (inside r (vx p1) (vy p1) -> inside r (vx p2) (vy p2) ->
         res = Some (flat p1, flat p2)) /\
        (shared_outside r p1 p2 -> res = None) /\
        clip_result_spec r p1 p2 res) /\
  clip_line_to_rect 5 (mkVector 10 10 0) (mkVector 90 90 0) frame_100
    = Returned (Some (mkVector 10 10 0, mkVector 90 90 0)) /\
  (exists q1 q2,
      clip_line_to_rect 5 (mkVector (-50) 50 0) (mkVector 150 50 0) frame_100
        = Returned (Some (q1, q2)) /\
      vx q1 == 0 /\ vy q1 == 50 /\ vz q1 = 0 /\
      vx q2 == 100 /\ vy q2 == 50 /\ vz q2 = 0) /\
  clip_line_to_rect 5 (mkVector (-10) (-10) 0) (mkVector (-5) (-5) 0) frame_100
    = Returned None.
Proof.
  split; [|split; [|split]].
  - intros r p1 p2 fuel Hw Hh Hfuel.
    pose proof (clip_inv_start r p1 p2) as Hinv0.
    pose proof (rank_le_4 r p1 p2 _ _ _ Hinv0) as Hr.
    destruct (clip_loop_run r Hw Hh p1 p2 fuel _ _ _ Hinv0 ltac:(lia))
      as (acc & sf & t1 & t2 & Hrun & Hinv & Hbreak).
    destruct fuel as [|n]; [lia|].
    assert (Hres : clip_line_to_rect (S n) p1 p2 r =
              Returned (if acc then Some (mkVector (x1 sf) (y1 sf) 0, mkVector (x2 sf) (y2 sf) 0)
                        else None)).
    { unfold clip_line_to_rect. fold (clip_start r p1 p2). rewrite Hrun.
      destruct acc; reflexivity. }
    eexists. split; [exact Hres|].
    split; [|split].
    + intros H1 H2. rewrite (clip_inside_both r p1 p2 n H1 H2) in Hres.
      injection Hres as <-. reflexivity.
    + intros Hs. apply (shared_outside_land r Hw Hh) in Hs.
      rewrite (clip_shared_outside r p1 p2 n Hs) in Hres.
      injection Hres as <-. reflexivity.
    + destruct Hinv as [Ht1 Ht12 Ht2 Hx1 Hy1 Hx2 Hy2 Hc1 Hc2 Hcomp He1 He2].
      destruct acc; unfold clip_result_spec, lerp.
      * apply break_true in Hbreak. destruct Hbreak as [Z1 Z2].
        rewrite Hc1 in Z1. rewrite Hc2 in Z2.
        apply code_zero_inside in Z1, Z2.
        cbn [vx vy vz]. split; [reflexivity|]. split; [reflexivity|].
        exists t1, t2. repeat (split; [assumption|]).
        split; [|split].
        -- intros t Ht0 Ht1'. split.
           ++ apply Hcomp; assumption.
           ++ intros [Ha Hb].
              apply (lerp_inside r p1 p2 t1 t2 t (x1 sf) (y1 sf) (x2 sf) (y2 sf));
                assumption.
        -- intros Hout. destruct He1 as [[Ex Ey]|He1]; [|exact He1].
           exfalso. apply Hout. rewrite <- Ex, <- Ey. exact Z1.
        -- intros Hout. destruct He2 as [[Ex Ey]|He2]; [|exact He2].
           exfalso. apply Hout. rewrite <- Ex, <- Ey. exact Z2.
      * apply break_false in Hbreak. rewrite Hc1, Hc2 in Hbreak.
        intros t Ht0 Ht1' Hin.
        destruct (Hcomp t Ht0 Ht1' Hin) as [Ha Hb].
        exact (shared_flag_outside r Hw Hh p1 p2 t1 t2 t _ _ _ _ Ha Hb Hx1 Hy1 Hx2 Hy2 Hbreak Hin).
  - vm_compute. reflexivity.
  - eexists _, _. split; [vm_compute; reflexivity|].
    cbn [vx vy vz]. repeat split; reflexivity.
  - vm_compute. reflexivity.
Qed.

Lemma clip_line_to_rect_correct_witness :
  exists res : option segment,
    clip_line_to_rect 5 (mkVector (-50) 50 0) (mkVector 150 150 0) frame_100 = Returned res /\
    clip_result_spec frame_100 (mkVector (-50) 50 0) (mkVector 150 150 0) res.
Proof.
  destruct (proj1 clip_line_to_rect_correct frame_100
              (mkVector (-50) 50 0) (mkVector 150 150 0) 5%nat)
    as (res & H1 & _ & _ & H2).
  - cbn. lra.
  - cbn. lra.
  - lia.
  - exists res. split; assumption.
Defined.

End ClipProofs.

(** ** C8: the major tick interval of the rulers *)

Section RulerProofs.

Import py drawing rulers.
Open Scope Q_scope.

Lemma geb_ge x y : geb x y = true <-> y <= x.
Proof.
  unfold geb. rewrite negb_true_iff. apply ltb_ge.
Qed.

Lemma geb_lt x y : geb x y = false <-> x < y.
Proof.
  unfold geb. rewrite negb_false_iff. apply ltb_lt.
Qed.

Lemma interval_loop_none ppu l d :
  Forall (fun j => ~ reaches_target ppu j) l -> interval_loop ppu l d = d.
Proof.
  induction 1 as [|j l Hj Hl IH]; cbn; [reflexivity|].
  destruct (geb (float j * ppu) target_spacing_px) eqn:E; [|exact IH].
  apply geb_ge in E. contradiction.
Qed.

Lemma interval_loop_first ppu l d :
  0 < ppu -> StronglySorted Z.le l -> Exists (reaches_target ppu) l ->
  In (interval_loop ppu l d) l /\
  reaches_target ppu (interval_loop ppu l d) /\
  forall j, In j l -> reaches_target ppu j -> (interval_loop ppu l d <= j)%Z.
Proof.
  intros Hpos Hs. induction Hs as [|i l Hs IH Hall]; intros Hex.
  - inversion Hex.
  - cbn [interval_loop].
    destruct (geb (float i * ppu) target_spacing_px) eqn:E.
    + apply geb_ge in E. split; [left; reflexivity|]. split; [exact E|].
      intros j [<-|Hj] _; [lia|].
      rewrite List.Forall_forall in Hall. apply Hall. exact Hj.
    + apply geb_lt in E.
      assert (Hex' : Exists (reaches_target ppu) l).
      { inversion Hex as [? ? H|? ? H]; subst; [|exact H].
        unfold reaches_target in H. lra. }
      destruct (IH Hex') as (H1 & H2 & H3).
      split; [right; exact H1|]. split; [exact H2|].
      intros j [<-|Hj] Hr; [unfold reaches_target in Hr; lra|].
      apply H3; assumption.
Qed.

Lemma possible_intervals_sorted : StronglySorted Z.le possible_intervals.
Proof.
  unfold possible_intervals.
  repeat (constructor; [|repeat (constructor; [lia|]); constructor]).
  constructor.
Qed.

Lemma reaches_mono ppu i j :
  0 < ppu -> (i <= j)%Z -> reaches_target ppu i -> reaches_target ppu j.
Proof.
  unfold reaches_target, float. intros Hp Hij H.
  assert (inject_Z i <= inject_Z j) by (rewrite <- Zle_Qle; exact Hij).
  nra.
Qed.

Lemma major_interval_counterexample :
  0 < (1 # 1000) /\ ~ smallest_candidate (1 # 1000) (major_interval_units (1 # 1000)).
Proof.
  split; [reflexivity|].
  intros (_ & H & _). vm_compute in H. apply H. reflexivity.
Qed.

(** C8 (as amended).  For a positive [pixels_per_unit] of at least 0.008
    the chosen major interval is the smallest candidate whose spacing on
    screen reaches 80 pixels; below 0.008 no candidate reaches it and the
    interval keeps its initial value 100; for 0.5 the interval is 200. *)
Theorem major_interval_smallest :
  (forall ppu : Q,
      0 < ppu -> 80 <= 10000 * ppu ->
      smallest_candidate ppu (major_interval_units ppu)) /\
  (forall ppu : Q,
      0 < ppu -> 10000 * ppu < 80 ->
      major_interval_units ppu = 100%Z /\
      forall j, In j possible_intervals -> ~ reaches_target ppu j) /\
  major_interval_units (1 # 2) = 200%Z.
Proof.
  split; [|split].
  - intros ppu Hpos H. unfold smallest_candidate, major_interval_units.
    apply interval_loop_first; [exact Hpos|apply possible_intervals_sorted|].
    apply List.Exists_exists. exists 10000%Z. split.
    + unfold possible_intervals. repeat (try (left; reflexivity); right).
    + unfold reaches_target, target_spacing_px, float. exact H.
  - intros ppu Hpos H.
    assert (Hnone : forall j, In j possible_intervals -> ~ reaches_target ppu j).
    { intros j Hj Hr.
      assert (Hle : (j <= 10000)%Z).
      { unfold possible_intervals in Hj. cbn in Hj.
        repeat (destruct Hj as [<-|Hj]; [lia|]). contradiction. }
      pose proof (reaches_mono ppu j 10000 Hpos Hle Hr) as H'.
      unfold reaches_target, target_spacing_px, float in H'.
      change (inject_Z 10000) with 10000 in H'. lra. }
    split; [|exact Hnone].
    unfold major_interval_units. apply interval_loop_none.
    apply List.Forall_forall. exact Hnone.
  - vm_compute. reflexivity.
Qed.

Lemma major_interval_smallest_witness :
  smallest_candidate (1 # 2) (major_interval_units (1 # 2)).
Proof.
  apply (proj1 major_interval_smallest); [reflexivity | discriminate].
Defined.

End RulerProofs.

(** ** C3: generation of the golden spiral *)

Section SpiralGeneration.

Import py drawing spiral.
Open Scope Q_scope.

Section SpiralProofs.
Variable M : MathLib.
Variable show : bool.

Lemma spiral_body_spec idx v :
  spiral_body M show idx v =
  if too_small (work_of v) then None
  else Some (mkSpiral (fst (fst (fst (carve idx (work_of v)))))
                      (snd (fst (fst (carve idx (work_of v)))))
                      (snd (fst (carve idx (work_of v))))
                      (snd (carve idx (work_of v)))
                      (points v ++ arc_of M idx (work_of v))
                      (if show then rect_lines v ++ [boundary_of idx (work_of v)]
                       else rect_lines v)).
Proof.
  unfold spiral_body, too_small, work_of, carve, arc_of, boundary_of.
  destruct (ltb (lw v) 1 || ltb (lh v) 1); [reflexivity|].
  destruct (idx mod 4)%nat as [|[|[|?]]]; reflexivity.
Qed.

Lemma spiral_for_spec m : forall k v,
  work_of v = work_rect k ->
  let n := passes_from k m in
  let v' := spiral_for M show (seq k m) v in
  work_of v' = work_rect (k + n) /\
  points v' = points v ++ concat (map (fun i => arc_of M i (work_rect i)) (seq k n)) /\
  rect_lines v' =
    rect_lines v ++ (if show then map (fun i => boundary_of i (work_rect i)) (seq k n)
                     else []).
Proof.
  induction m as [|m IH]; intros k v Hw; cbn [passes_from seq spiral_for].
  - rewrite Nat.add_0_r. cbn. rewrite !app_nil_r.
    destruct show; rewrite ?app_nil_r; auto.
  - rewrite spiral_body_spec, Hw.
    destruct (too_small (work_rect k)) eqn:E.
    + rewrite Nat.add_0_r. cbn. rewrite !app_nil_r.
      destruct show; rewrite ?app_nil_r; auto.
    + match goal with |- context [spiral_for M show _ ?v0] => set (v1 := v0) end.
      assert (Hw1 : work_of v1 = work_rect (S k)).
      { unfold work_of, v1. cbn [lx ly lw lh work_rect].
        destruct (carve k (work_rect k)) as [[[a b] c] d]. reflexivity. }
      destruct (IH (S k) v1 Hw1) as (H1 & H2 & H3).
      cbv zeta. rewrite H1, H2, H3.
      split; [f_equal; lia|]. split.
      * unfold v1. cbn [points seq map concat]. rewrite <- !app_assoc. reflexivity.
      * unfold v1. cbn [rect_lines seq map].
        destruct show; rewrite <- ?app_assoc; reflexivity.
Qed.

Lemma arc_of_length idx w : length (arc_of M idx w) = 33%nat.
Proof.
  unfold arc_of. destruct w as [[[a b] c] d].
  destruct (idx mod 4)%nat as [|[|[|?]]]; unfold arc_points;
    rewrite length_map; reflexivity.
Qed.

End SpiralProofs.


Lemma ltb_proper a a' b b' : a == a' -> b == b' -> ltb a b = ltb a' b'.
Proof.
  intros Ha Hb. unfold ltb. rewrite Ha, Hb. reflexivity.
Qed.

Lemma min_proper a a' b b' : a == a' -> b == b' -> min a b == min a' b'.
Proof.
  intros Ha Hb. unfold min. rewrite (ltb_proper b b' a a' Hb Ha).
  destruct (ltb b' a'); assumption.
Qed.

Lemma carve_proper k w w' : work_eq w w' -> work_eq (carve k w) (carve k w').
Proof.
  destruct w as [[[a b] c] d], w' as [[[a' b'] c'] d'].
  intros (Ha & Hb & Hc & Hd). unfold carve.
  pose proof (min_proper c c' d d' Hc Hd) as Hm.
  destruct (k mod 4)%nat as [|[|[|?]]]; cbv [work_eq]; repeat split;
    rewrite ?Hm, ?Ha, ?Hb, ?Hc, ?Hd; reflexivity.
Qed.

Lemma reduce_eq w : work_eq w (reduce w).
Proof.
  destruct w as [[[a b] c] d]. cbv [work_eq reduce].
  rewrite !Qred_correct. repeat split; reflexivity.
Qed.

Lemma work_eq_trans w1 w2 w3 : work_eq w1 w2 -> work_eq w2 w3 -> work_eq w1 w3.
Proof.
  destruct w1 as [[[a1 b1] c1] d1], w2 as [[[a2 b2] c2] d2], w3 as [[[a3 b3] c3] d3].
  cbv [work_eq]. intros (?&?&?&?) (?&?&?&?). repeat split; etransitivity; eassumption.
Qed.

Lemma work_red_eq k : work_eq (work_rect k) (work_red k).
Proof.
  induction k as [|k IH]; cbn [work_rect work_red].
  - apply reduce_eq.
  - eapply work_eq_trans; [apply carve_proper; exact IH|apply reduce_eq].
Qed.

Lemma too_small_proper w w' : work_eq w w' -> too_small w = too_small w'.
Proof.
  destruct w as [[[a b] c] d], w' as [[[a' b'] c'] d'].
  intros (_ & _ & Hc & Hd). cbv [too_small].
  rewrite (ltb_proper c c' 1 1 Hc (Qeq_refl 1)), (ltb_proper d d' 1 1 Hd (Qeq_refl 1)).
  reflexivity.
Qed.

Lemma too_small_before_15 k : (k < 15)%nat -> too_small (work_rect k) = false.
Proof.
  intros H. rewrite (too_small_proper _ _ (work_red_eq k)).
  do 15 (destruct k as [|k]; [vm_compute; reflexivity|]). lia.
Qed.

Lemma too_small_at_15 : too_small (work_rect 15) = true.
Proof.
  rewrite (too_small_proper _ _ (work_red_eq 15)). vm_compute. reflexivity.
Qed.

Lemma passes_from_min m : forall k, (k <= 15)%nat ->
  passes_from k m = Nat.min m (15 - k).
Proof.
  induction m as [|m IH]; intros k Hk; cbn [passes_from]; [reflexivity|].
  destruct (Nat.eq_dec k 15%nat) as [->|Hne].
  - rewrite too_small_at_15. reflexivity.
  - rewrite too_small_before_15 by lia. rewrite IH by lia. lia.
Qed.

Lemma passes_from_stop m : forall k,
  (forall i, (k <= i < k + passes_from k m)%nat -> too_small (work_rect i) = false) /\
  ((passes_from k m < m)%nat -> too_small (work_rect (k + passes_from k m)) = true).
Proof.
  induction m as [|m IH]; intros k; cbn [passes_from].
  - split; intros; lia.
  - destruct (too_small (work_rect k)) eqn:E.
    + split; [intros; lia|]. intros _. rewrite Nat.add_0_r. exact E.
    + destruct (IH (S k)) as [H1 H2]. split.
      * intros i Hi. destruct (Nat.eq_dec i k) as [->|Hne]; [exact E|].
        apply H1. lia.
      * intros Hlt. replace (k + S (passes_from (S k) m))%nat
          with (S k + passes_from (S k) m)%nat by lia. apply H2. lia.
Qed.

Lemma consecutive_length {A} (l : list A) :
  length (consecutive l) = (length l - 1)%nat.
Proof.
  unfold consecutive. rewrite length_combine. destruct l; cbn [tl length]; lia.
Qed.

Lemma concat_arcs_length M l :
  length (concat (map (fun i => arc_of M i (work_rect i)) l)) = (33 * length l)%nat.
Proof.
  induction l as [|i l IH]; [reflexivity|].
  cbn [map concat]. rewrite length_app, arc_of_length, IH. cbn [length]. lia.
Qed.

(** C3.  For [golden_spiral_length] L in [1, 24] the generation loop over
    the 1000 x 1000*phi working rectangle completes n = min(L, 15) passes;
    pass i appends the arc of 33 points (32 segments) of the square carved
    in phase i mod 4 and, with show-segments, one boundary line; no
    rectangle before pass n has a side below 1, and when n < L the
    rectangle of pass n has one, which is where the loop stops before
    carving.  For L = 8 there are 8 arcs and, with show-segments, 8
    boundary lines. *)
Theorem golden_spiral_generation :
  forall (M : MathLib) (show_segments : bool) (L : Z),
    (1 <= L <= 24)%Z ->
    let v := spiral_generate M show_segments L in
    let n := Z.to_nat (Z.min L 15) in
    points v = concat (map (fun i => arc_of M i (work_rect i)) (seq 0 n)) /\
    (forall i, length (arc_of M i (work_rect i)) = 33%nat /\
               length (consecutive (arc_of M i (work_rect i))) = 32%nat) /\
    rect_lines v =
      (if show_segments then map (fun i => boundary_of i (work_rect i)) (seq 0 n)
       else []) /\
    work_of v = work_rect n /\
    (forall k, (k < n)%nat -> too_small (work_rect k) = false) /\
    ((Z.of_nat n < L)%Z -> too_small (work_rect n) = true) /\
    length (spiral_all_lines show_segments v) =
      (32 * n + (n - 1) + (if show_segments then n else 0))%nat /\
    (L = 8%Z ->
       n = 8%nat /\ length (points v) = (8 * 33)%nat /\
       length (rect_lines v) = (if show_segments then 8 else 0)%nat).
Proof.
  intros M show L HL v n.
  assert (Hn : passes_from 0 (Z.to_nat L) = n).
  { rewrite passes_from_min by lia. unfold n. lia. }
  destruct (spiral_for_spec M show (Z.to_nat L) 0 spiral_init eq_refl)
    as (Hw & Hp & Hr).
  cbv zeta in Hw, Hp, Hr. rewrite Hn in Hw, Hp, Hr.
  fold (range L) in Hw, Hp, Hr. fold (spiral_generate M show L) in Hw, Hp, Hr.
  fold v in Hw, Hp, Hr. cbn [spiral_init points rect_lines app Nat.add] in Hw, Hp, Hr.
  destruct (passes_from_stop (Z.to_nat L) 0) as [Hs1 Hs2].
  rewrite Hn in Hs1, Hs2. cbn [Nat.add] in Hs1, Hs2.
  assert (Hlen : length (points v) = (33 * n)%nat).
  { rewrite Hp, concat_arcs_length, length_seq. reflexivity. }
  assert (Hrl : length (rect_lines v) = (if show then n else 0)%nat).
  { rewrite Hr. destruct show; [|reflexivity]. rewrite length_map, length_seq. reflexivity. }
  repeat split.
  - exact Hp.
  - apply arc_of_length.
  - rewrite consecutive_length, arc_of_length. reflexivity.
  - exact Hr.
  - exact Hw.
  - intros k Hk. apply Hs1. lia.
  - intros Hlt. apply Hs2. lia.
  - unfold spiral_all_lines.
    assert (Hn1 : (1 <= n)%nat) by (unfold n; lia).
    destruct (1 <? length (points v))%nat eqn:E.
    + pose proof (consecutive_length (points v)) as Hc.
      clearbody v n. unfold segment in *. destruct show; rewrite ?length_app; lia.
    + apply Nat.ltb_ge in E. lia.
  - subst L. reflexivity.
  - subst L. rewrite Hlen. reflexivity.
  - subst L. rewrite Hrl. reflexivity.
Qed.

Lemma golden_spiral_generation_witness :
  length (rect_lines (spiral_generate (mkMath (fun x => x) (fun x => x) (fun x => x) 3)
                        true 8)) = 8%nat.
Proof.
  pose proof (golden_spiral_generation
                (mkMath (fun x => x) (fun x => x) (fun x => x) 3) true 8
                ltac:(lia)) as H.
  cbv zeta in H. destruct H as (_ & _ & _ & _ & _ & _ & _ & H).
  destruct (H eq_refl) as (_ & _ & H3). exact H3.
Defined.

End SpiralGeneration.

(** ** Guide positions stay in [-1, 1] *)
Section ClampProofs.

Import py drawing properties operators presets positions.
Open Scope Q_scope.

Lemma clamp_unit_cases (v : Q) :
  (v <= -1 /\ clamp_unit v = -1) \/
  (1 <= v /\ clamp_unit v = 1) \/
  (-1 < v /\ v < 1 /\ clamp_unit v = v).
Proof.
  unfold clamp_unit, max, min.
  destruct (ltb v 1) eqn:E1.
  - apply ltb_lt in E1. destruct (ltb (-1) v) eqn:E2.
    + apply ltb_lt in E2. right. right. auto.
    + apply ltb_ge in E2. left. auto.
  - apply ltb_ge in E1. right. left. split; [exact E1|reflexivity].
Qed.

Lemma clamp_is_clamp_unit (v : Q) :
  clamp position_min position_max v = clamp_unit v.
Proof. reflexivity. Qed.

Lemma clamp_unit_range (v : Q) : -1 <= clamp_unit v /\ clamp_unit v <= 1.
Proof.
  destruct (clamp_unit_cases v) as [[? ->]|[[? ->]|(? & ? & ->)]]; lra.
Qed.

Lemma clamp_unit_idem (v : Q) : clamp_unit (clamp_unit v) = clamp_unit v.
Proof.
  destruct (clamp_unit_cases v) as [[? E]|[[? E]|(? & ? & E)]]; rewrite E;
    try reflexivity.
  exact E.
Qed.

(** The setters keep a guide within range. *)
Lemma set_position_x_ok g v : position_ok g -> position_ok (set_position_x g v).
Proof.
  intros [_ Hy]. split; [|exact Hy]. cbn [set_position_x position_x].
  rewrite clamp_is_clamp_unit. apply clamp_unit_range.
Qed.

Lemma set_position_y_ok g v : position_ok g -> position_ok (set_position_y g v).
Proof.
  intros [Hx _]. split; [exact Hx|]. cbn [set_position_y position_y].
  rewrite clamp_is_clamp_unit. apply clamp_unit_range.
Qed.

Lemma new_guide_ok : position_ok new_guide.
Proof. unfold position_ok. cbn. lra. Qed.

Lemma set_name_ok g s : position_ok g -> position_ok (set_name g s).
Proof. intros H. exact H. Qed.

Lemma set_orientation_ok g o : position_ok g -> position_ok (set_orientation g o).
Proof. intros H. exact H. Qed.

Lemma assign_then_ok (P : CustomGuide -> Prop) (r : result CustomGuide)
    (g : CustomGuide) (k : CustomGuide -> CustomGuide * result unit) :
  P g -> keeps P r -> (forall g', P g' -> P (fst (k g'))) ->
  P (fst (assign_then r g k)).
Proof.
  intros Hg Hr Hk. unfold assign_then.
  destruct r as [g'| |]; cbn [fst]; try exact Hg.
  apply Hk, Hr. reflexivity.
Qed.

Lemma keeps_bind (P : CustomGuide -> Prop) (r : result pyval)
    (f : pyval -> result CustomGuide) :
  (forall v, keeps P (f v)) -> keeps P (let* v := r in f v).
Proof.
  intros H g' E. destruct r as [v| |]; cbn [bind] in E; try discriminate.
  exact (H v g' E).
Qed.

Lemma assign_position_x_ok g v : position_ok g -> keeps position_ok (assign_position_x g v).
Proof.
  intros Hg g' E. unfold assign_position_x in E.
  destruct (to_float v); cbn [bind] in E; try discriminate.
  injection E as <-. apply set_position_x_ok. exact Hg.
Qed.

Lemma assign_position_y_ok g v : position_ok g -> keeps position_ok (assign_position_y g v).
Proof.
  intros Hg g' E. unfold assign_position_y in E.
  destruct (to_float v); cbn [bind] in E; try discriminate.
  injection E as <-. apply set_position_y_ok. exact Hg.
Qed.

Lemma position_ok_positional : positional position_ok.
Proof. intros g g' Ex Ey H. unfold position_ok. rewrite Ex, Ey. exact H. Qed.

Lemma at_position_positional (x y : Q) :
  positional (fun g => position_x g = x /\ position_y g = y).
Proof. intros g g' Ex Ey H. rewrite Ex, Ey. exact H. Qed.

Lemma assign_rotation_ok P g v : positional P -> P g -> keeps P (assign_rotation g v).
Proof.
  intros HP Hg g' E. unfold assign_rotation in E.
  destruct (to_float v); cbn [bind] in E; try discriminate.
  injection E as <-. revert Hg. apply HP; reflexivity.
Qed.

Lemma assign_orientation_ok P g v : positional P -> P g -> keeps P (assign_orientation g v).
Proof.
  intros HP Hg g' E. unfold assign_orientation in E.
  destruct v; try discriminate.
  destruct (String.eqb s "HORIZONTAL");
    [injection E as <-; revert Hg; apply HP; reflexivity|].
  destruct (String.eqb s "VERTICAL");
    [injection E as <-; revert Hg; apply HP; reflexivity|discriminate].
Qed.

Lemma assign_name_ok P g v : positional P -> P g -> keeps P (assign_name g v).
Proof.
  intros HP Hg g' E. unfold assign_name in E.
  destruct v; try discriminate. injection E as <-. revert Hg. apply HP; reflexivity.
Qed.

Lemma assign_color_ok P g v : positional P -> P g -> keeps P (assign_color g v).
Proof.
  intros HP Hg g' E. unfold assign_color in E.
  destruct v; try discriminate.
  destruct (length l =? 4)%nat; [|discriminate].
  destruct (to_floats l); cbn [bind] in E; try discriminate.
  injection E as <-. revert Hg. apply HP; reflexivity.
Qed.

Lemma assign_color_item_ok P g i v :
  positional P -> P g -> keeps P (assign_color_item g i v).
Proof.
  intros HP Hg g' E. unfold assign_color_item in E.
  destruct (i <? length (color g))%nat; [|discriminate].
  destruct (to_float v); cbn [bind] in E; try discriminate.
  injection E as <-. revert Hg. apply HP; reflexivity.
Qed.

Lemma color_loop_ok P vals : positional P -> forall i g,
  P g -> P (fst (color_loop i vals g)).
Proof.
  intros HP.
  induction vals as [|v vals IH]; intros i g Hg; cbn [color_loop fst]; [exact Hg|].
  apply assign_then_ok; [exact Hg|apply assign_color_item_ok; assumption|].
  intros g' Hg'. apply IH. exact Hg'.
Qed.

(** What [load_guide] does after the two position assignments. *)
Lemma load_guide_rest_ok P guide_data g : positional P -> P g ->
  P (fst (assign_then (let* v := item_get guide_data "rotation" (PFloat 0) in
                       assign_rotation g v) g (fun guide =>
          assign_then (let* v := item_get guide_data "orientation" (PStr "HORIZONTAL") in
                       assign_orientation guide v) guide (fun guide =>
          match guide_data with
          | PDict d =>
              if dict_has d "color" then
                match iterate (dict_get d "color" PNone) with
                | Returned vals => color_loop 0 vals guide
                | Raised e => (guide, Raised e)
                | OutOfFuel => (guide, OutOfFuel)
                end
              else (guide, Returned tt)
          | _ => (guide, Raised TypeError)
          end)))).
Proof.
  intros HP Hg.
  apply assign_then_ok; [exact Hg|apply keeps_bind; intros; apply assign_rotation_ok; assumption|].
  clear g Hg. intros g Hg.
  apply assign_then_ok; [exact Hg|apply keeps_bind; intros; apply assign_orientation_ok; assumption|].
  clear g Hg. intros g Hg.
  destruct guide_data; try exact Hg.
  destruct (dict_has d "color"); [|exact Hg].
  destruct (iterate _); try exact Hg.
  apply color_loop_ok; assumption.
Qed.

Lemma load_guide_ok guide_data g :
  position_ok g -> position_ok (fst (load_guide guide_data g)).
Proof.
  intros Hg. unfold load_guide.
  apply assign_then_ok; [exact Hg|apply keeps_bind; intros; apply assign_position_x_ok; exact Hg|].
  clear g Hg. intros g Hg.
  apply assign_then_ok; [exact Hg|apply keeps_bind; intros; apply assign_position_y_ok; exact Hg|].
  clear g Hg. intros g Hg.
  apply load_guide_rest_ok; [exact position_ok_positional|exact Hg].
Qed.

Lemma load_guide_positions d g g' :
  load_guide (PDict d) g = (g', Returned tt) ->
  exists x y,
    to_float (dict_get d "position_x" (PFloat 0)) = Returned x /\
    to_float (dict_get d "position_y" (PFloat 0)) = Returned y /\
    position_x g' = clamp_unit x /\ position_y g' = clamp_unit y.
Proof.
  intros E. unfold load_guide in E. cbn [item_get bind] in E.
  unfold assign_position_x at 1 in E.
  destruct (to_float (dict_get d "position_x" (PFloat 0))) as [x| |] eqn:Ex;
    cbn [bind assign_then] in E; try discriminate.
  unfold assign_position_y at 1 in E.
  destruct (to_float (dict_get d "position_y" (PFloat 0))) as [y| |] eqn:Ey;
    cbn [bind assign_then] in E; try discriminate.
  exists x, y. split; [reflexivity|]. split; [reflexivity|].
  pose proof (load_guide_rest_ok _ (PDict d) (set_position_y (set_position_x g x) y)
                (at_position_positional (clamp_unit x) (clamp_unit y))) as H.
  cbn [item_get bind] in H. rewrite E in H. apply H.
  split; reflexivity.
Qed.

Lemma deserialize_item_ok item g :
  position_ok g -> position_ok (fst (deserialize_item item g)).
Proof.
  intros Hg. unfold deserialize_item.
  apply assign_then_ok; [exact Hg|apply keeps_bind; intros; apply assign_name_ok; [exact position_ok_positional|exact Hg]|].
  clear g Hg. intros g Hg.
  apply assign_then_ok; [exact Hg|apply keeps_bind; intros; apply assign_position_x_ok; exact Hg|].
  clear g Hg. intros g Hg.
  apply assign_then_ok; [exact Hg|apply keeps_bind; intros; apply assign_position_y_ok; exact Hg|].
  clear g Hg. intros g Hg.
  apply assign_then_ok; [exact Hg|apply keeps_bind; intros; apply assign_rotation_ok; [exact position_ok_positional|exact Hg]|].
  clear g Hg. intros g Hg.
  apply assign_then_ok; [exact Hg|apply keeps_bind; intros; apply assign_orientation_ok; [exact position_ok_positional|exact Hg]|].
  clear g Hg. intros g Hg.
  apply assign_then_ok; [exact Hg|apply keeps_bind; intros; apply assign_color_ok; [exact position_ok_positional|exact Hg]|].
  clear g Hg. intros g Hg. exact Hg.
Qed.

Lemma all_ok_snoc gs g : all_ok gs -> position_ok g -> all_ok (gs ++ [g]).
Proof.
  intros H Hg. apply List.Forall_app. split; [exact H|].
  constructor; [exact Hg|constructor].
Qed.

Lemma all_ok_insert gs i g : all_ok gs -> position_ok g -> all_ok (<[i := g]> gs).
Proof.
  intros H Hg. apply List.Forall_forall. intros x Hx.
  apply list_elem_of_In in Hx. apply list_elem_of_lookup in Hx.
  destruct Hx as (j & Hj).
  destruct (decide (i = j)) as [->|Hne].
  - destruct (decide (j < length gs)%nat) as [Hlt|Hge].
    + rewrite list_lookup_insert_eq in Hj by exact Hlt. injection Hj as <-. exact Hg.
    + rewrite list_insert_ge in Hj by lia.
      rewrite List.Forall_forall in H. apply H.
      apply list_elem_of_In. eapply list_elem_of_lookup_2. exact Hj.
  - rewrite list_lookup_insert_ne in Hj by exact Hne.
    rewrite List.Forall_forall in H. apply H.
    apply list_elem_of_In. eapply list_elem_of_lookup_2. exact Hj.
Qed.

Lemma all_ok_lookup gs i g : all_ok gs -> gs !! i = Some g -> position_ok g.
Proof.
  intros H Hi. rewrite List.Forall_forall in H. apply H.
  apply list_elem_of_In. eapply list_elem_of_lookup_2. exact Hi.
Qed.

Lemma all_ok_delete gs i : all_ok gs -> all_ok (delete i gs).
Proof.
  intros H. apply List.Forall_forall. intros x Hx.
  rewrite List.Forall_forall in H. apply H.
  apply list_elem_of_In. apply list_elem_of_In in Hx.
  eapply list_elem_of_delete_inv. exact Hx.
Qed.

Lemma collection_remove_ok gs index : all_ok gs -> all_ok (collection_remove gs index).
Proof.
  intros H. unfold collection_remove.
  destruct (index <? 0)%Z; [exact H|apply all_ok_delete; exact H].
Qed.

Lemma drag_to_mouse_ok fx fy fw fh event g :
  position_ok g -> keeps position_ok (drag_to_mouse fx fy fw fh event g).
Proof.
  intros Hg g' E. unfold drag_to_mouse in E.
  destruct (orientation g);
    match type of E with
    | context [div ?a ?b] => destruct (div a b)
    end; cbn [bind] in E; try discriminate; injection E as <-.
  - apply set_position_y_ok. exact Hg.
  - apply set_position_x_ok. exact Hg.
Qed.

Lemma load_guides_loop_ok items : forall gs,
  all_ok gs -> all_ok (fst (load_guides_loop items gs)).
Proof.
  induction items as [|item items IH]; intros gs H; cbn [load_guides_loop fst]; [exact H|].
  pose proof (load_guide_ok item new_guide new_guide_ok) as Hg.
  destruct (load_guide item new_guide) as [g [u|e|]]; cbn [fst] in *.
  - apply IH. apply all_ok_snoc; assumption.
  - apply all_ok_snoc; assumption.
  - apply all_ok_snoc; assumption.
Qed.

Lemma deserialize_loop_ok items : forall gs,
  all_ok gs -> all_ok (fst (deserialize_loop items gs)).
Proof.
  induction items as [|item items IH]; intros gs H; cbn [deserialize_loop fst]; [exact H|].
  pose proof (deserialize_item_ok item new_guide new_guide_ok) as Hg.
  destruct (deserialize_item item new_guide) as [g [u|e|]]; cbn [fst] in *.
  - apply IH. apply all_ok_snoc; assumption.
  - apply all_ok_snoc; assumption.
  - apply all_ok_snoc; assumption.
Qed.

Lemma mutation_ok gs gs' : mutation gs gs' -> all_ok gs -> all_ok gs'.
Proof.
  intros Hm H. destruct Hm.
  - (* move: modal *)
    unfold move_modal.
    destruct (type event), (value event); cbn [fst]; try exact H;
      try (destruct (gs !! guide self) as [g|] eqn:Eg; cbn [fst]; [|exact H]);
      try (pose proof (drag_to_mouse_ok (frame_x self) (frame_y self) (frame_width self)
                         (frame_height self) event g (all_ok_lookup _ _ _ H Eg)) as Hd;
           destruct (drag_to_mouse _ _ _ _ event g) as [g'| |]; cbn [fst];
           [apply all_ok_insert; [exact H|apply Hd; reflexivity]|exact H|exact H]);
      try (apply all_ok_insert; [exact H|];
           apply set_position_y_ok, set_position_x_ok, (all_ok_lookup _ _ _ H Eg)).
    destruct (0 <=? guide_index self)%Z; cbn [fst];
      [apply collection_remove_ok; exact H|exact H].
  - (* drag-create: invoke *)
    unfold drag_invoke.
    destruct (invoke_frame render region) as [f|]; [|exact H].
    cbv zeta.
    match goal with |- context [if negb ?b then _ else _] => destruct b end;
      cbn [negb fst]; [|exact H].
    match goal with |- context [if ?b then _ else _] => destruct b end;
      match goal with |- context [div ?a ?b] => destruct (div a b) end; cbn [fst];
      apply all_ok_snoc; try exact H;
      try apply set_position_y_ok; try apply set_position_x_ok; exact new_guide_ok.
  - (* drag-create: modal *)
    unfold drag_modal.
    destruct (type event), (value event); cbn [fst]; try exact H;
      try (destruct (gs !! drag_guide self) as [g|] eqn:Eg; cbn [fst]; [|exact H]);
      try exact H;
      try (pose proof (drag_to_mouse_ok (drag_frame_x self) (drag_frame_y self)
                         (drag_frame_width self) (drag_frame_height self) event g
                         (all_ok_lookup _ _ _ H Eg)) as Hd;
           destruct (drag_to_mouse _ _ _ _ event g) as [g'| |]; cbn [fst];
           [apply all_ok_insert; [exact H|apply Hd; reflexivity]|exact H|exact H]);
      try (apply collection_remove_ok; exact H).
  - (* add *)
    unfold add_custom_guide. apply all_ok_snoc; [exact H|].
    cbv zeta. apply set_name_ok, set_position_y_ok, set_position_x_ok.
    exact new_guide_ok.
  - (* remove *)
    unfold remove_custom_guide.
    destruct (_ && _); [apply collection_remove_ok; exact H|exact H].
  - (* clear *)
    constructor.
  - (* preset load, generation 1 *)
    unfold load_custom_guides.
    destruct (dict_has data "custom_guides"); [|exact H].
    destruct (iterate _); cbn [fst]; try constructor.
    apply load_guides_loop_ok. constructor.
  - (* preset field, generation 2 *)
    unfold deserialize_guides.
    destruct (String.eqb _ ""); [exact H|].
    destruct (json_loads _); [|exact H].
    destruct (iterate _); cbn [fst]; try constructor.
    apply deserialize_loop_ok. constructor.
  - apply all_ok_insert; [exact H|].
    match goal with
    | Hl : gs !! i = Some g, Ha : assign_position_x g v = Returned g' |- _ =>
        exact (assign_position_x_ok g v (all_ok_lookup _ _ _ H Hl) g' Ha)
    end.
  - apply all_ok_insert; [exact H|].
    match goal with
    | Hl : gs !! i = Some g, Ha : assign_position_y g v = Returned g' |- _ =>
        exact (assign_position_y_ok g v (all_ok_lookup _ _ _ H Hl) g' Ha)
    end.
Qed.

Lemma reachable_ok gs : reachable gs -> all_ok gs.
Proof.
  induction 1 as [|gs gs' _ IH Hm]; [constructor|].
  exact (mutation_ok gs gs' Hm IH).
Qed.

Lemma drag_to_mouse_positions fx fy fw fh event g g' :
  drag_to_mouse fx fy fw fh event g = Returned g' ->
  match orientation g with
  | HORIZONTAL =>
      exists val,
        div (float (mouse_region_y event) - (fy + fh / 2)) (fh / 2) = Returned val /\
        position_y g' = clamp_unit val /\ position_x g' = position_x g
  | VERTICAL =>
      exists val,
        div (float (mouse_region_x event) - (fx + fw / 2)) (fw / 2) = Returned val /\
        position_x g' = clamp_unit val /\ position_y g' = position_y g
  end.
Proof.
  unfold drag_to_mouse. intros E.
  destruct (orientation g); cbv zeta in E;
    match type of E with
    | context [div ?a ?b] => destruct (div a b) as [val| |] eqn:Ed
    end; cbn [bind] in E; try discriminate; injection E as <-;
    exists val; (split; [reflexivity|]); (split; [|reflexivity]);
    cbn [set_position_x set_position_y position_x position_y];
    rewrite clamp_is_clamp_unit; apply clamp_unit_idem.
Qed.

Lemma drag_invoke_positions render region ruler_size gs event gs' op :
  drag_invoke render region ruler_size gs event
    = (gs', Returned (RUNNING_MODAL, Some op)) ->
  exists f g val,
    invoke_frame render region = Some f /\ gs' = (gs ++ [g])%list /\
    ((orientation g = HORIZONTAL /\
      div (float (mouse_region_y event) - (rect_y f + rect_height f / 2))
          (rect_height f / 2) = Returned val /\
      position_y g = clamp_unit val /\ position_x g = 0) \/
     (orientation g = VERTICAL /\
      div (float (mouse_region_x event) - (rect_x f + rect_width f / 2))
          (rect_width f / 2) = Returned val /\
      position_x g = clamp_unit val /\ position_y g = 0)).
Proof.
  unfold drag_invoke. intros E.
  destruct (invoke_frame render region) as [f|]; [|discriminate].
  cbv zeta in E.
  match type of E with context [if negb ?b then _ else _] => destruct b end;
    cbn [negb] in E; [|discriminate].
  match type of E with context [if ?b then _ else _] => destruct b end;
    match type of E with context [div ?a ?b] => destruct (div a b) as [val| |] eqn:Ed end;
    try discriminate; injection E as <- _;
    eexists f, _, val; (split; [reflexivity|]); (split; [reflexivity|]);
    [left|right]; (split; [reflexivity|]); (split; [exact Ed|]);
    (split; [|reflexivity]);
    cbn [set_position_x set_position_y position_x position_y];
    rewrite clamp_is_clamp_unit; apply clamp_unit_idem.
Qed.

Lemma move_modal_positions (self : MoveOp) (gs gs' : list CustomGuide)
    (event : Event) (g : CustomGuide) :
  type event = MOUSEMOVE -> gs !! guide self = Some g ->
  move_modal self gs event = (gs', Returned RUNNING_MODAL) ->
  exists g',
    gs' = <[guide self := g']> gs /\
    moved_to (frame_x self) (frame_y self) (frame_width self) (frame_height self)
      event g g'.
Proof.
  intros Ht Hg E. unfold move_modal in E. rewrite Ht, Hg in E.
  destruct (drag_to_mouse _ _ _ _ event g) as [g'| |] eqn:Ed; try discriminate E.
  injection E as <-. exists g'. split; [reflexivity|].
  exact (drag_to_mouse_positions _ _ _ _ _ _ _ Ed).
Qed.

Lemma drag_modal_positions (self : DragOp) (gs gs' : list CustomGuide)
    (event : Event) (g : CustomGuide) :
  type event = MOUSEMOVE -> gs !! drag_guide self = Some g ->
  drag_modal self gs event = (gs', Returned RUNNING_MODAL) ->
  exists g',
    gs' = <[drag_guide self := g']> gs /\
    moved_to (drag_frame_x self) (drag_frame_y self) (drag_frame_width self)
      (drag_frame_height self) event g g'.
Proof.
  intros Ht Hg E. unfold drag_modal in E. rewrite Ht, Hg in E.
  destruct (drag_to_mouse _ _ _ _ event g) as [g'| |] eqn:Ed; try discriminate E.
  injection E as <-. exists g'. split; [reflexivity|].
  exact (drag_to_mouse_positions _ _ _ _ _ _ _ Ed).
Qed.

Lemma load_guide_loaded_from (item : pyval) (g g' : CustomGuide) :
  load_guide item g = (g', Returned tt) -> loaded_from item g'.
Proof.
  intros E.
  destruct item as [| | | | | |d];
    try (unfold load_guide in E; cbn [item_get bind assign_then] in E; discriminate E).
  destruct (load_guide_positions d g g' E) as (x & y & Ex & Ey & Hx & Hy).
  exists d, x, y. split; [reflexivity|]. repeat (split; [assumption|]). assumption.
Qed.

Lemma load_guides_loop_positions (items : list pyval) :
  forall acc gs',
    load_guides_loop items acc = (gs', Returned tt) ->
    exists new, gs' = (acc ++ new)%list /\ Forall2 loaded_from items new.
Proof.
  induction items as [|item items IH]; intros acc gs' E; cbn [load_guides_loop] in E.
  - injection E as <-. exists []. rewrite app_nil_r. split; [reflexivity|constructor].
  - destruct (load_guide item new_guide) as [g [[]| |]] eqn:Eg; try discriminate E.
    destruct (IH _ _ E) as (new & -> & Hall).
    exists (g :: new). split; [rewrite <- app_assoc; reflexivity|].
    constructor; [|exact Hall].
    exact (load_guide_loaded_from item new_guide g Eg).
Qed.

Lemma deserialize_item_loaded_from (item : pyval) (g g' : CustomGuide) :
  deserialize_item item g = (g', Returned tt) -> loaded_from item g'.
Proof.
  intros E.
  destruct item as [| | | | | |d];
    try (unfold deserialize_item in E; cbn [item_get bind assign_then] in E; discriminate E).
  unfold deserialize_item in E. cbn [item_get bind] in E.
  destruct (assign_name g (dict_get d "name" (PStr "Guide"))) as [g1| |];
    cbn [assign_then] in E; try discriminate E.
  unfold assign_position_x at 1 in E.
  destruct (to_float (dict_get d "position_x" (PFloat 0))) as [x| |] eqn:Ex;
    cbn [bind assign_then] in E; try discriminate E.
  unfold assign_position_y at 1 in E.
  destruct (to_float (dict_get d "position_y" (PFloat 0))) as [y| |] eqn:Ey;
    cbn [bind assign_then] in E; try discriminate E.
  exists d, x, y. split; [reflexivity|]. split; [exact Ex|]. split; [exact Ey|].
  set (P := fun g : CustomGuide => position_x g = clamp_unit x /\ position_y g = clamp_unit y).
  assert (HP : positional P) by apply at_position_positional.
  assert (H0 : P (set_position_y (set_position_x g1 x) y)) by (split; reflexivity).
  revert E H0. generalize (set_position_y (set_position_x g1 x) y). intros g2 E H2.
  assert (H : P (fst
    (assign_then (assign_rotation g2 (dict_get d "rotation" (PFloat 0))) g2 (fun guide =>
     assign_then (assign_orientation guide (dict_get d "orientation" (PStr "HORIZONTAL")))
       guide (fun guide =>
     assign_then (assign_color guide
        (dict_get d "color" (PList [PFloat 0; PFloat (4 # 10); PFloat 1; PFloat (5 # 10)])))
       guide (fun guide => (guide, Returned tt))))))).
  { apply assign_then_ok; [exact H2|apply assign_rotation_ok; assumption|].
    intros g3 H3.
    apply assign_then_ok; [exact H3|apply assign_orientation_ok; assumption|].
    intros g4 H4.
    apply assign_then_ok; [exact H4|apply assign_color_ok; assumption|].
    intros g5 H5. exact H5. }
  rewrite E in H. exact H.
Qed.

Lemma deserialize_loop_positions (items : list pyval) :
  forall acc gs',
    deserialize_loop items acc = (gs', Returned tt) ->
    exists new, gs' = (acc ++ new)%list /\ Forall2 loaded_from items new.
Proof.
  induction items as [|item items IH]; intros acc gs' E; cbn [deserialize_loop] in E.
  - injection E as <-. exists []. rewrite app_nil_r. split; [reflexivity|constructor].
  - destruct (deserialize_item item new_guide) as [g [[]| |]] eqn:Eg; try discriminate E.
    destruct (IH _ _ E) as (new & -> & Hall).
    exists (g :: new). split; [rewrite <- app_assoc; reflexivity|].
    constructor; [|exact Hall].
    exact (deserialize_item_loaded_from item new_guide g Eg).
Qed.

Lemma load_custom_guides_positions (data : list (string * pyval))
    (gs gs' : list CustomGuide) :
  dict_has data "custom_guides" = true ->
  load_custom_guides data gs = (gs', Returned tt) ->
  exists items,
    iterate (dict_get data "custom_guides" PNone) = Returned items /\
    Forall2 loaded_from items gs'.
Proof.
  intros Hhas E. unfold load_custom_guides in E. rewrite Hhas in E.
  destruct (iterate _) as [items| |]; try discriminate E.
  exists items. split; [reflexivity|].
  destruct (load_guides_loop_positions items [] gs' E) as (new & -> & H). exact H.
Qed.

Lemma deserialize_guides_positions (json_loads : string -> option pyval)
    (value : string) (data : pyval) (gs gs' : list CustomGuide) :
  value <> ""%string -> json_loads value = Some data ->
  deserialize_guides json_loads gs value = (gs', Returned tt) ->
  exists items, iterate data = Returned items /\ Forall2 loaded_from items gs'.
Proof.
  intros Hv Hd E. unfold deserialize_guides in E.
  destruct (String.eqb value "") eqn:Ev; [apply String.eqb_eq in Ev; contradiction|].
  rewrite Hd in E.
  destruct (iterate data) as [items| |]; try discriminate E.
  exists items. split; [reflexivity|].
  destruct (deserialize_loop_positions items [] gs' E) as (new & -> & H). exact H.
Qed.

(** The host's limits and [max(-1, min(1, v))] agree on finite floats. *)
Lemma store_float_finite (q : Q) :
  exists q', nonfinite.store_float position_min position_max (nonfinite.Finite q)
             = nonfinite.Finite q' /\ q' == clamp_unit q.
Proof.
  unfold nonfinite.store_float, nonfinite.flt, position_min, position_max.
  destruct (ltb q (-1)) eqn:E1; [apply ltb_lt in E1 | apply ltb_ge in E1].
  - exists (-1). split; [reflexivity|].
    destruct (clamp_unit_cases q) as [[H ->]|[[H ->]|(H1 & H2 & ->)]]; lra.
  - destruct (ltb 1 q) eqn:E2; [apply ltb_lt in E2 | apply ltb_ge in E2].
    + exists 1. split; [reflexivity|].
      destruct (clamp_unit_cases q) as [[H ->]|[[H ->]|(H1 & H2 & ->)]]; lra.
    + exists q. split; [reflexivity|].
      destruct (clamp_unit_cases q) as [[H ->]|[[H ->]|(H1 & H2 & ->)]]; lra.
Qed.

Lemma get_decoded_entries (d : list (string * pyval)) (key : string) (default : pyval) :
  nonfinite.get (decoded_entries d) key (nonfinite.Value default)
  = nonfinite.Value (dict_get d key default).
Proof.
  induction d as [|[k v] d IH]; cbn [decoded_entries map nonfinite.get dict_get fst snd];
    [reflexivity|].
  destruct (String.eqb k key); [reflexivity|exact IH].
Qed.

Lemma loaded_position_finite (d : list (string * pyval)) (key : string) (q : Q) :
  to_float (dict_get d key (PFloat 0)) = Returned q ->
  exists q', nonfinite.loaded_position (decoded_entries d) key
             = Returned (nonfinite.Finite q') /\ q' == clamp_unit q.
Proof.
  intros E. unfold nonfinite.loaded_position.
  rewrite get_decoded_entries. cbn [nonfinite.to_pyfloat]. rewrite E. cbn [bind].
  destruct (store_float_finite q) as (q' & -> & H). exists q'. split; [reflexivity|exact H].
Qed.

Lemma store_float_in_range (x : nonfinite.pyfloat) :
  nonfinite.in_range (nonfinite.store_float position_min position_max x) = false
  <-> x = nonfinite.NotFinite nonfinite.NaN.
Proof.
  split.
  - destruct x as [q|[| |]]; [| | |reflexivity]; intros H; exfalso.
    + destruct (store_float_finite q) as (q' & E & Hq). rewrite E in H.
      pose proof (clamp_unit_range q) as [H1 H2].
      unfold nonfinite.in_range, nonfinite.fle, position_min, position_max in H.
      apply andb_false_iff in H.
      destruct H as [H|H]; apply negb_false_iff, ltb_lt in H; lra.
    + discriminate H.
    + discriminate H.
  - intros ->. reflexivity.
Qed.

(** C2 (as amended).  In a collection that the operators produce from
    the empty one with finite numbers, every guide has both position
    components in [-1, 1], and whatever mutation comes next the
    collection still has.  Every handler that stores a position stores
    [max(-1, min(1, v))] for its finite input [v]: a pointer motion in
    the modal handler of the move and of the drag-create operator, the
    guide made by drag-create and by add, and the guides that preset
    load, preset import and [custom_guides_data] make from their
    entries.  On a finite number the limits of the property and
    [max(-1, min(1, v))] agree; of all floats only NaN passes the limits
    and leaves the component outside [-1, 1]. *)
Theorem guide_positions_clamped (gs : list CustomGuide) (H : reachable gs) :
  List.Forall position_ok gs /\
  (forall gs', mutation gs gs' -> List.Forall position_ok gs') /\
  (forall (self : MoveOp) event g gs',
     type event = MOUSEMOVE -> gs !! guide self = Some g ->
     move_modal self gs event = (gs', Returned RUNNING_MODAL) ->
     exists g',
       gs' = <[guide self := g']> gs /\
       moved_to (frame_x self) (frame_y self) (frame_width self) (frame_height self)
         event g g') /\
  (forall (self : DragOp) event g gs',
     type event = MOUSEMOVE -> gs !! drag_guide self = Some g ->
     drag_modal self gs event = (gs', Returned RUNNING_MODAL) ->
     exists g',
       gs' = <[drag_guide self := g']> gs /\
       moved_to (drag_frame_x self) (drag_frame_y self) (drag_frame_width self)
         (drag_frame_height self) event g g') /\
  (forall render region ruler_size event gs' op,
     drag_invoke render region ruler_size gs event
       = (gs', Returned (RUNNING_MODAL, Some op)) ->
     exists f g val,
       invoke_frame render region = Some f /\ gs' = (gs ++ [g])%list /\
       ((orientation g = HORIZONTAL /\
         div (float (mouse_region_y event) - (rect_y f + rect_height f / 2))
             (rect_height f / 2) = Returned val /\
         position_y g = clamp_unit val /\ position_x g = 0) \/
        (orientation g = VERTICAL /\
         div (float (mouse_region_x event) - (rect_x f + rect_width f / 2))
             (rect_width f / 2) = Returned val /\
         position_x g = clamp_unit val /\ position_y g = 0))) /\
  (forall o, exists g,
     add_custom_guide o gs = (gs ++ [g])%list /\
     position_x g = clamp_unit 0 /\ position_y g = clamp_unit 0) /\
  (forall data gs',
     dict_has data "custom_guides" = true ->
     load_custom_guides data gs = (gs', Returned tt) ->
     exists items,
       iterate (dict_get data "custom_guides" PNone) = Returned items /\
       Forall2 loaded_from items gs') /\
  (forall json_loads value data gs',
     value <> ""%string -> json_loads value = Some data ->
     deserialize_guides json_loads gs value = (gs', Returned tt) ->
     exists items, iterate data = Returned items /\ Forall2 loaded_from items gs') /\
  (forall d key q,
     to_float (dict_get d key (PFloat 0)) = Returned q ->
     exists q',
       nonfinite.loaded_position (decoded_entries d) key
         = Returned (nonfinite.Finite q') /\
       q' == clamp_unit q) /\
  (forall x,
     nonfinite.in_range (nonfinite.store_float position_min position_max x) = false
     <-> x = nonfinite.NotFinite nonfinite.NaN).
Proof.
  pose proof (reachable_ok gs H) as Hok.
  split; [exact Hok|].
  split; [intros gs' Hm; exact (mutation_ok gs gs' Hm Hok)|].
  split; [intros self event g gs'; apply move_modal_positions|].
  split; [intros self event g gs'; apply drag_modal_positions|].
  split; [intros render region ruler_size event gs' op; apply drag_invoke_positions|].
  split; [intros o; eexists; split; [reflexivity|split; reflexivity]|].
  split; [intros data gs'; apply load_custom_guides_positions|].
  split; [intros json_loads value data gs'; apply deserialize_guides_positions|].
  split; [intros d key q; apply loaded_position_finite|].
  exact store_float_in_range.
Qed.

Lemma guide_positions_clamped_witness :
  reachable dragged_guides /\
  List.Forall position_ok dragged_guides /\
  clamp_unit (17 # 10) = 1 /\ clamp_unit (-3) = -1 /\ clamp_unit (1 # 4) = 1 # 4.
Proof.
  assert (R : reachable dragged_guides).
  { unfold dragged_guides.
    eapply reach_step; [|apply mut_move_modal].
    eapply reach_step; [|apply mut_add].
    apply reach_empty. }
  split; [exact R|].
  split; [exact (proj1 (guide_positions_clamped dragged_guides R))|].
  split; [reflexivity|]. split; reflexivity.
Defined.

(** A NaN under [position_x] of a preset entry is stored as it is: the
    component is then NaN, outside [-1, 1], while the finite [position_y]
    beside it is stored. *)
Lemma guide_positions_nan_counterexample :
  nonfinite.loaded_position nan_entry "position_x"
    = Returned (nonfinite.NotFinite nonfinite.NaN) /\
  nonfinite.in_range (nonfinite.NotFinite nonfinite.NaN) = false /\
  nonfinite.loaded_position nan_entry "position_y"
    = Returned (nonfinite.Finite (1 # 4)).
Proof.
  split; [reflexivity|]. split; reflexivity.
Qed.

End ClampProofs.

(** ** Toggle-all twice restores the switches *)
Section ToggleProofs.

Import py properties operators toggling.
Open Scope string_scope.

Lemma split_comma_free (x : string) :
  comma_free x = true -> split "," x = [x].
Proof.
  induction x as [|c x IH]; cbn [split comma_free]; [reflexivity|].
  intros H. apply andb_true_iff in H. destruct H as [Hc Hx].
  apply negb_true_iff in Hc. rewrite Hc, (IH Hx). reflexivity.
Qed.

Lemma split_app_comma (x rest : string) :
  comma_free x = true ->
  split "," (x ++ "," ++ rest) = x :: split "," rest.
Proof.
  induction x as [|c x IH]; intros H.
  - reflexivity.
  - cbn [comma_free] in H. apply andb_true_iff in H. destruct H as [Hc Hx].
    apply negb_true_iff in Hc.
    change (String c x ++ "," ++ rest) with (String c (x ++ "," ++ rest)).
    cbn [split]. rewrite Hc, (IH Hx). reflexivity.
Qed.

Lemma split_join (l : list string) :
  l <> [] -> Forall (fun x => comma_free x = true) l ->
  split "," (join "," l) = l.
Proof.
  induction l as [|x l IH]; intros Hne Hall; [congruence|].
  inversion Hall as [|? ? Hx Hl]; subst.
  destruct l as [|y l].
  - cbn [join]. apply split_comma_free. exact Hx.
  - change (join "," (x :: y :: l)) with (x ++ "," ++ join "," (y :: l)).
    rewrite split_app_comma by exact Hx.
    rewrite IH; [reflexivity|discriminate|exact Hl].
Qed.

Lemma join_nonempty (l : list string) :
  l <> [] -> Forall (fun x => x <> "") l -> join "," l <> "".
Proof.
  destruct l as [|x l]; intros Hne Hall; [congruence|].
  inversion Hall as [|? ? Hx Hl]; subst.
  destruct l as [|y l]; [exact Hx|].
  change (join "," (x :: y :: l)) with (x ++ "," ++ join "," (y :: l)).
  destruct x; [congruence|]. discriminate.
Qed.

(** Facts on the names of the toggles. *)
Lemma guide_props_declared (p : string) :
  In p guide_props ->
  exists b, declaration VSEGuidesSettings p = Some (BoolProperty b).
Proof.
  unfold guide_props. cbn [In]. intros H.
  repeat (destruct H as [<-|H]; [eexists; reflexivity|]). destruct H.
Qed.

Lemma guide_props_names (p : string) :
  In p guide_props ->
  comma_free p = true /\ p <> "" /\ p <> "stored_active_guides".
Proof.
  unfold guide_props. cbn [In]. intros H.
  repeat (destruct H as [<-|H]; [repeat split; (reflexivity || discriminate)|]).
  destruct H.
Qed.

Lemma guide_props_nodup : List.NoDup guide_props.
Proof.
  unfold guide_props.
  repeat (apply List.NoDup_cons;
          [cbn [In]; intros H;
           repeat (destruct H as [H|H]; [discriminate H|]); destruct H|]).
  apply List.NoDup_nil.
Qed.

Lemma attr_true_is_on (s : settings) (p : string) :
  In p guide_props -> attr_true s p = Returned (is_on s p).
Proof.
  intros Hp. destruct (guide_props_declared p Hp) as (b & Hd).
  unfold attr_true, getattr, is_on. rewrite Hd. cbn [bind].
  destruct (s !! p); reflexivity.
Qed.

Lemma setattr_toggle (s : settings) (p : string) (b : bool) :
  In p guide_props ->
  setattr s p (PBool b) = (<[p := VBool b]> s, Returned tt).
Proof.
  intros Hp. destruct (guide_props_declared p Hp) as (b0 & Hd).
  unfold setattr. rewrite Hd. reflexivity.
Qed.

Lemma is_on_insert (s : settings) (p q : string) (b : bool) :
  is_on (<[p := VBool b]> s) q = if decide (p = q) then b else is_on s q.
Proof.
  unfold is_on. rewrite lookup_insert. destruct (decide (p = q)); reflexivity.
Qed.

Lemma any_active_loop_spec (s : settings) (props : list string) :
  (forall p, In p props -> In p guide_props) ->
  any_active_loop s props = Returned (existsb (is_on s) props).
Proof.
  induction props as [|p props IH]; intros Hsub; cbn [any_active_loop existsb];
    [reflexivity|].
  rewrite attr_true_is_on by (apply Hsub; left; reflexivity). cbn [bind].
  destruct (is_on s p); [reflexivity|].
  apply IH. intros q Hq. apply Hsub. right. exact Hq.
Qed.

Lemma disable_loop_spec (props : list string) : forall (s : settings) (acc : list string),
  (forall p, In p props -> In p guide_props) -> List.NoDup props ->
  disable_loop props s acc
  = (switched_off props s, (acc ++ List.filter (is_on s) props)%list, Returned tt).
Proof.
  induction props as [|p props IH]; intros s acc Hsub Hnd;
    cbn [disable_loop switched_off fold_left List.filter].
  - rewrite app_nil_r. reflexivity.
  - inversion Hnd as [|? ? Hnotin Hnd']; subst.
    rewrite attr_true_is_on by (apply Hsub; left; reflexivity).
    destruct (is_on s p) eqn:E.
    + rewrite setattr_toggle by (apply Hsub; left; reflexivity).
      rewrite IH; [|intros q Hq; apply Hsub; right; exact Hq|exact Hnd'].
      assert (Hf : List.filter (is_on (<[p := VBool false]> s)) props
                   = List.filter (is_on s) props).
      { apply List.filter_ext_in. intros q Hq. rewrite is_on_insert.
        destruct (decide (p = q)) as [->|]; [contradiction|reflexivity]. }
      rewrite Hf, <- app_assoc. reflexivity.
    + apply IH; [intros q Hq; apply Hsub; right; exact Hq|exact Hnd'].
Qed.

Lemma switched_off_lookup (props : list string) : forall (s : settings) (q : string),
  ~ In q props -> switched_off props s !! q = s !! q.
Proof.
  unfold switched_off.
  induction props as [|p props IH]; intros s q Hq; cbn [fold_left]; [reflexivity|].
  rewrite IH by (intros H; apply Hq; right; exact H).
  destruct (is_on s p); [|reflexivity].
  apply lookup_insert_ne. intros ->. apply Hq. left. reflexivity.
Qed.

Lemma switched_off_is_on (props : list string) : forall (s : settings) (q : string),
  List.NoDup props ->
  is_on (switched_off props s) q = if in_dec string_dec q props then false else is_on s q.
Proof.
  induction props as [|p props IH]; intros s q Hnd; [reflexivity|].
  inversion Hnd as [|? ? Hnotin Hnd']; subst.
  change (switched_off (p :: props) s)
    with (switched_off props (if is_on s p then <[p := VBool false]> s else s)).
  rewrite IH by exact Hnd'.
  destruct (in_dec string_dec q props) as [Hin|Hnin];
    destruct (in_dec string_dec q (p :: props)) as [Hin'|Hnin']; try reflexivity.
  - exfalso. apply Hnin'. right. exact Hin.
  - destruct Hin' as [<-|Hin']; [|contradiction].
    destruct (is_on s p) eqn:E; [|exact E].
    rewrite is_on_insert. destruct (decide (p = p)); [reflexivity|congruence].
  - destruct (is_on s p) eqn:E; [|reflexivity].
    rewrite is_on_insert. destruct (decide (p = q)) as [->|]; [|reflexivity].
    exfalso. apply Hnin'. left. reflexivity.
Qed.

Lemma restore_loop_spec (l : list string) : forall (s : settings) (count : Z),
  (forall p, In p l -> In p guide_props) ->
  restore_loop l s count = (switched_on l s, (count + Z.of_nat (length l))%Z, Returned tt).
Proof.
  induction l as [|p l IH]; intros s count Hsub; cbn [restore_loop switched_on fold_left length].
  - rewrite Z.add_0_r. reflexivity.
  - assert (Hp : In p guide_props) by (apply Hsub; left; reflexivity).
    destruct (guide_props_declared p Hp) as (b & Hd).
    unfold hasattr. rewrite Hd.
    rewrite setattr_toggle by exact Hp.
    rewrite IH by (intros q Hq; apply Hsub; right; exact Hq).
    unfold switched_on. f_equal. f_equal. lia.
Qed.

Lemma switched_on_is_on (l : list string) : forall (s : settings) (q : string),
  is_on (switched_on l s) q = if in_dec string_dec q l then true else is_on s q.
Proof.
  induction l as [|p l IH]; intros s q; [reflexivity|].
  change (switched_on (p :: l) s) with (switched_on l (<[p := VBool true]> s)).
  rewrite IH. rewrite is_on_insert.
  destruct (in_dec string_dec q l) as [Hin|Hnin];
    destruct (in_dec string_dec q (p :: l)) as [Hin'|Hnin']; try reflexivity.
  - exfalso. apply Hnin'. right. exact Hin.
  - destruct Hin' as [<-|Hin']; [|contradiction].
    destruct (decide (p = p)); [reflexivity|congruence].
  - destruct (decide (p = q)) as [->|]; [|reflexivity].
    exfalso. apply Hnin'. left. reflexivity.
Qed.

Lemma is_on_stored (s : settings) (v : propval) (q : string) :
  In q guide_props -> is_on (<["stored_active_guides" := v]> s) q = is_on s q.
Proof.
  intros Hq. destruct (guide_props_names q Hq) as (_ & _ & Hne).
  unfold is_on. rewrite lookup_insert_ne by congruence. reflexivity.
Qed.

Lemma switched_on_lookup (l : list string) : forall (s : settings) (q : string),
  ~ In q l -> switched_on l s !! q = s !! q.
Proof.
  unfold switched_on.
  induction l as [|p l IH]; intros s q Hq; cbn [fold_left]; [reflexivity|].
  rewrite IH by (intros H; apply Hq; right; exact H).
  apply lookup_insert_ne. intros ->. apply Hq. left. reflexivity.
Qed.

(** C4.  From every settings state in which at least one of the 15
    visibility toggles is on, running the toggle-all operator twice
    finishes both times; after the first run every toggle is off, and
    after the second run each toggle reads as it did at the start.  With
    thirds and grid on, exactly those two are on again. *)
Theorem toggle_all_twice_restores :
  (forall s : settings,
      (exists p, In p guide_props /\ attr_true s p = Returned true) ->
      exists s1 s2,
        toggle_all_guides s = (s1, Returned FINISHED) /\
        toggle_all_guides s1 = (s2, Returned FINISHED) /\
        (forall p, In p guide_props -> attr_true s1 p = Returned false) /\
        (forall p, In p guide_props -> attr_true s2 p = attr_true s p)) /\
  (exists s1 s2,
      toggle_all_guides thirds_and_grid = (s1, Returned FINISHED) /\
      toggle_all_guides s1 = (s2, Returned FINISHED) /\
      List.filter (is_on s1) guide_props = [] /\
      List.filter (is_on s2) guide_props = ["show_thirds"; "show_grid"]).
Proof.
  assert (General : forall s : settings,
      (exists p, In p guide_props /\ attr_true s p = Returned true) ->
      exists s1 s2,
        toggle_all_guides s = (s1, Returned FINISHED) /\
        toggle_all_guides s1 = (s2, Returned FINISHED) /\
        (forall p, In p guide_props -> is_on s1 p = false) /\
        (forall p, In p guide_props -> is_on s2 p = is_on s p)).
  { intros s (p0 & Hp0 & Hon0).
    rewrite attr_true_is_on in Hon0 by exact Hp0. injection Hon0 as Hon0.
    set (active := List.filter (is_on s) guide_props).
    set (s1 := <["stored_active_guides" := VStr (join "," active)]>
                 (switched_off guide_props s)).
    set (s2 := switched_on active s1).
    assert (Hact_in : In p0 active) by (apply List.filter_In; split; assumption).
    assert (Hact_ne : active <> []) by (intros E; rewrite E in Hact_in; destruct Hact_in).
    assert (Hact_sub : forall p, In p active -> In p guide_props).
    { intros p Hp. apply List.filter_In in Hp. tauto. }
    assert (Hoff : forall p, In p guide_props -> is_on s1 p = false).
    { intros p Hp. unfold s1. rewrite is_on_stored by exact Hp.
      rewrite switched_off_is_on by exact guide_props_nodup.
      destruct (in_dec string_dec p guide_props); [reflexivity|contradiction]. }
    exists s1, s2. split; [|split; [|split]].
    - unfold toggle_all_guides.
      rewrite any_active_loop_spec by auto.
      assert (E : existsb (is_on s) guide_props = true).
      { apply existsb_exists. exists p0. split; assumption. }
      rewrite E.
      rewrite disable_loop_spec;
        [|auto|exact guide_props_nodup].
      cbn [app]. fold active. reflexivity.
    - unfold toggle_all_guides.
      rewrite any_active_loop_spec by auto.
      assert (E : existsb (is_on s1) guide_props = false).
      { apply not_true_is_false. intros H. apply existsb_exists in H.
        destruct H as (p & Hp & Hon). rewrite Hoff in Hon by exact Hp. discriminate. }
      rewrite E.
      assert (Hst : getattr s1 "stored_active_guides" = Returned (VStr (join "," active))).
      { unfold getattr, s1. cbn [declaration]. rewrite lookup_insert_eq. reflexivity. }
      rewrite Hst.
      assert (Hne : String.eqb (join "," active) "" = false).
      { apply String.eqb_neq. apply join_nonempty; [exact Hact_ne|].
        apply List.Forall_forall. intros p Hp.
        apply (guide_props_names p (Hact_sub p Hp)). }
      rewrite Hne. cbn [negb].
      rewrite split_join;
        [|exact Hact_ne|apply List.Forall_forall; intros p Hp;
                        apply (guide_props_names p (Hact_sub p Hp))].
      rewrite restore_loop_spec by exact Hact_sub.
      assert (Hc : (0 + Z.of_nat (length active) =? 0)%Z = false).
      { apply Z.eqb_neq. destruct active; [congruence|cbn [length]; lia]. }
      rewrite Hc. reflexivity.
    - exact Hoff.
    - intros p Hp. unfold s2. rewrite switched_on_is_on.
      destruct (in_dec string_dec p active) as [Hin|Hnin].
      + apply List.filter_In in Hin. symmetry. tauto.
      + rewrite Hoff by exact Hp.
        destruct (is_on s p) eqn:E; [|reflexivity].
        exfalso. apply Hnin. apply List.filter_In. split; assumption. }
  split.
  - intros s Hs. destruct (General s Hs) as (s1 & s2 & H1 & H2 & H3 & H4).
    exists s1, s2. split; [exact H1|]. split; [exact H2|]. split.
    + intros p Hp. rewrite attr_true_is_on by exact Hp. f_equal. apply H3. exact Hp.
    + intros p Hp. rewrite !attr_true_is_on by exact Hp. f_equal. apply H4. exact Hp.
  - destruct (General thirds_and_grid) as (s1 & s2 & H1 & H2 & H3 & H4).
    { exists "show_thirds". split; [left; reflexivity|]. vm_compute. reflexivity. }
    exists s1, s2. split; [exact H1|]. split; [exact H2|]. split.
    + destruct (List.filter (is_on s1) guide_props) as [|p l] eqn:E; [reflexivity|].
      assert (Hp : In p (List.filter (is_on s1) guide_props))
        by (rewrite E; left; reflexivity).
      apply List.filter_In in Hp. destruct Hp as [Hp Hon].
      rewrite H3 in Hon by exact Hp. discriminate.
    + rewrite (List.filter_ext_in (is_on s2) (is_on thirds_and_grid) guide_props H4).
      vm_compute. reflexivity.
Qed.

Lemma toggle_all_twice_restores_witness :
  exists s1 s2,
    toggle_all_guides thirds_and_grid = (s1, Returned FINISHED) /\
    toggle_all_guides s1 = (s2, Returned FINISHED) /\
    (forall p, In p guide_props -> attr_true s2 p = attr_true thirds_and_grid p).
Proof.
  destruct (proj1 toggle_all_twice_restores thirds_and_grid)
    as (s1 & s2 & H1 & H2 & _ & H4).
  - exists "show_thirds". split; [left; reflexivity|]. vm_compute. reflexivity.
  - exists s1, s2. split; [exact H1|]. split; [exact H2|]. exact H4.
Defined.

End ToggleProofs.

(** ** Presets touch the allow-listed fields only *)
Section PresetProofs.

Import py properties presets preset_fields.
Open Scope string_scope.

Lemma setattr_lookup_ne (s : settings) (p : string) (v : pyval) (f : string) :
  f <> p -> fst (setattr s p v) !! f = s !! f.
Proof.
  intros Hne. unfold setattr.
  destruct (declaration VSEGuidesSettings p) as [d|]; [|reflexivity].
  destruct (rna_assign d v); cbn [fst]; try reflexivity.
  apply lookup_insert_ne. congruence.
Qed.

Lemma apply_item_lookup (s : settings) (item : string * pyval) (f : string) :
  (f <> fst item \/ in_preset_properties (fst item) = false \/ hasattr (fst item) = false) ->
  apply_item s item !! f = s !! f.
Proof.
  destruct item as [p v]. cbn [fst]. intros H. unfold apply_item.
  destruct (in_preset_properties p && hasattr p) eqn:E; [|reflexivity].
  apply andb_true_iff in E. destruct E as [E1 E2].
  destruct H as [H|[H|H]]; [|congruence|congruence].
  destruct v; try (apply setattr_lookup_ne; exact H).
  destruct (declaration VSEGuidesSettings p); [|reflexivity].
  destruct (getattr s p); try reflexivity.
  destruct l; [reflexivity|].
  destruct (assign_items _ _ _ _); try reflexivity.
  apply lookup_insert_ne. congruence.
Qed.

Lemma dict_to_settings_lookup (data : list (string * pyval)) : forall (s : settings) (f : string),
  (forall item, In item data ->
     f <> fst item \/ in_preset_properties (fst item) = false \/ hasattr (fst item) = false) ->
  dict_to_settings data s !! f = s !! f.
Proof.
  unfold dict_to_settings.
  induction data as [|item data IH]; intros s f H; cbn [fold_left]; [reflexivity|].
  rewrite IH.
  - apply apply_item_lookup. apply H. left. reflexivity.
  - intros item' Hin. apply H. right. exact Hin.
Qed.

Lemma getattr_lookup (s s' : settings) (f : string) :
  s' !! f = s !! f -> getattr s' f = getattr s f.
Proof.
  intros H. unfold getattr. rewrite H. reflexivity.
Qed.

(** C5.  [dict_to_settings] changes no field other than those whose key
    is in the dictionary, in [PRESET_PROPERTIES] and declared on the
    settings class: every other field keeps its stored value, and reads
    as before.  Applying a dictionary that holds only [show_center] to a
    state with [show_thirds] on leaves [show_thirds] on and turns
    [show_center] on. *)
Theorem dict_to_settings_only_present_keys :
  (forall (data : list (string * pyval)) (s : settings) (f : string),
      ~ touched data f ->
      dict_to_settings data s !! f = s !! f /\
      getattr (dict_to_settings data s) f = getattr s f) /\
  getattr (dict_to_settings show_center_only thirds_on) "show_thirds"
    = Returned (VBool true) /\
  getattr (dict_to_settings show_center_only thirds_on) "show_center"
    = Returned (VBool true) /\
  getattr thirds_on "show_center" = Returned (VBool false).
Proof.
  split; [|split; [|split]]; try (vm_compute; reflexivity).
  intros data s f Hnt.
  assert (H : dict_to_settings data s !! f = s !! f).
  { apply dict_to_settings_lookup. intros item Hin.
    destruct (string_dec f (fst item)) as [->|Hne]; [|left; exact Hne].
    right.
    destruct (in_preset_properties (fst item)) eqn:E1; [|left; reflexivity].
    destruct (hasattr (fst item)) eqn:E2; [|right; reflexivity].
    exfalso. apply Hnt. split; [|split; assumption].
    apply in_map. exact Hin. }
  split; [exact H|apply getattr_lookup; exact H].
Qed.

Lemma dict_to_settings_only_present_keys_witness :
  getattr (dict_to_settings show_center_only thirds_on) "show_thirds"
    = getattr thirds_on "show_thirds".
Proof.
  apply (proj1 dict_to_settings_only_present_keys show_center_only thirds_on "show_thirds").
  intros (Hin & _). cbn in Hin. destruct Hin as [H|[]]. discriminate H.
Defined.

(** *** C10 *)

Lemma settings_to_dict_keys (s : settings) (k : string) (v : pyval) :
  In (k, v) (settings_to_dict s) ->
  In k PRESET_PROPERTIES /\ hasattr k = true.
Proof.
  unfold settings_to_dict. intros H. apply in_flat_map in H.
  destruct H as (p & Hp & Hin).
  destruct (hasattr p) eqn:E; [|destruct Hin].
  destruct (getattr s p) as [value|e|]; cbn [In] in Hin; [|destruct Hin|destruct Hin].
  destruct Hin as [Hin|[]].
  injection Hin as <- _. split; assumption.
Qed.

Lemma settings_to_dict_holds (s : settings) (k : string) :
  In k (map fst (settings_to_dict s)) ->
  In k PRESET_PROPERTIES /\ hasattr k = true.
Proof.
  intros H. apply in_map_iff in H. destruct H as ([k' v] & <- & Hin).
  cbn [fst]. exact (settings_to_dict_keys s k' v Hin).
Qed.

Lemma in_preset_properties_In (f : string) :
  in_preset_properties f = true <-> In f PRESET_PROPERTIES.
Proof.
  unfold in_preset_properties. rewrite existsb_exists. split.
  - intros (x & Hx & E). apply String.eqb_eq in E. subst. exact Hx.
  - intros H. exists f. split; [exact H|apply String.eqb_refl].
Qed.

Lemma unsaved_fields_facts (f : string) :
  In f unsaved_fields ->
  hasattr f = true /\ in_preset_properties f = false /\ f <> "active_preset".
Proof.
  unfold unsaved_fields. cbn [In]. intros H.
  repeat (destruct H as [<-|H]; [repeat split; (reflexivity || discriminate)|]).
  destruct H.
Qed.

Lemma dict_to_settings_skips (data : list (string * pyval)) (s : settings) (f : string) :
  in_preset_properties f = false \/ hasattr f = false ->
  dict_to_settings data s !! f = s !! f.
Proof.
  intros H. apply dict_to_settings_lookup. intros item _.
  destruct (string_dec f (fst item)) as [->|Hne]; [right; exact H|left; exact Hne].
Qed.

Lemma load_preset_lookup (preset_name : string) (data : list (string * pyval))
    (s : settings) (custom_guides : list CustomGuide) (f : string) :
  (in_preset_properties f = false \/ hasattr f = false) -> f <> "active_preset" ->
  fst (fst (load_preset preset_name data s custom_guides)) !! f = s !! f.
Proof.
  intros H Hne. unfold load_preset.
  destruct (load_custom_guides data custom_guides) as [g [u|e|]]; cbn [fst];
    try reflexivity.
  rewrite setattr_lookup_ne by exact Hne.
  apply dict_to_settings_skips. exact H.
Qed.

Lemma import_preset_lookup (data : list (string * pyval))
    (s : settings) (custom_guides : list CustomGuide) (f : string) :
  (in_preset_properties f = false \/ hasattr f = false) ->
  fst (fst (import_preset data s custom_guides)) !! f = s !! f.
Proof.
  intros H. unfold import_preset.
  destruct (load_custom_guides data custom_guides) as [g [u|e|]]; cbn [fst];
    try reflexivity.
  apply dict_to_settings_skips. exact H.
Qed.

(** C10.  [settings_to_dict] emits only keys that are in
    [PRESET_PROPERTIES] and declared on the settings class, and
    [dict_to_settings] leaves every other field as it was.  The seven
    fields [golden_triangle_scale], [golden_triangle_count],
    [vanishing_point_lines], [show_vanishing_point_grid],
    [vanishing_point_grid_count], [harmony_triangles_flip] and
    [diagonal_method_angle] are declared but not listed: they are never
    saved and read the same after [dict_to_settings], after the Load
    operator and after the Import operator.  [golden_triangle_fit] is
    listed but not declared: it is never saved, and an entry for it in a
    loaded dictionary is skipped. *)
Theorem preset_allow_list_frame :
  (forall (s : settings) (k : string) (v : pyval),
      In (k, v) (settings_to_dict s) ->
      In k PRESET_PROPERTIES /\ hasattr k = true) /\
  (forall (data : list (string * pyval)) (s : settings) (f : string),
      in_preset_properties f = false \/ hasattr f = false ->
      dict_to_settings data s !! f = s !! f) /\
  (forall f : string,
      In f unsaved_fields ->
      hasattr f = true /\ ~ In f PRESET_PROPERTIES /\
      (forall s, ~ In f (map fst (settings_to_dict s))) /\
      (forall data s, getattr (dict_to_settings data s) f = getattr s f) /\
      (forall preset_name data s custom_guides,
          getattr (fst (fst (load_preset preset_name data s custom_guides))) f
          = getattr s f) /\
      (forall data s custom_guides,
          getattr (fst (fst (import_preset data s custom_guides))) f = getattr s f)) /\
  (In "golden_triangle_fit" PRESET_PROPERTIES /\
   hasattr "golden_triangle_fit" = false /\
   (forall s, ~ In "golden_triangle_fit" (map fst (settings_to_dict s))) /\
   (forall v data s,
       dict_to_settings (("golden_triangle_fit", v) :: data) s
       = dict_to_settings data s)).
Proof.
  split; [exact settings_to_dict_keys|].
  split; [exact dict_to_settings_skips|].
  split.
  - intros f Hf. destruct (unsaved_fields_facts f Hf) as (H1 & H2 & H3).
    split; [exact H1|].
    assert (Hnot : ~ In f PRESET_PROPERTIES).
    { intros Hin. apply in_preset_properties_In in Hin. congruence. }
    split; [exact Hnot|].
    split; [intros s Hin; apply settings_to_dict_holds in Hin; tauto|].
    split; [intros data s; apply getattr_lookup, dict_to_settings_skips; left; exact H2|].
    split.
    + intros n data s g. apply getattr_lookup, load_preset_lookup; [left; exact H2|exact H3].
    + intros data s g. apply getattr_lookup, import_preset_lookup. left. exact H2.
  - split; [apply in_preset_properties_In; reflexivity|].
    split; [reflexivity|].
    split.
    + intros s Hin. apply settings_to_dict_holds in Hin. destruct Hin as [_ H].
      discriminate H.
    + intros v data s. reflexivity.
Qed.

Lemma preset_allow_list_frame_witness :
  getattr (dict_to_settings angle_entry thirds_on) "diagonal_method_angle"
  = getattr thirds_on "diagonal_method_angle".
Proof.
  destruct (proj1 (proj2 (proj2 preset_allow_list_frame)) "diagonal_method_angle")
    as (_ & _ & _ & H & _).
  - unfold unsaved_fields. cbn [In]. do 6 right. left. reflexivity.
  - exact (H angle_entry thirds_on).
Defined.

End PresetProofs.

(** ** Export geometry against the overlay *)
Section ExportProofs.

Import py drawing operators export_compare.
Open Scope Q_scope.

Lemma max_float_cases (w h : Z) :
  (max (float w) (float h) = float w /\ (h <= w)%Z) \/
  (max (float w) (float h) = float h /\ (w < h)%Z).
Proof.
  unfold max, float. destruct (ltb (inject_Z w) (inject_Z h)) eqn:E.
  - right. split; [reflexivity|]. apply ltb_lt in E. rewrite <- Zlt_Qlt in E. exact E.
  - left. split; [reflexivity|]. apply ltb_ge in E. rewrite <- Zle_Qle in E. exact E.
Qed.

Lemma diagonal_method_differs (M : MathLib) (settings : GuideSettings) (width height : Z) :
  (0 < width)%Z -> (0 < height)%Z ->
  unit_direction M (radians M (diagonal_method_angle settings)) ->
  ~ same_lines (diagonal_method_lines M settings (full_frame width height))
               (export_diagonal_method settings width height).
Proof.
  intros Hw Hh Hunit Hsame.
  unfold same_lines, diagonal_method_lines, export_diagonal_method in Hsame.
  cbn [map full_frame rect_x rect_y rect_width rect_height] in Hsame.
  inversion Hsame as [|a b la lb H1 _]; subst. clear Hsame.
  unfold seg_xy, line2_eq in H1. cbn [fst snd vx vy] in H1.
  destruct H1 as (_ & _ & Hx & Hy).
  unfold unit_direction in Hunit.
  set (c := cos M (radians M (diagonal_method_angle settings))) in *.
  set (s := sin M (radians M (diagonal_method_angle settings))) in *.
  assert (Hmin : float (Z.min width height) <= float width /\
                 float (Z.min width height) <= float height /\
                 0 < float (Z.min width height)).
  { unfold float. rewrite <- !Zle_Qle.
    change 0 with (inject_Z 0). rewrite <- Zlt_Qlt. lia. }
  destruct Hmin as (Hm1 & Hm2 & Hm3).
  set (m := float (Z.min width height)) in *.
  destruct (max_float_cases width height) as [[E Hle]|[E Hlt]]; rewrite E in Hx, Hy.
  - set (W := float width) in *. nra.
  - set (H := float height) in *. nra.
Qed.

Lemma harmony_flip_differs (settings : GuideSettings) (width height : Z) :
  (0 < width)%Z -> (0 < height)%Z ->
  harmony_triangles_flip settings = true ->
  length (harmony_triangles_lines settings (full_frame width height)) = 6%nat /\
  length (export_harmony_triangles settings width height) = 3%nat /\
  ~ same_lines (harmony_triangles_lines settings (full_frame width height))
               (export_harmony_triangles settings width height).
Proof.
  intros Hw Hh Hflip.
  assert (Hexp : length (export_harmony_triangles settings width height) = 3%nat).
  { unfold export_harmony_triangles.
    assert (E : (0 <? width * width + height * height)%Z = true)
      by (apply Z.ltb_lt; nia).
    rewrite E. reflexivity. }
  assert (Hpos : forall a b : Z, (0 < a)%Z -> (0 < b)%Z ->
            0 < (float a) * (float a) + (float b) * (float b)).
  { intros a b Ha Hb. unfold float.
    assert (0 < inject_Z a) by (change 0 with (inject_Z 0); rewrite <- Zlt_Qlt; exact Ha).
    assert (0 < inject_Z b) by (change 0 with (inject_Z 0); rewrite <- Zlt_Qlt; exact Hb).
    nra. }
  assert (Hlive : length (harmony_triangles_lines settings (full_frame width height)) = 6%nat).
  { unfold harmony_triangles_lines. rewrite Hflip.
    unfold add_harmony_lines, full_frame.
    cbn [rect_x rect_y rect_width rect_height vx vy].
    pose proof (Hpos width height Hw Hh) as Hp.
    assert (E1 : ltb 0 ((0 + float width - 0) * (0 + float width - 0) +
                        (0 + float height - 0) * (0 + float height - 0)) = true).
    { apply ltb_lt. nra. }
    assert (E2 : ltb 0 ((0 - (0 + float width)) * (0 - (0 + float width)) +
                        (0 + float height - 0) * (0 + float height - 0)) = true).
    { apply ltb_lt. nra. }
    rewrite E1, E2. reflexivity. }
  split; [exact Hlive|]. split; [exact Hexp|].
  intros Hsame. apply Forall2_length in Hsame.
  rewrite length_map in Hsame. lia.
Qed.

Lemma diagonal_method_direction_differs (M : MathLib) (settings : GuideSettings)
    (width height : Z) :
  (0 < width)%Z -> (0 < height)%Z ->
  ~ cos M (radians M (diagonal_method_angle settings))
    == sin M (radians M (diagonal_method_angle settings)) ->
  match diagonal_method_lines M settings (full_frame width height),
        export_diagonal_method settings width height with
  | a :: _, b :: _ => ~ parallel (seg_xy a) b
  | _, _ => False
  end.
Proof.
  intros Hw Hh Hne.
  unfold diagonal_method_lines, export_diagonal_method.
  cbn [full_frame rect_x rect_y rect_width rect_height seg_xy fst snd vx vy parallel].
  set (c := cos M (radians M (diagonal_method_angle settings))) in *.
  set (s := sin M (radians M (diagonal_method_angle settings))) in *.
  assert (Hm : 0 < float (Z.min width height)).
  { unfold float. change 0 with (inject_Z 0). rewrite <- Zlt_Qlt. lia. }
  set (m := float (Z.min width height)) in *.
  assert (HL : 0 < max (float width) (float height) * 2).
  { destruct (max_float_cases width height) as [[E _]|[E _]]; rewrite E;
      unfold float; [assert (0 < inject_Z width)|assert (0 < inject_Z height)];
      try (change 0 with (inject_Z 0); rewrite <- Zlt_Qlt; lia); lra. }
  set (L := max (float width) (float height) * 2) in *.
  intros Hpar. apply Hne.
  assert (E : (L * m) * c == (L * m) * s) by (ring_simplify; ring_simplify in Hpar; lra).
  apply Qmult_inj_l in E; [exact E|].
  intros Z0. assert (0 < L * m) by nra. lra.
Qed.

(** C6.  The export does not always draw the geometry of the overlay.
    Diagonal method: the overlay draws from each corner at
    [diagonal_method_angle] with length [2 * max(w, h)]; the export reads
    no angle and always draws to [min(w, h)] along the 45-degree
    direction, so whenever the configured direction is not the diagonal
    one (cos differs from sin) the first line of the overlay and the first
    line of the export are not parallel, and for every unit direction the
    two lists of lines differ.  Harmony triangles: with
    [harmony_triangles_flip] the overlay draws six lines and the export
    three. *)
Theorem export_geometry_differs_from_overlay :
  (forall (M : MathLib) (settings : GuideSettings) (width height : Z),
      (0 < width)%Z -> (0 < height)%Z ->
      ~ cos M (radians M (diagonal_method_angle settings))
        == sin M (radians M (diagonal_method_angle settings)) ->
      match diagonal_method_lines M settings (full_frame width height),
            export_diagonal_method settings width height with
      | a :: _, b :: _ => ~ parallel (seg_xy a) b
      | _, _ => False
      end) /\
  (forall (settings settings' : GuideSettings) (width height : Z),
      export_diagonal_method settings width height
      = export_diagonal_method settings' width height) /\
  (forall (M : MathLib) (settings : GuideSettings) (width height : Z),
      (0 < width)%Z -> (0 < height)%Z ->
      unit_direction M (radians M (diagonal_method_angle settings)) ->
      ~ same_lines (diagonal_method_lines M settings (full_frame width height))
                   (export_diagonal_method settings width height)) /\
  (forall (settings : GuideSettings) (width height : Z),
      (0 < width)%Z -> (0 < height)%Z ->
      harmony_triangles_flip settings = true ->
      length (harmony_triangles_lines settings (full_frame width height)) = 6%nat /\
      length (export_harmony_triangles settings width height) = 3%nat /\
      ~ same_lines (harmony_triangles_lines settings (full_frame width height))
                   (export_harmony_triangles settings width height)).
Proof.
  split; [apply diagonal_method_direction_differs|].
  split; [reflexivity|].
  split.
  - apply diagonal_method_differs.
  - apply harmony_flip_differs.
Qed.

Lemma export_geometry_differs_witness :
  match diagonal_method_lines fixed_direction default_settings (full_frame 1920 1080),
        export_diagonal_method default_settings 1920 1080 with
  | a :: _, b :: _ => ~ parallel (seg_xy a) b
  | _, _ => False
  end /\
  ~ same_lines (diagonal_method_lines fixed_direction default_settings (full_frame 1920 1080))
               (export_diagonal_method default_settings 1920 1080) /\
  ~ same_lines (harmony_triangles_lines flipped_settings (full_frame 1920 1080))
               (export_harmony_triangles flipped_settings 1920 1080).
Proof.
  split; [|split].
  - apply (proj1 export_geometry_differs_from_overlay fixed_direction default_settings
             1920%Z 1080%Z); [lia | lia | ].
    cbn. intros H. discriminate H.
  - apply (proj1 (proj2 (proj2 export_geometry_differs_from_overlay)));
      [lia | lia | reflexivity].
  - apply (proj2 (proj2 (proj2 export_geometry_differs_from_overlay))
             flipped_settings 1920%Z 1080%Z); [lia | lia | reflexivity].
Defined.

End ExportProofs.

(** ** The frame rectangle of the drag operators *)
Section FrameProofs.

Import py drawing operators framing.
Open Scope Q_scope.

(** C7.  With pixels that are not square the frame rectangle of the
    move operator's [invoke] is not the rectangle of
    [get_frame_coordinates]: for 1920 x 1080 with pixel aspect 2:1 in an
    unzoomed region, [invoke] takes the frame to be 1920 wide from
    x = -460, while the overlay is drawn 3840 wide from x = -1420. *)
Theorem invoke_frame_differs_with_pixel_aspect :
  invoke_frame anamorphic_render unzoomed_region
    = Some (mkRect (float (-460)) (float (-240)) (float 1920) (float 1080)) /\
  get_frame_coordinates anamorphic_render unzoomed_region
    = mkRect (float (-1420)) (float (-240)) (float 3840) (float 1080) /\
  invoke_frame anamorphic_render unzoomed_region
    <> Some (get_frame_coordinates anamorphic_render unzoomed_region).
Proof.
  split; [vm_compute; reflexivity|].
  split; [vm_compute; reflexivity|].
  vm_compute. intros H. discriminate H.
Qed.

(** X20.  With square pixels the two frame rectangles agree: when the pixel
    aspects are equal and no render dimension is zero, the frame that the
    move operator's [invoke] computes is the rectangle of
    [get_frame_coordinates]. *)
Theorem invoke_frame_square_pixels (render : RenderSettings) (region : Region) :
  view_respects_eq region ->
  resolution_x render <> 0%Z -> resolution_y render <> 0%Z ->
  pixel_aspect_x render == pixel_aspect_y render ->
  invoke_frame render region = Some (get_frame_coordinates render region).
Proof.
  intros Hview Hx Hy Hasp.
  unfold invoke_frame, get_frame_coordinates.
  apply Z.eqb_neq in Hx, Hy. rewrite Hx, Hy. cbn [orb].
  assert (Hpa : (if negb (is_zero (pixel_aspect_y render))
                 then pixel_aspect_x render / pixel_aspect_y render else 1) == 1).
  { destruct (is_zero (pixel_aspect_y render)) eqn:E; cbn [negb]; [reflexivity|].
    apply is_zero_false in E. rewrite Hasp. field. exact E. }
  set (pa := if negb (is_zero (pixel_aspect_y render))
             then pixel_aspect_x render / pixel_aspect_y render else 1) in *.
  assert (Hzx : is_zero (float (resolution_x render) * pa) = false).
  { apply is_zero_false. rewrite Hpa. unfold float.
    apply Z.eqb_neq in Hx. intros H. apply Hx.
    rewrite Qmult_1_r in H. unfold Qeq in H. cbn in H. lia. }
  assert (Hzy : is_zero (float (resolution_y render)) = false).
  { apply is_zero_false. unfold float.
    apply Z.eqb_neq in Hy. intros H. apply Hy.
    unfold Qeq in H. cbn in H. lia. }
  rewrite Hzx, Hzy. cbn [orb].
  assert (E1 : view_to_region region (float (- resolution_x render) / 2)
                 (float (- resolution_y render) / 2)
             = view_to_region region (- (float (resolution_x render) * pa) / 2)
                 (- float (resolution_y render) / 2)).
  { apply Hview; unfold float; rewrite ?inject_Z_opp, ?Hpa; field. }
  assert (E2 : view_to_region region (float (resolution_x render) / 2)
                 (float (resolution_y render) / 2)
             = view_to_region region (float (resolution_x render) * pa / 2)
                 (float (resolution_y render) / 2)).
  { apply Hview; unfold float; rewrite ?Hpa; field. }
  rewrite E1, E2. clear E1 E2.
  destruct (view_to_region region _ _) as [a b].
  destruct (view_to_region region _ _) as [c d].
  reflexivity.
Qed.

Lemma unzoomed_region_respects_eq : view_respects_eq unzoomed_region.
Proof.
  intros x x' y y' Hx Hy. cbn [view_to_region unzoomed_region].
  rewrite Hx, Hy. reflexivity.
Qed.

Lemma invoke_frame_square_pixels_witness :
  invoke_frame (mkRender 1920 1080 100 1 1) unzoomed_region
  = Some (get_frame_coordinates (mkRender 1920 1080 100 1 1) unzoomed_region).
Proof.
  apply invoke_frame_square_pixels.
  - exact unzoomed_region_respects_eq.
  - cbn. lia.
  - cbn. lia.
  - reflexivity.
Defined.


End FrameProofs.

(** ** Invalid serialized data leaves the collection alone *)
Section DeserializeProofs.

Import py properties serialization.
Open Scope string_scope.

Lemma deserialize_guides_early (json_loads : string -> option pyval)
    (custom_guides : list CustomGuide) (value : string) :
  value = "" \/ json_loads value = None ->
  deserialize_guides json_loads custom_guides value = (custom_guides, Returned tt).
Proof.
  intros H. unfold deserialize_guides.
  destruct (String.eqb value "") eqn:Ev; [reflexivity|].
  destruct H as [->|H]; [discriminate Ev|].
  rewrite H. reflexivity.
Qed.

Lemma deserialize_guides_decoded_plain (json_loads : string -> option pyval)
    (custom_guides : list CustomGuide) (value : string) :
  nonfinite.deserialize_guides_decoded
    (fun text => option_map nonfinite.Value (json_loads text)) custom_guides value
  = deserialize_guides json_loads custom_guides value.
Proof.
  unfold nonfinite.deserialize_guides_decoded, deserialize_guides.
  destruct (String.eqb value ""); [reflexivity|].
  destruct (json_loads value); reflexivity.
Qed.

(** C9 (as amended).  In generation 2, [deserialize_guides] (and with it
    the setter of [custom_guides_data]) returns the collection it was
    given, unchanged, when the text is empty or the decoder rejects it.
    A text that the decoder accepts is past the two returns: the
    collection is cleared before the items are read, so the outcome does
    not depend on the guides held before, and nothing is left when the
    decoded value cannot be iterated or is an empty list.  The same holds
    with a decoder that accepts the floats that are not finite: the text
    is past the returns, and a float that is not finite leaves nothing. *)
Theorem deserialize_guides_keeps_collection :
  forall (json_loads : string -> option pyval)
         (custom_guides : list CustomGuide) (value : string),
    (value = "" \/ json_loads value = None ->
     deserialize_guides json_loads custom_guides value
       = (custom_guides, Returned tt) /\
     set_custom_guides_data json_loads custom_guides value
       = (custom_guides, Returned tt)) /\
    (forall data,
       value <> "" -> json_loads value = Some data ->
       set_custom_guides_data json_loads custom_guides value
         = set_custom_guides_data json_loads [] value /\
       (forall e, iterate data = Raised e ->
          set_custom_guides_data json_loads custom_guides value = ([], Raised e)) /\
       (data = PList [] ->
          set_custom_guides_data json_loads custom_guides value = ([], Returned tt))) /\
    (forall lenient : string -> option nonfinite.decoded,
       (value = "" \/ lenient value = None ->
        nonfinite.deserialize_guides_decoded lenient custom_guides value
          = (custom_guides, Returned tt)) /\
       (forall x,
          value <> "" -> lenient value = Some (nonfinite.Float x) ->
          nonfinite.deserialize_guides_decoded lenient custom_guides value
            = ([], Raised TypeError))) /\
    nonfinite.deserialize_guides_decoded
      (fun text => option_map nonfinite.Value (json_loads text)) custom_guides value
    = deserialize_guides json_loads custom_guides value.
Proof.
  intros json_loads custom_guides value.
  split; [|split; [|split]].
  - intros H. split; apply deserialize_guides_early; exact H.
  - intros data Hv Hd.
    assert (Ev : String.eqb value "" = false).
    { apply String.eqb_neq. exact Hv. }
    unfold set_custom_guides_data, deserialize_guides. rewrite Ev, Hd.
    split; [reflexivity|]. split.
    + intros e He. rewrite He. reflexivity.
    + intros ->. reflexivity.
  - intros lenient. split.
    + intros H. unfold nonfinite.deserialize_guides_decoded.
      destruct (String.eqb value "") eqn:Ev; [reflexivity|].
      destruct H as [->|H]; [discriminate Ev|].
      rewrite H. reflexivity.
    + intros x Hv Hd.
      assert (Ev : String.eqb value "" = false).
      { apply String.eqb_neq. exact Hv. }
      unfold nonfinite.deserialize_guides_decoded. rewrite Ev, Hd. reflexivity.
  - apply deserialize_guides_decoded_plain.
Qed.

Lemma deserialize_guides_keeps_collection_witness :
  set_custom_guides_data json_loads_literals one_guide "{not json"
    = (one_guide, Returned tt) /\
  set_custom_guides_data json_loads_literals one_guide ""
    = (one_guide, Returned tt).
Proof.
  split.
  - apply (proj1 (deserialize_guides_keeps_collection
                    json_loads_literals one_guide "{not json")).
    right. reflexivity.
  - apply (proj1 (deserialize_guides_keeps_collection json_loads_literals one_guide "")).
    left. reflexivity.
Defined.

(** Texts that are not valid JSON, or not a list of guides, and wipe the
    collection all the same: [NaN], which Python's decoder accepts though
    it is not JSON, and the JSON documents [null] and [[]]. *)
Lemma deserialize_guides_wipes_counterexample :
  nonfinite.deserialize_guides_decoded json_loads_lenient one_guide "NaN"
    = ([], Raised TypeError) /\
  set_custom_guides_data json_loads_literals one_guide "null" = ([], Raised TypeError) /\
  set_custom_guides_data json_loads_literals one_guide "[]" = ([], Returned tt).
Proof.
  split; [reflexivity|]. split; reflexivity.
Qed.

End DeserializeProofs.

(** ** Arithmetic of clamping and division *)

(** Division by two written as a product, for the linear solvers. *)
Ltac halves := unfold Qdiv in *; change (/ 2) with (1 # 2) in *.

Section ExtraFacts.

Import py drawing properties operators positions.
Open Scope Q_scope.

Lemma leb_le (a b : Q) : leb a b = true <-> a <= b.
Proof. unfold leb. rewrite negb_true_iff. apply ltb_ge. Qed.

Lemma abs_nonneg (x : Q) : 0 <= abs x.
Proof. unfold abs. split_ltb; lra. Qed.

Lemma abs_zero (x : Q) : x == 0 -> abs x == 0.
Proof. intros H. unfold abs. split_ltb; lra. Qed.

Lemma clamp_unit_inside (v : Q) : -1 <= v -> v <= 1 -> clamp_unit v == v.
Proof.
  intros H1 H2.
  destruct (clamp_unit_cases v) as [[? ->]|[[? ->]|(? & ? & ->)]]; lra.
Qed.

Lemma clamp_unit_above (v : Q) : 1 <= v -> clamp_unit v == 1.
Proof.
  intros H. destruct (clamp_unit_cases v) as [[? ->]|[[? ->]|(? & ? & ->)]]; lra.
Qed.

Lemma clamp_unit_below (v : Q) : v <= -1 -> clamp_unit v == -1.
Proof.
  intros H. destruct (clamp_unit_cases v) as [[? ->]|[[? ->]|(? & ? & ->)]]; lra.
Qed.

Lemma half_nonzero (x : Q) : ~ x == 0 -> ~ x / 2 == 0.
Proof.
  intros H E. apply H.
  assert (E2 : x == x / 2 * 2) by field. rewrite E2, E. reflexivity.
Qed.

Lemma div_returned (a b v : Q) : div a b = Returned v -> ~ b == 0.
Proof.
  unfold div. destruct (is_zero b) eqn:E; [discriminate|].
  intros _. apply is_zero_false. exact E.
Qed.

End ExtraFacts.


(** ** Moving, dragging, adding and removing guides *)

Section HitTestProofs.

Import py drawing properties operators positions.
Import interaction.
Open Scope Q_scope.

Lemma hit_test_body_spec (f : rect) (mx my : Z) (i : nat) (g : CustomGuide) (h : hit) :
  hit_test_body f mx my i g h =
  if ltb (hit_distance f mx my g) (closest_distance h) && in_span f mx my g
  then mkHit (Some i) (hit_distance f mx my g) (Z.of_nat i)
  else h.
Proof.
  unfold hit_test_body, hit_distance, in_span, guide_screen_x, guide_screen_y.
  destruct (orientation g); reflexivity.
Qed.

Lemma hit_test_loop_found (f : rect) (mx my : Z) (guides : list CustomGuide) :
  forall (i : nat) (h : hit),
    found f mx my i guides h (hit_test_loop f mx my i guides h).
Proof.
  induction guides as [|g guides IH]; intros i h; cbn [hit_test_loop].
  - split; [lra|]. split; [intros k g Hk; discriminate Hk|left; reflexivity].
  - specialize (IH (S i) (hit_test_body f mx my i g h)).
    destruct IH as (Hle & Hall & Hwho).
    rewrite hit_test_body_spec in Hle, Hall, Hwho |- *.
    destruct (ltb (hit_distance f mx my g) (closest_distance h)) eqn:Elt;
      [apply ltb_lt in Elt | apply ltb_ge in Elt];
      destruct (in_span f mx my g) eqn:Esp; cbn [andb] in *.
    + cbn [closest_distance] in Hle.
      split; [lra|]. split.
      * intros [|k] g' Hk Hs; cbn in Hk.
        -- injection Hk as <-. exact Hle.
        -- exact (Hall k g' Hk Hs).
      * right. destruct Hwho as [->|(k & g' & Hk & -> & Hs & Hd)].
        -- exists 0%nat, g. rewrite Nat.add_0_r.
           split; [reflexivity|]. split; [reflexivity|]. split; assumption.
        -- exists (S k), g'. rewrite Nat.add_succ_r.
           split; [exact Hk|]. split; [reflexivity|]. split; [exact Hs|].
           cbn [closest_distance] in Hd. lra.
    + split; [exact Hle|]. split.
      * intros [|k] g' Hk Hs; cbn in Hk.
        -- injection Hk as <-. congruence.
        -- exact (Hall k g' Hk Hs).
      * destruct Hwho as [->|(k & g' & Hk & -> & Hs & Hd)]; [left; reflexivity|].
        right. exists (S k), g'. rewrite Nat.add_succ_r. auto.
    + split; [exact Hle|]. split.
      * intros [|k] g' Hk Hs; cbn in Hk.
        -- injection Hk as <-. lra.
        -- exact (Hall k g' Hk Hs).
      * destruct Hwho as [->|(k & g' & Hk & -> & Hs & Hd)]; [left; reflexivity|].
        right. exists (S k), g'. rewrite Nat.add_succ_r. auto.
    + split; [exact Hle|]. split.
      * intros [|k] g' Hk Hs; cbn in Hk.
        -- injection Hk as <-. congruence.
        -- exact (Hall k g' Hk Hs).
      * destruct Hwho as [->|(k & g' & Hk & -> & Hs & Hd)]; [left; reflexivity|].
        right. exists (S k), g'. rewrite Nat.add_succ_r. auto.
Qed.

(** X1.  The move operator goes modal exactly on a guide that passes the hit
    test: the pointer is within the frame along the guide, the guide is
    less than 5 pixels away, and no guide in reach is nearer; the operator
    remembers the frame, the guide's index and its position.  With no such
    guide the click is passed through, and with a render dimension of zero
    the operator is cancelled; in both cases the settings are left alone. *)
Theorem move_invoke_picks_nearest (render : RenderSettings) (region : Region)
    (custom_guides : list CustomGuide) (vse_guides : settings) (event : Event) :
  let mx := mouse_region_x event in
  let my := mouse_region_y event in
  match move_invoke render region custom_guides vse_guides event with
  | (RUNNING_MODAL, Some op, s') =>
      exists f g,
        invoke_frame render region = Some f /\
        custom_guides !! guide op = Some g /\
        guide_index op = Z.of_nat (guide op) /\
        in_span f mx my g = true /\
        hit_distance f mx my g < 5 /\
        (forall k g', custom_guides !! k = Some g' -> in_span f mx my g' = true ->
           hit_distance f mx my g <= hit_distance f mx my g') /\
        op = mkMoveOp (rect_x f) (rect_y f) (rect_width f) (rect_height f)
               (guide op) (guide_index op) (position_x g) (position_y g) /\
        getattr s' "active_guide_index" = Returned (VInt (guide_index op))
  | (PASS_THROUGH, None, s') =>
      s' = vse_guides /\
      exists f,
        invoke_frame render region = Some f /\
        forall k g', custom_guides !! k = Some g' -> in_span f mx my g' = true ->
          5 <= hit_distance f mx my g'
  | (CANCELLED, None, s') =>
      s' = vse_guides /\ invoke_frame render region = None
  | _ => False
  end.
Proof.
  intros mx my. unfold move_invoke.
  destruct (invoke_frame render region) as [f|]; [|split; reflexivity].
  cbv zeta.
  pose proof (hit_test_loop_found f mx my custom_guides 0 (mkHit None 5 (-1)))
    as (Hle & Hall & Hwho).
  fold mx my.
  destruct Hwho as [E|(k & g & Hk & E & Hs & Hd)]; rewrite E in *;
    cbn [closest_guide closest_distance closest_index] in *.
  - split; [reflexivity|]. exists f. split; [reflexivity|exact Hall].
  - cbn [Nat.add]. rewrite Hk.
    exists f, g. cbn [guide guide_index].
    split; [reflexivity|]. split; [exact Hk|]. split; [reflexivity|].
    split; [exact Hs|]. split; [exact Hd|]. split; [exact Hall|].
    split; [reflexivity|].
    unfold setattr, getattr. cbn [declaration VSEGuidesSettings String.eqb Ascii.eqb Bool.eqb].
    vm_compute declaration. cbn [rna_assign to_int bind clamp_int fst].
    rewrite lookup_insert_eq. reflexivity.
Qed.

End HitTestProofs.

Section DragProofs.

Import py drawing properties operators positions.
Import interaction.
Open Scope Q_scope.

(** X2.  A pointer motion puts the guide under the pointer: in a frame of
    positive size, after the handler has moved a guide, the guide's screen
    coordinate is the pointer's when the pointer is over the frame, and the
    nearest frame edge when it is beyond. *)
Theorem drag_to_mouse_follows_pointer (f : rect) (event : Event)
    (g g' : CustomGuide) :
  0 < rect_width f -> 0 < rect_height f ->
  drag_to_mouse (rect_x f) (rect_y f) (rect_width f) (rect_height f) event g
    = Returned g' ->
  let mx := float (mouse_region_x event) in
  let my := float (mouse_region_y event) in
  match orientation g with
  | HORIZONTAL =>
      guide_screen_y f g' == max (rect_y f) (min (rect_y f + rect_height f) my) /\
      guide_screen_x f g' == guide_screen_x f g
  | VERTICAL =>
      guide_screen_x f g' == max (rect_x f) (min (rect_x f + rect_width f) mx) /\
      guide_screen_y f g' == guide_screen_y f g
  end.
Proof.
  intros Hw Hh E mx my.
  pose proof (drag_to_mouse_positions _ _ _ _ _ _ _ E) as H.
  unfold guide_screen_x, guide_screen_y.
  destruct (orientation g); destruct H as (val & Hd & Hp & Hq);
    rewrite div_nonzero in Hd by (apply half_nonzero; lra); injection Hd as <-;
    rewrite Hp, Hq; (split; [|reflexivity]); fold mx my.
  - set (v := (my - (rect_y f + rect_height f / 2)) / (rect_height f / 2)).
    assert (Hv : v * (rect_height f / 2) == my - (rect_y f + rect_height f / 2)).
    { unfold v. field. lra. }
    unfold min.
    destruct (ltb my (rect_y f + rect_height f)) eqn:E1;
      [apply ltb_lt in E1 | apply ltb_ge in E1]; unfold max;
      destruct (clamp_unit_cases v) as [[Hc ->]|[[Hc ->]|(Hc1 & Hc2 & ->)]];
      split_ltb; halves; nra.
  - set (v := (mx - (rect_x f + rect_width f / 2)) / (rect_width f / 2)).
    assert (Hv : v * (rect_width f / 2) == mx - (rect_x f + rect_width f / 2)).
    { unfold v. field. lra. }
    unfold min.
    destruct (ltb mx (rect_x f + rect_width f)) eqn:E1;
      [apply ltb_lt in E1 | apply ltb_ge in E1]; unfold max;
      destruct (clamp_unit_cases v) as [[Hc ->]|[[Hc ->]|(Hc1 & Hc2 & ->)]];
      split_ltb; halves; nra.
Qed.

Lemma drag_to_mouse_follows_pointer_witness :
  match drag_to_mouse 100 50 800 450 (mkEvent MOUSEMOVE OTHER_VALUE 600 300)
          (set_orientation new_guide VERTICAL) with
  | Returned g' => guide_screen_x (mkRect 100 50 800 450) g' == 600
  | _ => False
  end.
Proof.
  destruct (drag_to_mouse 100 50 800 450 (mkEvent MOUSEMOVE OTHER_VALUE 600 300)
              (set_orientation new_guide VERTICAL)) as [g'| |] eqn:E;
    [|discriminate E|discriminate E].
  pose proof (drag_to_mouse_follows_pointer (mkRect 100 50 800 450)
                (mkEvent MOUSEMOVE OTHER_VALUE 600 300)
                (set_orientation new_guide VERTICAL) g') as H.
  cbn [rect_x rect_y rect_width rect_height] in H.
  destruct H as [H _]; [reflexivity | reflexivity | exact E | ].
  rewrite H. reflexivity.
Defined.







(** While the drag-from-ruler operator runs, the guide it made stays the
    last of the collection. *)
Lemma drag_modal_run_moves (self : DragOp) (gs : list CustomGuide) (moves : list Event) :
  drag_guide self = length gs ->
  List.Forall is_mousemove moves ->
  forall (rest : list Event) (g : CustomGuide),
    match orientation g with
    | HORIZONTAL => ~ drag_frame_height self == 0
    | VERTICAL => ~ drag_frame_width self == 0
    end ->
    exists g',
      drag_modal_run self (moves ++ rest)%list (gs ++ [g])%list
        = drag_modal_run self rest (gs ++ [g'])%list /\
      orientation g' = orientation g.
Proof.
  intros Hi Hmoves.
  induction Hmoves as [|event moves Hev _ IH]; intros rest g Hdiv.
  - exists g. split; reflexivity.
  - assert (Hl : (gs ++ [g])%list !! drag_guide self = Some g).
    { rewrite Hi. apply list_lookup_middle. reflexivity. }
    assert (Hstep : exists g1,
               drag_modal self (gs ++ [g])%list event = ((gs ++ [g1])%list, Returned RUNNING_MODAL) /\
               orientation g1 = orientation g).
    { unfold drag_modal. rewrite Hev, Hl. unfold drag_to_mouse.
      destruct (orientation g) eqn:Eo; cbv zeta;
        rewrite div_nonzero by (apply half_nonzero; exact Hdiv); cbn [bind];
        eexists;
        (split; [rewrite Hi; rewrite <- (Nat.add_0_r (length gs)) at 1;
                 rewrite insert_app_r; reflexivity
                |cbn; exact Eo]). }
    destruct Hstep as (g1 & E1 & Ho1).
    destruct (IH rest g1) as (g2 & E2 & Ho2).
    { rewrite Ho1. exact Hdiv. }
    exists g2. split; [|congruence].
    cbn [app drag_modal_run]. rewrite E1. exact E2.
Qed.

(** X4.  Cancelling a drag from the ruler removes the guide it made: after any
    number of pointer motions, a right click or Escape ends the operator
    with [CANCELLED] and the collection is exactly the one from before the
    drag. *)
Theorem drag_cancel_removes_guide (render : RenderSettings) (region : Region)
    (ruler_size : Z) (gs gs1 : list CustomGuide) (event : Event) (op : DragOp)
    (moves : list Event) (cancel : Event) :
  drag_invoke render region ruler_size gs event
    = (gs1, Returned (RUNNING_MODAL, Some op)) ->
  List.Forall is_mousemove moves -> is_cancel cancel ->
  drag_modal_run op (moves ++ [cancel]) gs1 = (gs, Returned CANCELLED).
Proof.
  intros E Hmoves Hcancel.
  assert (H : exists g, gs1 = (gs ++ [g])%list /\ drag_guide op = length gs /\
             match orientation g with
             | HORIZONTAL => ~ drag_frame_height op == 0
             | VERTICAL => ~ drag_frame_width op == 0
             end).
  { unfold drag_invoke in E.
    destruct (invoke_frame render region) as [f|]; [|discriminate].
    cbv zeta in E.
    match type of E with context [if negb ?b then _ else _] => destruct b end;
      cbn [negb] in E; [|discriminate].
    match type of E with context [if ?b then _ else _] => destruct b end;
      match type of E with context [div ?a ?b] => destruct (div a b) as [val| |] eqn:Ed end;
      try discriminate; injection E as <- <-;
      eexists; (split; [reflexivity|]); (split; [reflexivity|]);
      cbn [orientation set_position_x set_position_y set_orientation
           drag_frame_height drag_frame_width];
      intros Hz; apply (div_returned _ _ _ Ed); halves; rewrite Hz; reflexivity. }
  destruct H as (g & -> & Hi & Hdiv).
  destruct (drag_modal_run_moves op gs moves Hi Hmoves [cancel] g Hdiv)
    as (g' & -> & _).
  cbn [drag_modal_run]. unfold drag_modal.
  rewrite Hi, list_lookup_middle by reflexivity.
  assert (Hrm : collection_remove (gs ++ [g'])%list (Z.of_nat (length (gs ++ [g'])%list) - 1) = gs).
  { unfold collection_remove. rewrite length_app. cbn [length].
    destruct (Z.of_nat (length gs + 1) - 1 <? 0)%Z eqn:Eneg; [apply Z.ltb_lt in Eneg; lia|].
    replace (Z.to_nat (Z.of_nat (length gs + 1) - 1)) with (length gs) by lia.
    rewrite delete_middle. apply app_nil_r. }
  rewrite Hrm.
  destruct Hcancel as [-> | ->]; destruct (value cancel); reflexivity.
Qed.

Lemma drag_cancel_removes_guide_witness :
  match drag_invoke (mkRender 1920 1080 100 1 1) framing.unzoomed_region 30 []
          (mkEvent LEFTMOUSE PRESS 500 850) with
  | (gs1, Returned (RUNNING_MODAL, Some op)) =>
      drag_modal_run op
        [mkEvent MOUSEMOVE OTHER_VALUE 500 400; mkEvent ESC PRESS 500 400] gs1
      = ([], Returned CANCELLED)
  | _ => False
  end.
Proof.
  destruct (drag_invoke (mkRender 1920 1080 100 1 1) framing.unzoomed_region 30 []
              (mkEvent LEFTMOUSE PRESS 500 850)) as [gs1 [[[] [op|]]| |]] eqn:E;
    try (vm_compute in E; discriminate E).
  apply (drag_cancel_removes_guide _ _ _ _ _ _ _
           [mkEvent MOUSEMOVE OTHER_VALUE 500 400] (mkEvent ESC PRESS 500 400) E).
  - repeat constructor.
  - right. reflexivity.
Defined.

End DragProofs.

Section ListOperatorProofs.

Import py drawing properties operators positions.
Import interaction.
Open Scope Q_scope.

(** X5.  Adding a guide and removing the last entry gives the collection back;
    removing at an index outside the collection changes nothing; removing
    inside it drops exactly that entry; and an added guide is centred and
    named after the new length of the collection. *)
Theorem add_remove_custom_guide (gs : list CustomGuide) :
  (forall o, remove_custom_guide (Z.of_nat (length gs)) (add_custom_guide o gs) = gs) /\
  (forall index, (index < 0 \/ Z.of_nat (length gs) <= index)%Z ->
     remove_custom_guide index gs = gs) /\
  (forall i g, gs !! i = Some g ->
     remove_custom_guide (Z.of_nat i) gs = (take i gs ++ drop (S i) gs)%list /\
     length (remove_custom_guide (Z.of_nat i) gs) = (length gs - 1)%nat) /\
  (forall o,
     add_custom_guide o gs
     = (gs ++ [mkGuide (str_of_nat (length gs + 1)) (clamp_unit 0) (clamp_unit 0) 0 o
                 (color new_guide)])%list).
Proof.
  split; [|split; [|split]].
  - intros o. unfold add_custom_guide, remove_custom_guide, collection_remove.
    cbv zeta. rewrite length_app. cbn [length].
    destruct (0 <=? Z.of_nat (length gs))%Z eqn:E1; [|apply Z.leb_gt in E1; lia].
    destruct (Z.of_nat (length gs) <? Z.of_nat (length gs + 1))%Z eqn:E2;
      [|apply Z.ltb_ge in E2; lia].
    cbn [andb].
    destruct (Z.of_nat (length gs) <? 0)%Z eqn:E3; [apply Z.ltb_lt in E3; lia|].
    rewrite Nat2Z.id, delete_middle. apply app_nil_r.
  - intros index H. unfold remove_custom_guide.
    destruct (0 <=? index)%Z eqn:E1; [|reflexivity].
    destruct (index <? Z.of_nat (length gs))%Z eqn:E2; [|reflexivity].
    apply Z.leb_le in E1. apply Z.ltb_lt in E2. lia.
  - intros i g Hg.
    assert (Hlt : (i < length gs)%nat) by (eapply lookup_lt_Some; exact Hg).
    assert (E : remove_custom_guide (Z.of_nat i) gs = (take i gs ++ drop (S i) gs)%list).
    { unfold remove_custom_guide, collection_remove.
      destruct (0 <=? Z.of_nat i)%Z eqn:E1; [|apply Z.leb_gt in E1; lia].
      destruct (Z.of_nat i <? Z.of_nat (length gs))%Z eqn:E2; [|apply Z.ltb_ge in E2; lia].
      cbn [andb].
      destruct (Z.of_nat i <? 0)%Z eqn:E3; [apply Z.ltb_lt in E3; lia|].
      rewrite Nat2Z.id. apply delete_take_drop. }
    split; [exact E|].
    rewrite E, length_app, length_take, length_drop. lia.
  - intros o. reflexivity.
Qed.

Lemma add_remove_custom_guide_witness :
  remove_custom_guide 0 (add_custom_guide HORIZONTAL (add_custom_guide VERTICAL []))
  = (take 0 (add_custom_guide HORIZONTAL (add_custom_guide VERTICAL []))
     ++ drop 1 (add_custom_guide HORIZONTAL (add_custom_guide VERTICAL [])))%list.
Proof.
  apply (proj1 (proj2 (proj2 (add_remove_custom_guide
           (add_custom_guide HORIZONTAL (add_custom_guide VERTICAL [])))))
           0%nat (mkGuide "1" (clamp_unit 0) (clamp_unit 0) 0 VERTICAL (color new_guide))).
  reflexivity.
Defined.

End ListOperatorProofs.


(** ** Moving a guide up and down the list *)

Section ListProofs.

Import interaction.
Import py properties operators list_operators.
Import reordering.
Open Scope Q_scope.
Open Scope string_scope.

Lemma collection_move_up {A : Type} (before after : list A) (a b : A) :
  collection_move (before ++ a :: b :: after)
    (Z.of_nat (length before) + 1) (Z.of_nat (length before))
  = (before ++ b :: a :: after)%list.
Proof.
  unfold collection_move.
  assert (Hlen : length (before ++ a :: b :: after) = (length before + S (S (length after)))%nat).
  { rewrite length_app. reflexivity. }
  replace (_ && _ && _ && _)%bool with true
    by (symmetry; rewrite !andb_true_iff, !Z.leb_le, !Z.ltb_lt, Hlen; lia).
  replace (Z.to_nat (Z.of_nat (length before) + 1)) with (length before + 1)%nat by lia.
  rewrite Nat2Z.id.
  rewrite lookup_app_r by lia.
  replace (length before + 1 - length before)%nat with 1%nat by lia.
  cbn [lookup list_lookup].
  replace (delete (length before + 1)%nat (before ++ a :: b :: after)%list)
    with (before ++ a :: after)%list.
  - rewrite take_app_length, drop_app_length. reflexivity.
  - replace (before ++ a :: b :: after)%list with ((before ++ [a]) ++ b :: after)%list
      by (rewrite <- app_assoc; reflexivity).
    replace (length before + 1)%nat with (length (before ++ [a])%list)
      by (rewrite length_app; reflexivity).
    rewrite delete_middle, <- app_assoc. reflexivity.
Qed.

Lemma collection_move_down {A : Type} (before after : list A) (a b : A) :
  collection_move (before ++ b :: a :: after)
    (Z.of_nat (length before)) (Z.of_nat (length before) + 1)
  = (before ++ a :: b :: after)%list.
Proof.
  unfold collection_move.
  assert (Hlen : length (before ++ b :: a :: after) = (length before + S (S (length after)))%nat).
  { rewrite length_app. reflexivity. }
  replace (_ && _ && _ && _)%bool with true
    by (symmetry; rewrite !andb_true_iff, !Z.leb_le, !Z.ltb_lt, Hlen; lia).
  replace (Z.to_nat (Z.of_nat (length before) + 1)) with (length (before ++ [a])%list)
    by (rewrite length_app; cbn [length]; lia).
  rewrite Nat2Z.id, list_lookup_middle by reflexivity.
  rewrite delete_middle.
  replace (before ++ a :: after)%list with ((before ++ [a]) ++ after)%list
    by (rewrite <- app_assoc; reflexivity).
  rewrite take_app_length, drop_app_length, <- app_assoc. reflexivity.
Qed.

Lemma active_guide_index_set (s : settings) (index : Z) :
  setattr s "active_guide_index" (PInt index)
  = (<["active_guide_index" := VInt index]> s, Returned tt).
Proof. reflexivity. Qed.

Lemma active_guide_index_insert (s : settings) (index : Z) :
  active_guide_index (<["active_guide_index" := VInt index]> s) = Returned index.
Proof.
  unfold active_guide_index.
  change (getattr (<["active_guide_index" := VInt index]> s) "active_guide_index")
    with (Returned (match <["active_guide_index" := VInt index]> s
                           !! "active_guide_index" with
                    | Some v => v
                    | None => VInt 0
                    end)).
  rewrite lookup_insert_eq. reflexivity.
Qed.

(** X6.  Moving the active guide up swaps it with the guide above it and lets
    the active index follow it; moving it down afterwards brings back the
    list and the index. *)
Theorem move_guide_up_then_down (s : settings) (before after : list CustomGuide)
    (above active : CustomGuide) :
  active_guide_index s = Returned (Z.of_nat (length before) + 1)%Z ->
  let guides := (before ++ above :: active :: after)%list in
  let moved := (before ++ active :: above :: after)%list in
  exists s' s'',
    move_guide_up s guides = (s', moved, Returned FINISHED) /\
    active_guide_index s' = Returned (Z.of_nat (length before)) /\
    move_guide_down s' moved = (s'', guides, Returned FINISHED) /\
    active_guide_index s'' = Returned (Z.of_nat (length before) + 1)%Z.
Proof.
  intros Hidx guides moved. subst guides moved.
  exists (<["active_guide_index" := VInt (Z.of_nat (length before))]> s).
  exists (<["active_guide_index" := VInt (Z.of_nat (length before) + 1)]>
            (<["active_guide_index" := VInt (Z.of_nat (length before))]> s)).
  split; [|split; [|split]].
  - unfold move_guide_up. rewrite Hidx.
    replace (0 <? Z.of_nat (length before) + 1)%Z with true
      by (symmetry; apply Z.ltb_lt; lia).
    replace (Z.of_nat (length before) + 1 - 1)%Z with (Z.of_nat (length before)) by lia.
    rewrite collection_move_up, active_guide_index_set. reflexivity.
  - apply active_guide_index_insert.
  - unfold move_guide_down. rewrite active_guide_index_insert.
    replace (Z.of_nat (length before) <?
             Z.of_nat (length (before ++ active :: above :: after)) - 1)%Z with true
      by (symmetry; apply Z.ltb_lt; rewrite length_app; cbn [length]; lia).
    rewrite collection_move_down, active_guide_index_set. reflexivity.
  - apply active_guide_index_insert.
Qed.

Lemma move_guide_up_then_down_witness :
  exists s' s'',
    move_guide_up second_active three_guides
      = (s', [ mkGuide "b" (1 # 2) 0 0 VERTICAL [0; 1; 0; 1];
               mkGuide "a" 0 0 0 VERTICAL [1; 0; 0; 1];
               mkGuide "c" 0 (1 # 2) 0 HORIZONTAL [0; 0; 1; 1] ],
         Returned FINISHED) /\
    active_guide_index s' = Returned 0%Z /\
    move_guide_down s' [ mkGuide "b" (1 # 2) 0 0 VERTICAL [0; 1; 0; 1];
               mkGuide "a" 0 0 0 VERTICAL [1; 0; 0; 1];
               mkGuide "c" 0 (1 # 2) 0 HORIZONTAL [0; 0; 1; 1] ]
      = (s'', three_guides, Returned FINISHED) /\
    active_guide_index s'' = Returned 1%Z.
Proof.
  apply (move_guide_up_then_down second_active []
           [mkGuide "c" 0 (1 # 2) 0 HORIZONTAL [0; 0; 1; 1]]
           (mkGuide "a" 0 0 0 VERTICAL [1; 0; 0; 1])
           (mkGuide "b" (1 # 2) 0 0 VERTICAL [0; 1; 0; 1])).
  reflexivity.
Defined.

End ListProofs.


(** ** Toggle-all from nothing, and the dispatch of the overlay *)

(** Membership in a list given by its elements. *)
Ltac in_disj := first [reflexivity | left; in_disj | right; in_disj].
Ltac in_list := cbn [In]; in_disj.

Section ToggleMoreProofs.

Import py properties operators toggling overlay.
Import toggle_defaults.
Open Scope string_scope.

Lemma enable_defaults_eq (s : settings) :
  enable_defaults s
  = <["show_custom_guides" := VBool true]> (<["show_thirds" := VBool true]> s).
Proof. reflexivity. Qed.

Lemma setattr_stored (s : settings) (v : string) :
  setattr s "stored_active_guides" (PStr v)
  = (<["stored_active_guides" := VStr v]> s, Returned tt).
Proof. reflexivity. Qed.

Lemma getattr_stored (s : settings) :
  getattr s "stored_active_guides"
  = Returned (match s !! "stored_active_guides" with
              | Some v => v
              | None => VStr ""
              end).
Proof. reflexivity. Qed.

(** X7.  With every guide off and nothing remembered (the remembered
    list is the empty string, as on the first run), the toggle-all
    operator switches on the rule of thirds and the custom guide lines,
    leaves the other toggles off and changes no other field. *)
Theorem toggle_all_enables_defaults (s : settings) :
  (forall p, In p guide_props -> attr_true s p = Returned false) ->
  getattr s "stored_active_guides" = Returned (VStr "") ->
  exists s',
    toggle_all_guides s = (s', Returned FINISHED) /\
    (forall p, In p guide_props ->
       attr_true s' p = Returned (is_default_guide p)) /\
    (forall p, ~ In p guide_props -> s' !! p = s !! p).
Proof.
  intros Hoff Hstored.
  assert (Hison : forall p, In p guide_props -> is_on s p = false).
  { intros p Hp. specialize (Hoff p Hp).
    rewrite attr_true_is_on in Hoff by exact Hp. congruence. }
  exists (enable_defaults s).
  split; [|split].
  - unfold toggle_all_guides.
    rewrite any_active_loop_spec by auto.
    assert (E : existsb (is_on s) guide_props = false).
    { apply not_true_is_false. intros H. apply existsb_exists in H.
      destruct H as (p & Hp & Hon). rewrite Hison in Hon by exact Hp. discriminate. }
    rewrite E, Hstored. reflexivity.
  - intros p Hp. rewrite attr_true_is_on by exact Hp. f_equal.
    rewrite enable_defaults_eq, !is_on_insert, Hison by exact Hp.
    unfold is_default_guide.
    destruct (decide ("show_custom_guides" = p)) as [<-|H1]; [reflexivity|].
    destruct (decide ("show_thirds" = p)) as [<-|H2]; [reflexivity|].
    apply String.eqb_neq in H1, H2. rewrite String.eqb_sym in H1, H2.
    rewrite H1, H2. reflexivity.
  - intros p Hp. rewrite enable_defaults_eq.
    rewrite !lookup_insert_ne; [reflexivity| |];
      intros <-; apply Hp; in_list.
Qed.

Lemma toggle_all_enables_defaults_witness :
  exists s',
    toggle_all_guides all_off = (s', Returned FINISHED) /\
    attr_true s' "show_thirds" = Returned true /\
    attr_true s' "show_grid" = Returned false.
Proof.
  destruct (toggle_all_enables_defaults all_off) as (s' & E & H & _).
  - intros p Hp. cbn in Hp.
    repeat (destruct Hp as [<-|Hp]; [vm_compute; reflexivity|]). contradiction.
  - reflexivity.
  - exists s'. split; [exact E|]. split.
    + apply (H "show_thirds"). in_list.
    + apply (H "show_grid"). in_list.
Defined.

Lemma restore_loop_lookup (l : list string) : forall (s : settings) (count : Z) (p : string),
  ~ In p l -> fst (fst (restore_loop l s count)) !! p = s !! p.
Proof.
  induction l as [|n l IH]; intros s count p Hp; cbn [restore_loop]; [reflexivity|].
  assert (Hn : p <> n) by (intros ->; apply Hp; left; reflexivity).
  assert (Hl : ~ In p l) by (intros H; apply Hp; right; exact H).
  destruct (hasattr n); [|apply IH; exact Hl].
  pose proof (setattr_lookup_ne s n (PBool true) p Hn) as Hs.
  destruct (setattr s n (PBool true)) as [s1 [u|e|]]; cbn [fst] in *.
  - rewrite IH by exact Hl. exact Hs.
  - exact Hs.
  - exact Hs.
Qed.

(** X8.  The toggle-all operator changes nothing but guide toggles and its own
    memory: a field that is neither one of the 15 toggles, nor
    [stored_active_guides], nor named in the remembered list, keeps its
    stored value whatever the operator does. *)
Theorem toggle_all_frame (s : settings) (p : string) :
  ~ In p guide_props -> p <> "stored_active_guides" ->
  (forall stored, getattr s "stored_active_guides" = Returned (VStr stored) ->
     ~ In p (split "," stored)) ->
  fst (toggle_all_guides s) !! p = s !! p.
Proof.
  intros Hp Hne Hstored. unfold toggle_all_guides.
  rewrite any_active_loop_spec by auto.
  destruct (existsb (is_on s) guide_props).
  - rewrite disable_loop_spec by (auto using guide_props_nodup).
    cbn [app].
    pose proof (setattr_lookup_ne (switched_off guide_props s) "stored_active_guides"
                  (PStr (join "," (List.filter (is_on s) guide_props))) p Hne) as Hs.
    destruct (setattr (switched_off guide_props s) "stored_active_guides" _)
      as [s1 [u|e|]]; cbn [fst] in *;
      rewrite Hs; apply switched_off_lookup; exact Hp.
  - rewrite getattr_stored in *.
    destruct (match s !! "stored_active_guides" with
              | Some v => v | None => VStr "" end) as [| | | | |stored] eqn:Ev;
      try reflexivity.
    assert (Hthirds : forall s0 : settings, enable_defaults s0 !! p = s0 !! p).
    { intros s0. rewrite enable_defaults_eq.
      rewrite !lookup_insert_ne; [reflexivity| |];
        intros <-; apply Hp; in_list. }
    destruct (negb (String.eqb stored "")); [|apply Hthirds].
    pose proof (restore_loop_lookup (split "," stored) s 0 p (Hstored stored eq_refl)) as Hr.
    destruct (restore_loop (split "," stored) s 0) as [[s1 count] [u|e|]];
      cbn [fst] in *; try exact Hr.
    destruct (count =? 0)%Z; cbn [fst]; [rewrite Hthirds|]; exact Hr.
Qed.

Lemma toggle_all_frame_witness :
  fst (toggle_all_guides thirds_and_grid) !! "grid_divisions"
  = thirds_and_grid !! "grid_divisions".
Proof.
  apply (toggle_all_frame thirds_and_grid "grid_divisions").
  - cbn. intros H. repeat (destruct H as [H|H]; [discriminate H|]). exact H.
  - discriminate.
  - intros stored E. injection E as <-. cbn. intros [H|[]]. discriminate H.
Defined.

Lemma read_all_spec (s : settings) (props : list string) :
  (forall p, In p props -> In p guide_props) ->
  read_all s props = Returned (map (is_on s) props).
Proof.
  induction props as [|p props IH]; intros H; cbn [read_all map]; [reflexivity|].
  rewrite attr_true_is_on by (apply H; left; reflexivity). cbn [bind].
  rewrite IH by (intros q Hq; apply H; right; exact Hq). reflexivity.
Qed.

Lemma any_of_spec (s : settings) (props : list string) :
  (forall p, In p props -> In p guide_props) ->
  any_of s props = Returned (existsb (is_on s) props).
Proof.
  intros H. unfold any_of. rewrite read_all_spec by exact H. cbn [bind].
  f_equal. induction props as [|p props IH]; [reflexivity|].
  cbn [map existsb]. rewrite IH by (intros q Hq; apply H; right; exact Hq).
  reflexivity.
Qed.

Lemma view_toggles_guide_props (p : string) :
  In p view_toggles <-> In p guide_props.
Proof.
  unfold view_toggles, guide_props.
  split; intros H; cbn [In] in H;
    repeat (destruct H as [H|H]; [subst p; in_list|]); contradiction.
Qed.

Lemma composition_toggles_sub (p : string) :
  In p composition_toggles -> In p guide_props.
Proof.
  unfold composition_toggles, guide_props.
  intros H; cbn [In] in H;
    repeat (destruct H as [H|H]; [subst p; in_list|]); contradiction.
Qed.

Lemma view_toggles_split (p : string) :
  In p view_toggles <->
  In p composition_toggles \/ p = "show_rulers" \/ p = "show_grid"
  \/ p = "show_custom_guides".
Proof.
  unfold view_toggles, composition_toggles.
  split; intros H; cbn [In] in H.
  - repeat (destruct H as [H|H]; [subst p; in_list|]); contradiction.
  - destruct H as [H|[->|[->| ->]]]; [|in_list..].
    cbn [In] in H.
    repeat (destruct H as [H|H]; [subst p; in_list|]); contradiction.
Qed.

Lemma draw_guides_view_spec (s : settings) (in_preview : bool) :
  draw_guides_view s in_preview =
  if negb (existsb (is_on s) view_toggles) then []
  else if negb in_preview then []
  else ((if is_on s "show_rulers" then [draw_rulers_base] else [])
        ++ (if is_on s "show_grid" then [draw_grid_call] else [])
        ++ (if existsb (is_on s) composition_toggles
            then [draw_composition_guides] else [])
        ++ (if is_on s "show_custom_guides" then [draw_custom_guides_call] else []))%list.
Proof.
  unfold draw_guides_view.
  rewrite any_of_spec by (intros p; apply view_toggles_guide_props).
  cbn [bind].
  destruct (negb (existsb (is_on s) view_toggles)); [reflexivity|].
  destruct (negb in_preview); [reflexivity|].
  rewrite !attr_true_is_on by in_list. cbn [bind].
  rewrite any_of_spec by exact composition_toggles_sub. reflexivity.
Qed.

(** X9.  The overlay handler and the toggle-all operator agree on what the
    guides are: in the preview the handler calls no drawing function
    exactly when all 15 toggles of the operator read false, and so after
    the operator has switched the guides off nothing is drawn. *)
Theorem draw_guides_view_nothing_when_off (s : settings) :
  (draw_guides_view s true = [] <->
   forall p, In p guide_props -> attr_true s p = Returned false) /\
  draw_guides_view s false = [] /\
  ((exists p, In p guide_props /\ attr_true s p = Returned true) ->
   forall in_preview,
     draw_guides_view (fst (toggle_all_guides s)) in_preview = []).
Proof.
  assert (Hiff : forall s0 : settings,
            existsb (is_on s0) view_toggles = false <->
            forall p, In p guide_props -> attr_true s0 p = Returned false).
  { intros s0. split.
    - intros E p Hp. rewrite attr_true_is_on by exact Hp. f_equal.
      apply not_true_is_false. intros Hon.
      assert (H : existsb (is_on s0) view_toggles = true).
      { apply existsb_exists. exists p. split; [|exact Hon].
        apply view_toggles_guide_props. exact Hp. }
      congruence.
    - intros H. apply not_true_is_false. intros E.
      apply existsb_exists in E. destruct E as (p & Hp & Hon).
      apply view_toggles_guide_props in Hp.
      specialize (H p Hp). rewrite attr_true_is_on in H by exact Hp. congruence. }
  split; [|split].
  - rewrite draw_guides_view_spec, <- Hiff.
    destruct (existsb (is_on s) view_toggles) eqn:E; cbn [negb].
    + split; [|discriminate]. intros Hnil. exfalso.
      apply existsb_exists in E. destruct E as (p & Hp & Hon).
      apply view_toggles_split in Hp.
      destruct Hp as [Hp|[->|[->| ->]]].
      * assert (Hc : existsb (is_on s) composition_toggles = true).
        { apply existsb_exists. exists p. split; assumption. }
        rewrite Hc in Hnil.
        destruct (is_on s "show_rulers"), (is_on s "show_grid"); discriminate Hnil.
      * rewrite Hon in Hnil. discriminate Hnil.
      * rewrite Hon in Hnil. destruct (is_on s "show_rulers"); discriminate Hnil.
      * rewrite Hon in Hnil.
        destruct (is_on s "show_rulers"), (is_on s "show_grid"),
          (existsb (is_on s) composition_toggles); discriminate Hnil.
    + split; reflexivity.
  - rewrite draw_guides_view_spec.
    destruct (negb (existsb (is_on s) view_toggles)); reflexivity.
  - intros (p0 & Hp0 & Hon0) in_preview.
    rewrite draw_guides_view_spec.
    assert (E : existsb (is_on (fst (toggle_all_guides s))) view_toggles = false).
    { apply Hiff. intros p Hp.
      unfold toggle_all_guides.
      rewrite any_active_loop_spec by auto.
      assert (Ea : existsb (is_on s) guide_props = true).
      { apply existsb_exists. exists p0. split; [exact Hp0|].
        rewrite attr_true_is_on in Hon0 by exact Hp0. congruence. }
      rewrite Ea, disable_loop_spec by (auto using guide_props_nodup).
      cbn [app]. rewrite setattr_stored. cbn [fst].
      rewrite attr_true_is_on by exact Hp. f_equal.
      rewrite is_on_stored by exact Hp.
      rewrite switched_off_is_on by exact guide_props_nodup.
      destruct (in_dec string_dec p guide_props); [reflexivity|contradiction]. }
    rewrite E. reflexivity.
Qed.

Lemma draw_guides_view_nothing_when_off_witness :
  draw_guides_view (fst (toggle_all_guides thirds_and_grid)) true = [].
Proof.
  apply (proj2 (proj2 (draw_guides_view_nothing_when_off thirds_and_grid))).
  exists "show_thirds". split; [left; reflexivity|]. vm_compute. reflexivity.
Defined.

End ToggleMoreProofs.


(** ** Spacing of the major ruler ticks *)

Section RulerSpacingProofs.

Import py drawing rulers.
Open Scope Q_scope.





End RulerSpacingProofs.


(** ** Clipped lines stay in the frame *)

Section ClipMoreProofs.

Import interaction.
Import py drawing properties operators positions clipping overlay.
Import frame_lines.
Open Scope Q_scope.

Lemma clip_line_to_rect_spec (r : rect) (p1 p2 : Vector) (fuel : nat) :
  0 <= rect_width r -> 0 <= rect_height r -> (5 <= fuel)%nat ->
  exists res : option segment,
    clip_line_to_rect fuel p1 p2 r = Returned res /\ clip_result_spec r p1 p2 res.
Proof.
  intros Hw Hh Hfuel.
  pose proof (clip_inv_start r p1 p2) as Hinv0.
  pose proof (rank_le_4 r p1 p2 _ _ _ Hinv0) as Hr.
  destruct (clip_loop_run r Hw Hh p1 p2 fuel _ _ _ Hinv0 ltac:(lia))
    as (acc & sf & t1 & t2 & Hrun & Hinv & Hbreak).
  exists (if acc then Some (mkVector (x1 sf) (y1 sf) 0, mkVector (x2 sf) (y2 sf) 0)
          else None).
  split.
  { unfold clip_line_to_rect. fold (clip_start r p1 p2). rewrite Hrun.
    destruct acc; reflexivity. }
  destruct Hinv as [Ht1 Ht12 Ht2 Hx1 Hy1 Hx2 Hy2 Hc1 Hc2 Hcomp He1 He2].
  destruct acc; unfold clip_result_spec, lerp.
  - apply break_true in Hbreak. destruct Hbreak as [Z1 Z2].
    rewrite Hc1 in Z1. rewrite Hc2 in Z2.
    apply code_zero_inside in Z1, Z2.
    cbn [vx vy vz]. split; [reflexivity|]. split; [reflexivity|].
    exists t1, t2. repeat (split; [assumption|]).
    split; [|split].
    + intros t Ht0 Ht1'. split; [apply Hcomp; assumption|].
      intros [Ha Hb].
      apply (lerp_inside r p1 p2 t1 t2 t (x1 sf) (y1 sf) (x2 sf) (y2 sf)); assumption.
    + intros Hout. destruct He1 as [[Ex Ey]|He1]; [|exact He1].
      exfalso. apply Hout. rewrite <- Ex, <- Ey. exact Z1.
    + intros Hout. destruct He2 as [[Ex Ey]|He2]; [|exact He2].
      exfalso. apply Hout. rewrite <- Ex, <- Ey. exact Z2.
  - apply break_false in Hbreak. rewrite Hc1, Hc2 in Hbreak.
    intros t Ht0 Ht1' Hin.
    destruct (Hcomp t Ht0 Ht1' Hin) as [Ha Hb].
    exact (shared_flag_outside r Hw Hh p1 p2 t1 t2 t _ _ _ _ Ha Hb Hx1 Hy1 Hx2 Hy2
             Hbreak Hin).
Qed.

Lemma inside_proper (r : rect) (x x' y y' : Q) :
  x == x' -> y == y' -> inside r x y -> inside r x' y'.
Proof. unfold inside. intros Ex Ey H. rewrite <- Ex, <- Ey. exact H. Qed.

(** A returned segment lies in the rectangle. *)
Lemma clip_result_within (r : rect) (p1 p2 q1 q2 : Vector) :
  clip_result_spec r p1 p2 (Some (q1, q2)) -> within r (q1, q2).
Proof.
  cbn [clip_result_spec]. intros (Hz1 & Hz2 & t1 & t2 & H1 & H12 & H2 &
                                  Hx1 & Hy1 & Hx2 & Hy2 & Hiff & _).
  unfold within. cbn [fst snd].
  split; [|split; [|split; assumption]].
  - apply (inside_proper r _ _ _ _ (Qeq_sym _ _ Hx1) (Qeq_sym _ _ Hy1)).
    apply Hiff; lra.
  - apply (inside_proper r _ _ _ _ (Qeq_sym _ _ Hx2) (Qeq_sym _ _ Hy2)).
    apply Hiff; lra.
Qed.

Lemma flat_flat (p : Vector) : vz p = 0 -> flat p = p.
Proof. destruct p as [x y z]. cbn. intros ->. reflexivity. Qed.

Lemma clip_within (r : rect) (l : segment) (n : nat) :
  within r l -> clip_line_to_rect (S n) (fst l) (snd l) r = Returned (Some l).
Proof.
  intros (H1 & H2 & Z1 & Z2).
  rewrite (clip_inside_both r _ _ n H1 H2), (flat_flat _ Z1), (flat_flat _ Z2).
  destruct l; reflexivity.
Qed.

(** X11.  Clipping is idempotent: a segment that [clip_line_to_rect] has
    returned is returned unchanged when it is clipped against the same
    rectangle again. *)
Theorem clip_line_to_rect_idempotent (r : rect) (p1 p2 q1 q2 : Vector) (fuel : nat) :
  0 <= rect_width r -> 0 <= rect_height r -> (5 <= fuel)%nat ->
  clip_line_to_rect fuel p1 p2 r = Returned (Some (q1, q2)) ->
  clip_line_to_rect fuel q1 q2 r = Returned (Some (q1, q2)).
Proof.
  intros Hw Hh Hfuel E.
  destruct (clip_line_to_rect_spec r p1 p2 fuel Hw Hh Hfuel) as (res & E' & Hspec).
  rewrite E in E'. injection E' as <-.
  apply clip_result_within in Hspec.
  destruct fuel as [|n]; [lia|].
  exact (clip_within r (q1, q2) n Hspec).
Qed.

Lemma clip_line_to_rect_idempotent_witness :
  match clip_line_to_rect 5 (mkVector (-50) 50 0) (mkVector 150 150 0) frame_100 with
  | Returned (Some (q1, q2)) =>
      clip_line_to_rect 5 q1 q2 frame_100 = Returned (Some (q1, q2))
  | _ => False
  end.
Proof.
  destruct (clip_line_to_rect 5 (mkVector (-50) 50 0) (mkVector 150 150 0) frame_100)
    as [[[q1 q2]|]| |] eqn:E; try (vm_compute in E; discriminate E).
  apply (clip_line_to_rect_idempotent frame_100 (mkVector (-50) 50 0)
           (mkVector 150 150 0) q1 q2 5%nat); [discriminate|discriminate|lia|exact E].
Defined.



Lemma draw_lines_within (frame : rect) (lines : list segment) (n : nat) :
  List.Forall (within frame) lines ->
  draw_lines (S n) true frame lines = draw_lines (S n) false frame lines.
Proof.
  induction 1 as [|[a b] lines Hl _ IH]; [reflexivity|].
  cbn [draw_lines].
  change a with (fst (a, b)) at 1. change b with (snd (a, b)) at 2.
  rewrite (clip_within frame (a, b) n Hl), IH. cbn [bind].
  destruct (draw_lines (S n) false frame lines); reflexivity.
Qed.

Ltac thirds := unfold Qdiv in *; change (/ 3) with (1 # 3) in *;
  change (/ 2) with (1 # 2) in *; change (/ golden) with (1000 # 1618) in *.

Lemma min_le_both (a b : Q) : min a b <= a /\ min a b <= b.
Proof. unfold min. split_ltb; lra. Qed.

Lemma min_nonneg (a b : Q) : 0 <= a -> 0 <= b -> 0 <= min a b.
Proof. unfold min. intros. split_ltb; lra. Qed.

(** X13.  The rule of thirds, the golden-ratio lines, the centre cross, the
    diagonals and the diagonal reciprocals never leave the frame: what is
    drawn for them is the same with [hide_guides_outside_frame] on and
    off. *)
Theorem fixed_guides_need_no_clipping (frame : rect) (fuel : nat) :
  0 <= rect_width frame -> 0 <= rect_height frame -> (1 <= fuel)%nat ->
  forall lines,
    In lines [thirds_lines frame; golden_lines frame; center_lines frame;
              diagonals_lines frame; diagonal_reciprocals_lines frame] ->
    draw_lines fuel true frame lines = draw_lines fuel false frame lines.
Proof.
  intros Hw Hh Hfuel lines Hin.
  destruct fuel as [|n]; [lia|].
  apply draw_lines_within.
  pose proof (min_le_both (rect_width frame) (rect_height frame)) as [Hm1 Hm2].
  pose proof (min_nonneg _ _ Hw Hh) as Hm0.
  cbn [In] in Hin.
  destruct Hin as [<-|[<-|[<-|[<-|[<-|[]]]]]];
    unfold thirds_lines, golden_lines, center_lines, diagonals_lines,
           diagonal_reciprocals_lines;
    repeat (apply List.Forall_cons; [unfold within, inside; cbn [fst snd vx vy vz];
                                     thirds; repeat split; try reflexivity; lra|]);
    apply List.Forall_nil.
Qed.

Lemma fixed_guides_need_no_clipping_witness :
  draw_lines 5 true frame_100 (thirds_lines frame_100)
  = draw_lines 5 false frame_100 (thirds_lines frame_100).
Proof.
  apply (fixed_guides_need_no_clipping frame_100 5%nat);
    [discriminate | discriminate | lia | left; reflexivity].
Defined.










End ClipMoreProofs.


(** ** The grid stays in the frame *)

Section GridProofs.

Import interaction.
Import py drawing properties operators clipping overlay.
Import grid_lines.
Open Scope Q_scope.

Lemma range_from_bounds (a b i : Z) :
  In i (range_from a b) -> (a <= i < b)%Z.
Proof.
  unfold range_from. intros H. apply in_map_iff in H.
  destruct H as (k & <- & Hk). apply in_seq in Hk. lia.
Qed.

Lemma range_from_length (a b : Z) :
  length (range_from a b) = Z.to_nat (b - a).
Proof. unfold range_from. rewrite length_map, length_seq. reflexivity. Qed.

Lemma float_le (a b : Z) : (a <= b)%Z -> float a <= float b.
Proof. intros H. unfold float. rewrite <- Zle_Qle. exact H. Qed.

(** The whole cells that fit: [int(w / c) * c] is between 0 and [w]. *)
Lemma whole_cells (w c : Q) :
  0 < w -> 0 < c ->
  (0 <= int (w / c))%Z /\ float (int (w / c)) * c <= w.
Proof.
  intros Hw Hc.
  assert (Hq : 0 < w / c).
  { unfold Qdiv. apply Qmult_lt_0_compat; [exact Hw|].
    apply Qinv_lt_0_compat. exact Hc. }
  unfold int.
  destruct (ltb (w / c) 0) eqn:E; [apply ltb_lt in E; lra|].
  split.
  - change 0%Z with (Qfloor 0). apply Qfloor_resp_le. lra.
  - assert (Hf : float (Qfloor (w / c)) <= w / c) by apply Qfloor_le.
    assert (Hm : w / c * c == w) by (field; lra).
    rewrite <- Hm at 2. apply Qmult_le_compat_r; [exact Hf|lra].
Qed.

Lemma Forall_flat_map_in {A B : Type} (P : B -> Prop) (f : A -> list B) (l : list A) :
  (forall a, In a l -> List.Forall P (f a)) -> List.Forall P (flat_map f l).
Proof.
  induction l as [|a l IH]; intros H; cbn [flat_map]; [constructor|].
  apply Forall_app. split.
  - apply H. left. reflexivity.
  - apply IH. intros a' Ha'. apply H. right. exact Ha'.
Qed.

Lemma length_flat_map_pairs {A B : Type} (f g : A -> B) (l : list A) :
  length (flat_map (fun a => [f a; g a]) l) = (2 * length l)%nat.
Proof. induction l as [|a l IH]; cbn [flat_map length app]; lia. Qed.

(** X15.  The grid stays in the frame.  In a frame of positive size the square
    grid returns, and every vertex it hands to the batch lies in the
    frame; when the smaller side of the frame is zero it raises
    [ZeroDivisionError].  The regular grid never raises: it draws
    [divisions - 1] lines in each direction, all in the frame. *)
Theorem draw_grid_in_frame (divisions : Z) (frame : rect) :
  (1 <= divisions)%Z -> 0 <= rect_width frame -> 0 <= rect_height frame ->
  (0 < rect_width frame -> 0 < rect_height frame ->
   exists lines,
     draw_grid divisions true frame = Returned lines /\
     List.Forall (vertex_within frame) lines) /\
  (min (rect_width frame) (rect_height frame) == 0 ->
   draw_grid divisions true frame = Raised ZeroDivisionError) /\
  (exists lines,
     draw_grid divisions false frame = Returned lines /\
     length lines = (4 * Z.to_nat (divisions - 1))%nat /\
     List.Forall (vertex_within frame) lines).
Proof.
  intros Hd Hw0 Hh0.
  assert (Hdq : 1 <= float divisions).
  { change 1 with (float 1). apply float_le. exact Hd. }
  assert (Hdz : is_zero (float divisions) = false).
  { apply is_zero_false. lra. }
  split; [|split].
  - intros Hw Hh. unfold draw_grid, div. rewrite Hdz. cbn [bind].
    set (cell := min (rect_width frame) (rect_height frame) / float divisions).
    assert (Hm : 0 < min (rect_width frame) (rect_height frame)).
    { unfold min. split_ltb; lra. }
    assert (Hc : 0 < cell).
    { unfold cell, Qdiv. apply Qmult_lt_0_compat; [exact Hm|].
      apply Qinv_lt_0_compat. lra. }
    assert (Hcz : is_zero cell = false) by (apply is_zero_false; lra).
    rewrite Hcz. cbn [bind].
    destruct (whole_cells (rect_width frame) cell Hw Hc) as [Hh1 Hh2].
    destruct (whole_cells (rect_height frame) cell Hh Hc) as [Hv1 Hv2].
    set (h_cells := int (rect_width frame / cell)) in *.
    set (v_cells := int (rect_height frame / cell)) in *.
    assert (Hhq : 0 <= float h_cells) by (change 0 with (float 0); apply float_le; exact Hh1).
    assert (Hvq : 0 <= float v_cells) by (change 0 with (float 0); apply float_le; exact Hv1).
    assert (Hhc : 0 <= float h_cells * cell) by (apply Qmult_le_0_compat; lra).
    assert (Hvc : 0 <= float v_cells * cell) by (apply Qmult_le_0_compat; lra).
    eexists. split; [reflexivity|].
    apply Forall_app. split; [|apply Forall_app; split].
    + repeat constructor; cbn [vx vy]; halves; lra.
    + apply Forall_flat_map_in. intros i Hi. apply range_from_bounds in Hi.
      assert (Hi1 : 0 <= float i) by (change 0 with (float 0); apply float_le; lia).
      assert (Hi2 : float i <= float h_cells) by (apply float_le; lia).
      assert (Hci : 0 <= cell * float i) by (apply Qmult_le_0_compat; lra).
      assert (Hcj : cell * float i <= float h_cells * cell).
      { rewrite (Qmult_comm (float h_cells)).
        rewrite !(Qmult_comm cell). apply Qmult_le_compat_r; lra. }
      repeat constructor; cbn [vx vy]; halves; lra.
    + apply Forall_flat_map_in. intros i Hi. apply range_from_bounds in Hi.
      assert (Hi1 : 0 <= float i) by (change 0 with (float 0); apply float_le; lia).
      assert (Hi2 : float i <= float v_cells) by (apply float_le; lia).
      assert (Hci : 0 <= cell * float i) by (apply Qmult_le_0_compat; lra).
      assert (Hcj : cell * float i <= float v_cells * cell).
      { rewrite (Qmult_comm (float v_cells)).
        rewrite !(Qmult_comm cell). apply Qmult_le_compat_r; lra. }
      repeat constructor; cbn [vx vy]; halves; lra.
  - intros Hm. unfold draw_grid, div. rewrite Hdz. cbn [bind].
    assert (Hcz : is_zero (min (rect_width frame) (rect_height frame) / float divisions)
                  = true).
    { apply is_zero_true. rewrite Hm. unfold Qdiv. ring. }
    rewrite Hcz. cbn [bind].
    destruct (is_zero _); reflexivity.
  - unfold draw_grid. eexists. split; [reflexivity|]. split.
    + rewrite length_app, !length_flat_map_pairs, range_from_length.
      replace (divisions - 1)%Z with (divisions - 1)%Z by reflexivity. lia.
    + assert (Hstep : forall (w : Q) (i : Z), 0 <= w -> (1 <= i < divisions)%Z ->
                0 <= w / float divisions * float i /\
                w / float divisions * float i <= w).
      { intros w i Hw Hi.
        assert (Hi1 : 0 <= float i) by (change 0 with (float 0); apply float_le; lia).
        assert (Hi2 : float i <= float divisions) by (apply float_le; lia).
        assert (Hwd : 0 <= w / float divisions).
        { unfold Qdiv. apply Qmult_le_0_compat; [exact Hw|].
          apply Qinv_le_0_compat. lra. }
        split; [apply Qmult_le_0_compat; assumption|].
        assert (E : w == w / float divisions * float divisions) by (field; lra).
        rewrite E at 2.
        rewrite !(Qmult_comm (w / float divisions)).
        apply Qmult_le_compat_r; assumption. }
      apply Forall_app. split; apply Forall_flat_map_in; intros i Hi;
        apply range_from_bounds in Hi.
      * destruct (Hstep (rect_width frame) i Hw0 Hi) as [H1 H2].
        repeat constructor; cbn [vx vy]; lra.
      * destruct (Hstep (rect_height frame) i Hh0 Hi) as [H1 H2].
        repeat constructor; cbn [vx vy]; lra.
Qed.

Lemma draw_grid_in_frame_witness :
  exists lines,
    draw_grid 8 false (mkRect 100 50 800 450) = Returned lines /\
    length lines = 28%nat /\
    List.Forall (vertex_within (mkRect 100 50 800 450)) lines.
Proof.
  apply (draw_grid_in_frame 8 (mkRect 100 50 800 450)); cbn; lia || lra.
Defined.

End GridProofs.


(** ** Where the export draws what the overlay draws *)

Section GeometryProofs.

Import py drawing operators clipping export_compare.
Import geometry.
Open Scope Q_scope.

Lemma Forall2_flat_map_same {A B C : Type} (R : B -> C -> Prop)
    (f : A -> list B) (g : A -> list C) (l : list A) :
  (forall x, In x l -> Forall2 R (f x) (g x)) ->
  Forall2 R (flat_map f l) (flat_map g l).
Proof.
  induction l as [|x l IH]; intros H; cbn [flat_map]; [constructor|].
  apply Forall2_app; [apply H; left; reflexivity|].
  apply IH. intros y Hy. apply H. right. exact Hy.
Qed.

Lemma Forall2_map_same {A B C : Type} (R : B -> C -> Prop)
    (f : A -> B) (g : A -> C) (l : list A) :
  (forall x, In x l -> R (f x) (g x)) -> Forall2 R (map f l) (map g l).
Proof.
  induction l as [|x l IH]; intros H; cbn [map]; constructor.
  - apply H. left. reflexivity.
  - apply IH. intros y Hy. apply H. right. exact Hy.
Qed.

Lemma map_flat_map {A B C : Type} (h : B -> C) (f : A -> list B) (l : list A) :
  map h (flat_map f l) = flat_map (fun x => map h (f x)) l.
Proof.
  induction l as [|x l IH]; cbn [flat_map map]; [reflexivity|].
  rewrite map_app, IH. reflexivity.
Qed.

Lemma float_min (a b : Z) : min (float a) (float b) == float (Z.min a b).
Proof.
  unfold min, float. split_ltb.
  - rewrite <- Zlt_Qlt in E. rewrite Z.min_r by lia. reflexivity.
  - rewrite <- Zle_Qle in E. rewrite Z.min_l by lia. reflexivity.
Qed.

(** X16.  The harmony triangles are what their name says: in a frame of
    positive size, [add_harmony_lines] gives the diagonal and two lines
    that start in the other two corners, meet the diagonal at a right
    angle and end on it. *)
Theorem harmony_lines_perpendicular (frame : rect) (flip_h flip_v : bool) :
  0 < rect_width frame -> 0 < rect_height frame ->
  exists d a b,
    add_harmony_lines frame flip_h flip_v = [d; a; b] /\
    perpendicular a d /\ perpendicular b d /\
    on_segment (snd a) d /\ on_segment (snd b) d /\
    vx (fst a) = vx (fst d) /\ vy (fst a) = vy (snd d) /\
    vx (fst b) = vx (snd d) /\ vy (fst b) = vy (fst d).
Proof.
  intros Hw Hh. unfold add_harmony_lines.
  set (xa := rect_x frame). set (ya := rect_y frame).
  set (w := rect_width frame) in *. set (h := rect_height frame) in *.
  assert (Hgen : forall x1 x2 y1 y2 : Q,
            ~ x2 - x1 == 0 -> ~ y2 - y1 == 0 ->
            let line_x := x2 - x1 in
            let line_y := y2 - y1 in
            let len := line_x * line_x + line_y * line_y in
            0 < len /\
            0 <= ((x1 - x1) * line_x + (y2 - y1) * line_y) / len <= 1 /\
            0 <= ((x2 - x1) * line_x + (y1 - y1) * line_y) / len <= 1).
  { intros x1 x2 y1 y2 Hx Hy lx ly len.
    assert (Hlx : 0 < lx * lx).
    { unfold lx. destruct (Q_dec (x2 - x1) 0) as [[H|H]|H]; [nra|nra|contradiction]. }
    assert (Hly : 0 < ly * ly).
    { unfold ly. destruct (Q_dec (y2 - y1) 0) as [[H|H]|H]; [nra|nra|contradiction]. }
    assert (Hlen : 0 < len) by (unfold len; lra).
    split; [exact Hlen|].
    assert (E1 : ((x1 - x1) * lx + (y2 - y1) * ly) / len * len == ly * ly).
    { unfold ly. field. lra. }
    assert (E2 : ((x2 - x1) * lx + (y1 - y1) * ly) / len * len == lx * lx).
    { unfold lx. field. lra. }
    set (t1 := ((x1 - x1) * lx + (y2 - y1) * ly) / len) in *.
    set (t2 := ((x2 - x1) * lx + (y1 - y1) * ly) / len) in *.
    unfold len in *. repeat split; nra. }
  destruct flip_h, flip_v; cbv zeta; cbn [vx vy];
    match goal with
    | |- context [ltb 0 (?lx * ?lx + ?ly * ?ly)] =>
        match lx with
        | ?x2 - ?x1 =>
            match ly with
            | ?y2 - ?y1 =>
                destruct (Hgen x1 x2 y1 y2) as (Hlen & [Ht1a Ht1b] & [Ht2a Ht2b]);
                [lra|lra|]
            end
        end
    end;
    cbv zeta in Hlen, Ht1a, Ht1b, Ht2a, Ht2b;
    (apply ltb_lt in Hlen; rewrite Hlen; apply ltb_lt in Hlen);
    eexists _, _, _; (split; [reflexivity|]);
    unfold perpendicular, on_segment, lerp; cbn [fst snd vx vy];
    (split; [field; lra|]); (split; [field; lra|]);
    (split; [eexists; split; [exact Ht1a|]; split; [exact Ht1b|]; split; field; lra|]);
    (split; [eexists; split; [exact Ht2a|]; split; [exact Ht2b|]; split; field; lra|]);
    repeat split; reflexivity.
Qed.

Lemma harmony_lines_perpendicular_witness :
  exists d a b,
    add_harmony_lines (full_frame 1920 1080) false false = [d; a; b] /\
    perpendicular a d /\ perpendicular b d.
Proof.
  destruct (harmony_lines_perpendicular (full_frame 1920 1080) false false)
    as (d & a & b & E & Ha & Hb & _); [reflexivity | reflexivity |].
  exists d, a, b. split; [exact E|]. split; assumption.
Defined.

Lemma range_bound (n : Z) (i : nat) : In i (range n) -> (Z.of_nat i < n)%Z.
Proof. unfold range. rewrite in_seq. lia. Qed.

Lemma fraction_bounds (i n : Z) :
  (0 <= i)%Z -> (i < n)%Z -> 0 <= float i / float n /\ float i / float n < 1.
Proof.
  intros Hi Hn. unfold float.
  assert (Hn0 : 0 < inject_Z n).
  { change 0 with (inject_Z 0). rewrite <- Zlt_Qlt. lia. }
  assert (Hi0 : 0 <= inject_Z i).
  { change 0 with (inject_Z 0). rewrite <- Zle_Qle. lia. }
  assert (Hin : inject_Z i < inject_Z n) by (rewrite <- Zlt_Qlt; lia).
  assert (E : inject_Z i / inject_Z n * inject_Z n == inject_Z i) by (field; lra).
  set (t := inject_Z i / inject_Z n) in *. split; nra.
Qed.

(** X17.  The vanishing-point guide: with the vanishing point inside the frame
    (both coordinates between 0 and 1, as the properties are declared),
    every line of the construction lies in the frame; without the grid
    there are four times [vanishing_point_lines] lines, and each starts
    at the vanishing point and ends on the border of the frame. *)
Theorem vanishing_point_lines_in_frame (settings : GuideSettings) (frame : rect) :
  0 <= rect_width frame -> 0 <= rect_height frame ->
  0 <= vanishing_point_x settings <= 1 -> 0 <= vanishing_point_y settings <= 1 ->
  exists lines,
    vanishing_point_lines_of settings frame = Returned lines /\
    List.Forall (fun l : segment =>
                   inside frame (vx (fst l)) (vy (fst l)) /\
                   inside frame (vx (snd l)) (vy (snd l)) /\
                   vz (fst l) == 0 /\ vz (snd l) == 0) lines /\
    (show_vanishing_point_grid settings = false ->
     length lines = (4 * Z.to_nat (vanishing_point_lines settings))%nat /\
     List.Forall (fun l : segment =>
                    fst l = mkVector
                              (rect_x frame + rect_width frame * vanishing_point_x settings)
                              (rect_y frame + rect_height frame * vanishing_point_y settings)
                              0 /\
                    on_edge_line frame (vx (snd l)) (vy (snd l))) lines).
Proof.
  intros Hw Hh [Hx0 Hx1] [Hy0 Hy1].
  unfold vanishing_point_lines_of. cbv zeta.
  set (w := rect_width frame) in *. set (h := rect_height frame) in *.
  set (x0 := rect_x frame). set (y0 := rect_y frame).
  set (px := vanishing_point_x settings) in *.
  set (py := vanishing_point_y settings) in *.
  eexists. split; [reflexivity|].
  assert (Hvp : inside frame (x0 + w * px) (y0 + h * py)).
  { unfold inside. fold x0 y0 w h. repeat split; nra. }
  split.
  - apply List.Forall_app. split.
    + destruct (0 <? vanishing_point_lines settings)%Z; [|constructor].
      apply List.Forall_forall. intros l Hl.
      apply in_flat_map in Hl. destruct Hl as (e & He & Hl).
      apply in_map_iff in Hl. destruct Hl as (i & <- & Hi).
      apply range_bound in Hi.
      destruct (fraction_bounds (Z.of_nat i) (vanishing_point_lines settings)
                  ltac:(lia) Hi) as [Ht0 Ht1].
      set (t := float (Z.of_nat i) / float (vanishing_point_lines settings)) in *.
      assert (Htw : 0 <= t * w /\ t * w <= w) by (split; nra).
      assert (Hth : 0 <= t * h /\ t * h <= h) by (split; nra).
      cbn [fst snd vx vy vz Vector_lerp].
      split; [exact Hvp|].
      cbn [In] in He.
      destruct He as [<-|[<-|[<-|[<-|[]]]]]; cbn [fst snd vx vy vz];
        unfold inside; fold x0 y0 w h;
        (split; [repeat split; nra|]); (split; [reflexivity|ring]).
    + destruct (show_vanishing_point_grid settings); [|constructor].
      destruct (0 <? vanishing_point_grid_count settings)%Z; [|constructor].
      apply List.Forall_forall. intros l Hl.
      apply in_flat_map in Hl. destruct Hl as (k & Hk & Hl).
      apply range_bound in Hk.
      destruct (fraction_bounds (Z.of_nat k + 1) (vanishing_point_grid_count settings + 1)
                  ltac:(lia) ltac:(lia)) as [Ht0 Ht1].
      set (t := float (Z.of_nat k + 1) / float (vanishing_point_grid_count settings + 1))
        in *.
      assert (Hwx : 0 <= w * px /\ w * px <= w) by (split; nra).
      assert (Hhy : 0 <= h * py /\ h * py <= h) by (split; nra).
      set (wx := w * px) in *. set (hy := h * py) in *.
      assert (Htx : 0 <= t * wx /\ t * wx <= t * w /\ t * w <= w)
        by (repeat split; nra).
      assert (Hty : 0 <= t * hy /\ t * hy <= t * h /\ t * h <= h)
        by (repeat split; nra).
      cbn [In] in Hl.
      destruct Hl as [<-|[<-|[<-|[<-|[]]]]]; cbn [fst snd vx vy vz Vector_lerp];
        unfold inside; fold x0 y0 w h;
        (split; [repeat split; nra|]); (split; [repeat split; nra|]);
        (split; ring).
  - intros Hgrid. rewrite Hgrid, app_nil_r.
    destruct (0 <? vanishing_point_lines settings)%Z eqn:En.
    + split.
      * cbn [flat_map]. rewrite !length_app, !length_map. cbn [length].
        unfold range. rewrite length_seq. lia.
      * apply List.Forall_forall. intros l Hl.
        apply in_flat_map in Hl. destruct Hl as (e & He & Hl).
        apply in_map_iff in Hl. destruct Hl as (i & <- & Hi).
        cbn [fst snd]. split; [reflexivity|].
        cbn [In] in He. unfold on_edge_line. fold x0 y0 w h.
        destruct He as [<-|[<-|[<-|[<-|[]]]]]; cbn [fst snd vx vy Vector_lerp].
        -- right. right. right. ring.
        -- right. left. ring.
        -- right. right. left. ring.
        -- left. ring.
    + apply Z.ltb_ge in En. split; [|constructor].
      cbn [length]. lia.
Qed.

Lemma vanishing_point_lines_in_frame_witness :
  exists lines,
    vanishing_point_lines_of perspective_settings (full_frame 1920 1080)
      = Returned lines /\
    List.Forall (fun l : segment =>
                   inside (full_frame 1920 1080) (vx (snd l)) (vy (snd l))) lines.
Proof.
  destruct (vanishing_point_lines_in_frame perspective_settings (full_frame 1920 1080))
    as (lines & E & H & _).
  - discriminate.
  - discriminate.
  - split; discriminate.
  - split; discriminate.
  - exists lines. split; [exact E|].
    eapply List.Forall_impl; [|exact H]. intros l (_ & Hl & _). exact Hl.
Defined.

Lemma float_mul (a b : Z) : float (a * b) == float a * float b.
Proof. unfold float. rewrite inject_Z_mult. reflexivity. Qed.

Lemma float_plus (a b : Z) : float (a + b) == float a + float b.
Proof. unfold float. rewrite inject_Z_plus. reflexivity. Qed.

(** X18.  For the golden triangle, the vanishing point and the harmony
    triangles without the flip, the export draws the lines of the
    overlay: on a frame that is the whole image, the two constructions
    give the same lines in the same order, for every setting. *)
Theorem export_matches_overlay :
  (forall (M : MathLib) (settings : GuideSettings) (width height : Z),
      same_outcome (golden_triangle_lines M settings (full_frame width height))
                   (Returned (export_golden_triangle M settings width height))) /\
  (forall (settings : GuideSettings) (width height : Z),
      same_outcome (vanishing_point_lines_of settings (full_frame width height))
                   (Returned (export_vanishing_point settings width height))) /\
  (forall (settings : GuideSettings) (width height : Z),
      harmony_triangles_flip settings = false ->
      same_lines (harmony_triangles_lines settings (full_frame width height))
                 (export_harmony_triangles settings width height)).
Proof.
  split; [|split].
  - intros M settings width height.
    unfold same_outcome, golden_triangle_lines, export_golden_triangle, same_lines.
    cbn [full_frame rect_x rect_y rect_width rect_height].
    rewrite map_flat_map. apply Forall2_flat_map_same. intros t _.
    cbv zeta. unfold rotate_point, rotate_about.
    pose proof (float_min width height) as Hmin.
    set (m := min (float width) (float height)) in *.
    set (m' := float (Z.min width height)) in *.
    destruct (negb (is_zero (golden_triangle_rotation settings)));
      cbn [map seg_xy fst snd vx vy];
      repeat (constructor; [unfold line2_eq, seg_xy; cbn [fst snd vx vy]; rewrite Hmin; repeat split; ring|]);
      constructor.
  - intros settings width height.
    unfold same_outcome, vanishing_point_lines_of, export_vanishing_point, same_lines.
    cbn [full_frame rect_x rect_y rect_width rect_height]. cbv zeta.
    rewrite map_app. apply Forall2_app.
    + destruct (0 <? vanishing_point_lines settings)%Z; [|constructor].
      cbn [flat_map]. rewrite !app_nil_r, !map_app, !map_map.
      repeat (apply Forall2_app);
        apply Forall2_map_same; intros i _;
        unfold line2_eq; cbn [seg_xy fst snd vx vy Vector_lerp]; repeat split; ring.
    + destruct (show_vanishing_point_grid settings); [|constructor].
      destruct (0 <? vanishing_point_grid_count settings)%Z; [|constructor].
      rewrite map_flat_map. apply Forall2_flat_map_same. intros k _.
      cbn [map seg_xy fst snd vx vy Vector_lerp].
      repeat (constructor; [unfold line2_eq, seg_xy, Vector_lerp; cbn [fst snd vx vy]; repeat split; ring|]);
        constructor.
  - intros settings width height Hflip.
    unfold harmony_triangles_lines, export_harmony_triangles, same_lines.
    rewrite Hflip, app_nil_r. unfold add_harmony_lines.
    cbn [full_frame rect_x rect_y rect_width rect_height]. cbv zeta. cbn [vx vy].
    set (w := float width). set (h := float height).
    assert (Hden : float (width * width + height * height) == w * w + h * h).
    { rewrite float_plus, !float_mul. reflexivity. }
    assert (Hiff : ltb 0 ((0 + w - 0) * (0 + w - 0) + (0 + h - 0) * (0 + h - 0))
                   = (0 <? width * width + height * height)%Z).
    { destruct (0 <? width * width + height * height)%Z eqn:E.
      - apply Z.ltb_lt in E. apply ltb_lt.
        assert (0 < float (width * width + height * height)).
        { unfold float. change 0 with (inject_Z 0). rewrite <- Zlt_Qlt. exact E. }
        lra.
      - apply Z.ltb_ge in E. apply ltb_ge.
        assert (float (width * width + height * height) <= 0).
        { unfold float. change 0 with (inject_Z 0). rewrite <- Zle_Qle. exact E. }
        lra. }
    rewrite Hiff.
    cbn [map seg_xy fst snd vx vy].
    constructor; [unfold line2_eq, seg_xy; cbn [fst snd vx vy]; repeat split; ring|].
    destruct (0 <? width * width + height * height)%Z eqn:E; [|constructor].
    apply Z.ltb_lt in E.
    assert (Hpos : 0 < w * w + h * h).
    { assert (0 < float (width * width + height * height)).
      { unfold float. change 0 with (inject_Z 0). rewrite <- Zlt_Qlt. exact E. }
      lra. }
    cbn [map seg_xy fst snd vx vy].
    repeat (constructor;
            [unfold line2_eq, seg_xy; cbn [fst snd vx vy]; rewrite ?float_mul, ?Hden; fold w h;
             repeat split; field; lra|]).
    constructor.
Qed.

Lemma export_matches_overlay_witness :
  same_lines (harmony_triangles_lines default_settings (full_frame 1920 1080))
             (export_harmony_triangles default_settings 1920 1080).
Proof.
  apply (proj2 (proj2 export_matches_overlay) default_settings 1920%Z 1080%Z).
  reflexivity.
Defined.

Lemma arc_points_view (M : MathLib) (cx cy radius a b : Q) :
  map xy (arc_points M cx cy radius a b) = export_arc_points M cx cy radius a b.
Proof.
  unfold arc_points, export_arc_points. rewrite map_map. reflexivity.
Qed.

Lemma spiral_body_view (M : MathLib) (show_segments : bool) (idx : nat)
    (v : spiral_vars) :
  export_spiral_body M show_segments idx (export_view v)
  = option_map export_view (spiral_body M show_segments idx v).
Proof.
  unfold export_spiral_body, spiral_body.
  cbn [export_view e_lx e_ly e_lw e_lh e_points segment_lines].
  destruct (ltb (lw v) 1 || ltb (lh v) 1); [reflexivity|].
  cbv zeta.
  destruct (idx mod 4)%nat as [|[|[|n]]]; cbn [option_map]; f_equal;
    unfold export_view; cbn [lx ly lw lh points rect_lines];
    rewrite map_app, arc_points_view;
    destruct show_segments; rewrite ?map_app; reflexivity.
Qed.

Lemma spiral_for_view (M : MathLib) (show_segments : bool) (idxs : list nat) :
  forall v,
    export_spiral_for M show_segments idxs (export_view v)
    = export_view (spiral_for M show_segments idxs v).
Proof.
  induction idxs as [|idx idxs IH]; intros v; cbn [export_spiral_for spiral_for];
    [reflexivity|].
  rewrite spiral_body_view.
  destruct (spiral_body M show_segments idx v) as [v'|]; cbn [option_map];
    [apply IH|reflexivity].
Qed.

Lemma combine_map_both {A B : Type} (f : A -> B) (l : list A) :
  forall l',
    combine (map f l) (map f l') = map (fun p => (f (fst p), f (snd p))) (combine l l').
Proof.
  induction l as [|a l IH]; intros [|b l']; cbn [combine map]; try reflexivity.
  rewrite IH. reflexivity.
Qed.

Lemma consecutive_map {A B : Type} (f : A -> B) (l : list A) :
  consecutive (map f l) = map (fun p => (f (fst p), f (snd p))) (consecutive l).
Proof.
  unfold consecutive. rewrite <- combine_map_both.
  destruct l; reflexivity.
Qed.

Lemma consecutive_short {A : Type} (l : list A) :
  (1 <? length l)%nat = false -> consecutive l = [].
Proof.
  intros H. apply Nat.ltb_ge in H. unfold consecutive.
  destruct l as [|a [|b l]]; cbn [length] in *; [reflexivity|reflexivity|lia].
Qed.

(** The golden-spiral block of the overlay and the one of the export
    have the same outcome on a frame that is the whole image. *)
Lemma spiral_same_outcome (M : MathLib) (settings : GuideSettings)
    (width height : Z) :
  same_outcome (golden_spiral_lines M settings (full_frame width height))
               (export_golden_spiral M settings width height).
Proof.
  unfold same_outcome, golden_spiral_lines, export_golden_spiral.
  cbn [full_frame rect_x rect_y rect_width rect_height].
  change (export_spiral_target (golden_spiral_fit settings) width height)
    with (spiral_target (golden_spiral_fit settings) (float width) (float height)).
  destruct (spiral_target (golden_spiral_fit settings) (float width) (float height))
    as [[[[target_w target_h] offset_x] offset_y]|e|] eqn:Et; cbn [bind];
    [|reflexivity|].
  2:{ unfold spiral_target, div in Et.
      destruct (golden_spiral_fit settings); [discriminate Et|].
      destruct (is_zero (float height)); cbn [bind] in Et; [discriminate Et|].
      repeat match type of Et with
             | context [ltb ?a ?b] => destruct (ltb a b)
             end; discriminate Et. }
  cbv zeta.
  change (mkExportSpiral 0 0 gen_w gen_h [] []) with (export_view spiral_init).
  rewrite spiral_for_view. fold (spiral_generate M (golden_spiral_show_segments settings)
                                   (golden_spiral_length settings)).
  set (v := spiral_generate M (golden_spiral_show_segments settings)
              (golden_spiral_length settings)).
  unfold same_lines, spiral_all_lines, export_view.
  cbn [e_points segment_lines].
  assert (Hcurve : (if (1 <? length (points v))%nat then consecutive (points v) else [])
                   = consecutive (points v)).
  { destruct (1 <? length (points v))%nat eqn:E; [reflexivity|].
    symmetry. apply consecutive_short. exact E. }
  rewrite Hcurve, consecutive_map.
  assert (Hpt : forall p : Vector,
            let q := spiral_place (golden_spiral_flip_h settings)
                       (golden_spiral_flip_v settings) (target_w / gen_w)
                       (target_h / gen_h) (0 + offset_x) (0 + offset_y) p in
            let q' := transform_point (golden_spiral_flip_h settings)
                        (golden_spiral_flip_v settings) (target_w / gen_w)
                        (target_h / gen_h) offset_x offset_y (xy p) in
            vx q == fst q' /\ vy q == snd q').
  { intros p. unfold spiral_place, transform_point, xy. cbn [vx vy fst snd].
    split; ring. }
  destruct (golden_spiral_show_segments settings).
  - rewrite !map_app, !map_map. apply Forall2_app;
      apply Forall2_map_same; intros l _; unfold line2_eq, seg_xy; cbn [fst snd];
      destruct (Hpt (fst l)) as [H1 H2]; destruct (Hpt (snd l)) as [H3 H4];
      repeat split; assumption.
  - rewrite app_nil_r, !map_map.
    apply Forall2_map_same; intros l _; unfold line2_eq, seg_xy; cbn [fst snd];
      destruct (Hpt (fst l)) as [H1 H2]; destruct (Hpt (snd l)) as [H3 H4];
      repeat split; assumption.
Qed.

Lemma spiral_target_returns (fit : bool) (width height : Z) :
  height <> 0%Z ->
  exists tgt, spiral_target fit (float width) (float height) = Returned tgt.
Proof.
  intros Hh. unfold spiral_target, div.
  destruct fit; [eexists; reflexivity|].
  assert (E : is_zero (float height) = false).
  { apply is_zero_false. unfold float. intros H. apply Hh.
    unfold Qeq in H. cbn in H. lia. }
  rewrite E. cbn [bind].
  repeat match goal with
         | |- context [ltb ?a ?b] => destruct (ltb a b)
         end; eexists; reflexivity.
Qed.

(** X19.  For the golden spiral too the export draws the lines of the
    overlay.  With a render width or height of zero the export is
    cancelled before it draws; otherwise, on a frame that is the whole
    image, the overlay and the export both return, with the same lines in
    the same order, for every setting. *)
Theorem export_spiral_matches_overlay (M : MathLib) (settings : GuideSettings)
    (width height : Z) :
  match export_spiral_execute M settings width height with
  | inl outcome => outcome = CANCELLED /\ (width = 0 \/ height = 0)%Z
  | inr export =>
      width <> 0%Z /\ height <> 0%Z /\
      exists overlay lines,
        golden_spiral_lines M settings (full_frame width height) = Returned overlay /\
        export = Returned lines /\
        same_lines overlay lines
  end.
Proof.
  unfold export_spiral_execute.
  destruct (width =? 0)%Z eqn:Ew; [apply Z.eqb_eq in Ew | apply Z.eqb_neq in Ew];
    cbn [orb]; [split; [reflexivity|left; exact Ew]|].
  destruct (height =? 0)%Z eqn:Eh; [apply Z.eqb_eq in Eh | apply Z.eqb_neq in Eh];
    [split; [reflexivity|right; exact Eh]|].
  split; [exact Ew|]. split; [exact Eh|].
  pose proof (spiral_same_outcome M settings width height) as H.
  unfold same_outcome in H.
  destruct (spiral_target_returns (golden_spiral_fit settings) width height Eh)
    as ([[[tw th] ox] oy] & Et).
  assert (Ho : exists overlay,
             golden_spiral_lines M settings (full_frame width height) = Returned overlay).
  { unfold golden_spiral_lines. cbn [full_frame rect_x rect_y rect_width rect_height].
    rewrite Et. cbn [bind]. eexists. reflexivity. }
  destruct Ho as (overlay & Ho). rewrite Ho in H.
  destruct (export_golden_spiral M settings width height) as [lines|e|];
    [|destruct H|destruct H].
  exists overlay, lines. split; [exact Ho|]. split; [reflexivity|exact H].
Qed.

End GeometryProofs.


(** ** Guides survive serialization and presets *)

Section RoundTripProofs.

Import interaction.
Import py properties operators presets positions saving.
Import round_trip.
Open Scope Q_scope.
Open Scope string_scope.

Lemma clamp_fixed (lo hi v : Q) : lo <= v -> v <= hi -> clamp lo hi v == v.
Proof.
  intros H1 H2. unfold clamp, min.
  destruct (ltb v hi) eqn:E; [apply ltb_lt in E | apply ltb_ge in E];
    unfold max; split_ltb; lra.
Qed.

Lemma to_floats_map (l : list Q) : to_floats (map PFloat l) = Returned l.
Proof.
  induction l as [|q l IH]; cbn [map to_floats to_float bind]; [reflexivity|].
  rewrite IH. reflexivity.
Qed.

Lemma map_clamp_fixed (l : list Q) :
  List.Forall (fun c => 0 <= c /\ c <= 1) l -> Forall2 Qeq (map (clamp 0 1) l) l.
Proof.
  induction 1 as [|c l [H0 H1] _ IH]; cbn [map]; constructor; [|exact IH].
  apply clamp_fixed; assumption.
Qed.

Lemma assign_orientation_name (g : CustomGuide) (o : Orientation) :
  assign_orientation g (PStr (orientation_name o)) = Returned (set_orientation g o).
Proof. destruct o; reflexivity. Qed.

Lemma deserialize_serialized (g : CustomGuide) :
  storable g ->
  exists g',
    deserialize_item (serialize_item g) new_guide = (g', Returned tt) /\
    guide_equiv g' g.
Proof.
  intros ([[Hx0 Hx1] [Hy0 Hy1]] & Hlen & Hcol).
  unfold deserialize_item, serialize_item.
  cbn [item_get dict_get String.eqb Ascii.eqb Bool.eqb bind].
  cbn [assign_name assign_position_x assign_position_y assign_rotation to_float bind
       assign_then].
  rewrite assign_orientation_name. cbn [assign_then].
  unfold assign_color. rewrite length_map, Hlen. cbn [Nat.eqb].
  rewrite to_floats_map. cbn [bind assign_then].
  eexists. split; [reflexivity|].
  unfold guide_equiv.
  cbn [set_color set_orientation set_rotation set_position_x set_position_y set_name
       name position_x position_y rotation orientation color].
  rewrite !clamp_is_clamp_unit.
  split; [reflexivity|].
  split; [apply clamp_unit_inside; assumption|].
  split; [apply clamp_unit_inside; assumption|].
  split; [reflexivity|]. split; [reflexivity|].
  apply map_clamp_fixed. exact Hcol.
Qed.

Lemma deserialize_loop_serialized (gs : list CustomGuide) :
  List.Forall storable gs ->
  forall acc,
  exists gs',
    deserialize_loop (map serialize_item gs) acc = ((acc ++ gs')%list, Returned tt) /\
    Forall2 guide_equiv gs' gs.
Proof.
  induction 1 as [|g gs Hg _ IH]; intros acc; cbn [map deserialize_loop].
  - exists []. rewrite app_nil_r. split; [reflexivity|constructor].
  - destruct (deserialize_serialized g Hg) as (g' & E & Heq). rewrite E.
    destruct (IH (acc ++ [g'])%list) as (gs' & E' & Hall).
    exists (g' :: gs'). split.
    + rewrite E', <- app_assoc. reflexivity.
    + constructor; assumption.
Qed.

(** X21.  Generation 2 keeps the guides through its preset text: when the JSON
    decoder gives back what the encoder was given, writing
    [serialize_guides] of a collection into [custom_guides_data] replaces
    whatever the owner holds by guides with the same names, positions,
    rotations, orientations and colours. *)
Theorem serialize_deserialize_round_trip (json_dumps : pyval -> string)
    (json_loads : string -> option pyval) (guides old : list CustomGuide) :
  json_loads (json_dumps (PList (map serialize_item guides)))
    = Some (PList (map serialize_item guides)) ->
  json_dumps (PList (map serialize_item guides)) <> "" ->
  List.Forall storable guides ->
  exists guides',
    set_custom_guides_data json_loads old (serialize_guides json_dumps guides)
      = (guides', Returned tt) /\
    Forall2 guide_equiv guides' guides.
Proof.
  intros Hcodec Hne Hok.
  unfold set_custom_guides_data, deserialize_guides, serialize_guides.
  apply String.eqb_neq in Hne. rewrite Hne, Hcodec. cbn [iterate].
  destruct (deserialize_loop_serialized guides Hok []) as (gs' & E & Hall).
  exists gs'. split; [exact E|exact Hall].
Qed.

Lemma serialize_deserialize_round_trip_witness :
  exists guides',
    set_custom_guides_data example_loads serialization.one_guide
      (serialize_guides example_dumps example_guides) = (guides', Returned tt) /\
    Forall2 guide_equiv guides' example_guides.
Proof.
  apply (serialize_deserialize_round_trip example_dumps example_loads example_guides
           serialization.one_guide).
  - reflexivity.
  - discriminate.
  - repeat constructor; cbn; lra.
Defined.

Lemma dict_has_set (d : list (string * pyval)) (key : string) (value : pyval) :
  dict_has (dict_set d key value) key = true.
Proof.
  unfold dict_has.
  induction d as [|[k v] d IH]; cbn [dict_set existsb fst].
  - rewrite String.eqb_refl. reflexivity.
  - destruct (String.eqb k key) eqn:E; cbn [existsb fst]; rewrite E; [reflexivity|].
    exact IH.
Qed.

Lemma dict_get_set (d : list (string * pyval)) (key : string) (value default : pyval) :
  dict_get (dict_set d key value) key default = value.
Proof.
  induction d as [|[k v] d IH]; cbn [dict_set dict_get].
  - rewrite String.eqb_refl. reflexivity.
  - destruct (String.eqb k key) eqn:E; cbn [dict_get]; rewrite E; [reflexivity|].
    exact IH.
Qed.

Lemma load_saved_guide (g : CustomGuide) :
  storable g ->
  exists g',
    load_guide (guide_entry g) new_guide = (g', Returned tt) /\
    guide_equiv g' (unnamed g).
Proof.
  intros ([[Hx0 Hx1] [Hy0 Hy1]] & Hlen & Hcol).
  unfold load_guide, guide_entry.
  cbn [item_get dict_get String.eqb Ascii.eqb Bool.eqb bind].
  cbn [assign_position_x assign_position_y assign_rotation to_float bind assign_then].
  rewrite assign_orientation_name. cbn [assign_then].
  cbn [dict_has existsb fst String.eqb Ascii.eqb Bool.eqb orb dict_get iterate].
  destruct (color g) as [|a [|b [|c [|d [|e l]]]]] eqn:Ec; try discriminate Hlen.
  cbn [map color_loop assign_color_item set_color set_orientation set_rotation
       set_position_x set_position_y new_guide color length Nat.ltb Nat.leb
       to_float bind assign_then].
  eexists. split; [reflexivity|].
  unfold guide_equiv, unnamed.
  cbn [set_color set_orientation set_rotation set_position_x set_position_y set_name
       name position_x position_y rotation orientation color new_guide].
  rewrite !clamp_is_clamp_unit, Ec.
  split; [reflexivity|].
  split; [apply clamp_unit_inside; assumption|].
  split; [apply clamp_unit_inside; assumption|].
  split; [reflexivity|]. split; [reflexivity|].
  apply (map_clamp_fixed [a; b; c; d]). exact Hcol.
Qed.

Lemma load_guides_loop_saved (gs : list CustomGuide) :
  List.Forall storable gs ->
  forall acc,
  exists gs',
    load_guides_loop (map guide_entry gs) acc = ((acc ++ gs')%list, Returned tt) /\
    Forall2 guide_equiv gs' (map unnamed gs).
Proof.
  induction 1 as [|g gs Hg _ IH]; intros acc; cbn [map load_guides_loop].
  - exists []. rewrite app_nil_r. split; [reflexivity|constructor].
  - destruct (load_saved_guide g Hg) as (g' & E & Heq). rewrite E.
    destruct (IH (acc ++ [g'])%list) as (gs' & E' & Hall).
    exists (g' :: gs'). split.
    + rewrite E', <- app_assoc. reflexivity.
    + constructor; assumption.
Qed.

(** X22.  Generation 1 keeps the guide lines through a preset file, except for
    their names: importing the data that Save or Export writes replaces
    the collection by guides with the saved positions, rotations,
    orientations and colours, each named [Guide], and the operator
    finishes. *)
Theorem preset_guides_round_trip (s s0 : settings) (guides old : list CustomGuide) :
  List.Forall storable guides ->
  exists guides',
    load_custom_guides (preset_data s guides) old = (guides', Returned tt) /\
    import_preset (preset_data s guides) s0 old
      = (dict_to_settings (preset_data s guides) s0, guides',
         Returned operators.FINISHED) /\
    Forall2 guide_equiv guides' (map unnamed guides).
Proof.
  intros Hok.
  assert (E : exists guides',
             load_custom_guides (preset_data s guides) old = (guides', Returned tt) /\
             Forall2 guide_equiv guides' (map unnamed guides)).
  { unfold load_custom_guides, preset_data.
    rewrite dict_has_set, dict_get_set. cbn [iterate].
    destruct (load_guides_loop_saved guides Hok []) as (gs' & E & Hall).
    exists gs'. split; [exact E|exact Hall]. }
  destruct E as (gs' & E & Hall).
  exists gs'. split; [exact E|]. split; [|exact Hall].
  unfold import_preset. rewrite E. reflexivity.
Qed.

Lemma preset_guides_round_trip_witness :
  exists guides',
    load_custom_guides (preset_data toggling.thirds_and_grid example_guides)
      serialization.one_guide = (guides', Returned tt) /\
    Forall2 guide_equiv guides' (map unnamed example_guides).
Proof.
  destruct (preset_guides_round_trip toggling.thirds_and_grid toggling.thirds_and_grid
              example_guides serialization.one_guide) as (gs' & E & _ & H).
  - repeat constructor; cbn; lra.
  - exists gs'. split; assumption.
Defined.

End RoundTripProofs.


(** ** Settings survive a preset *)

Ltac ltb_vars :=
  repeat match goal with
  | |- context [py.ltb ?a ?b] =>
      is_var a; is_var b;
      let E := fresh "E" in
      destruct (py.ltb a b) eqn:E;
      [apply ltb_lt in E | apply ltb_ge in E]; try (exfalso; lra); cbv iota
  end.

Section SettingsRoundTrip.

Import interaction toggle_defaults round_trip.
Import py properties operators presets positions saving.
Import typed_settings.
Open Scope Q_scope.
Open Scope string_scope.

Lemma clamp_idempotent (lo hi v : Q) :
  clamp lo hi (clamp lo hi v) = clamp lo hi v.
Proof. unfold clamp, min, max. ltb_vars; reflexivity. Qed.

Lemma clamp_float_idempotent (lo hi : option Q) (v : Q) :
  clamp_float lo hi (clamp_float lo hi v) = clamp_float lo hi v.
Proof.
  destruct lo as [lo|], hi as [hi|]; cbn [clamp_float]; unfold min, max;
    ltb_vars; reflexivity.
Qed.

Lemma clamp_int_idempotent (lo hi : option Z) (v : Z) :
  clamp_int lo hi (clamp_int lo hi v) = clamp_int lo hi v.
Proof. destruct lo, hi; cbn [clamp_int]; lia. Qed.

Lemma to_floats_pfloat (l : list Q) : to_floats (map PFloat l) = Returned l.
Proof.
  induction l as [|q l IH]; cbn [map to_floats to_float bind]; [reflexivity|].
  rewrite IH. reflexivity.
Qed.

Lemma to_floats_length (l : list pyval) : forall qs,
  to_floats l = Returned qs -> length qs = length l.
Proof.
  induction l as [|v l IH]; cbn [to_floats]; intros qs H.
  - injection H as <-. reflexivity.
  - destruct (to_float v); cbn [bind] in H; try discriminate H.
    destruct (to_floats l); cbn [bind] in H; try discriminate H.
    injection H as <-. cbn [length]. f_equal. apply IH. reflexivity.
Qed.

(** What a vector property holds has the declared size and is within the
    limits. *)
Lemma storable_vector (size : nat) (lo hi : Q) (dflt : list Q) (v : propval) :
  storable_value (FloatVectorProperty size lo hi dflt) v ->
  exists l, v = VVec l /\ length l = size /\ map (clamp lo hi) l = l.
Proof.
  intros (value & H). cbn [rna_assign] in H.
  destruct value; try discriminate H.
  destruct (length l =? size)%nat eqn:E; [|discriminate H].
  apply Nat.eqb_eq in E.
  destruct (to_floats l) as [qs| |] eqn:Eq; cbn [bind] in H; try discriminate H.
  injection H as <-. eexists. split; [reflexivity|]. split.
  - rewrite length_map, (to_floats_length l qs Eq). exact E.
  - rewrite map_map. apply map_ext. intros q. apply clamp_idempotent.
Qed.

(** Assigning back what a scalar property holds stores the same value. *)
Lemma rna_assign_storable (d : prop_decl) (v : propval) :
  storable_value d v ->
  match d with
  | FloatVectorProperty _ _ _ _ => True
  | _ => rna_assign d (to_py v) = Returned v /\
         match to_py v with PList _ => False | _ => True end
  end.
Proof.
  intros (value & H). destruct d; cbn [rna_assign] in H; [| | | |exact I|].
  - destruct (to_bool value); cbn [bind] in H; try discriminate H.
    injection H as <-. split; [reflexivity|exact I].
  - destruct (to_int value); cbn [bind] in H; try discriminate H.
    injection H as <-. cbn [to_py rna_assign to_int bind].
    rewrite clamp_int_idempotent. split; [reflexivity|exact I].
  - destruct (to_float value); cbn [bind] in H; try discriminate H.
    injection H as <-. cbn [to_py rna_assign to_float bind].
    rewrite clamp_float_idempotent. split; [reflexivity|exact I].
  - destruct value; try discriminate H.
    destruct (existsb (String.eqb s) items) eqn:E; [|discriminate H].
    injection H as <-. cbn [to_py rna_assign]. rewrite E.
    split; [reflexivity|exact I].
  - destruct value; try discriminate H.
    injection H as <-. split; [reflexivity|exact I].
Qed.

Lemma assign_items_all (size : nat) (lo hi : Q) (dflt : list Q) (l : list Q) :
  forall done rest : list Q,
  length rest = length l ->
  assign_items (FloatVectorProperty size lo hi dflt) (VVec (done ++ rest))
    (length done) (map PFloat l)
  = VVec (done ++ map (clamp lo hi) l).
Proof.
  induction l as [|q l IH]; intros done rest Hlen.
  - destruct rest; [|discriminate Hlen]. reflexivity.
  - destruct rest as [|r rest]; [discriminate Hlen|].
    cbn [map assign_items rna_assign_item].
    assert (E : (length done <? length (done ++ r :: rest))%nat = true).
    { apply Nat.ltb_lt. rewrite length_app. cbn [length]. lia. }
    rewrite E. cbn [to_float bind].
    rewrite <- (Nat.add_0_r (length done)) at 1.
    rewrite insert_app_r.
    change (<[0%nat := clamp lo hi q]> (r :: rest)) with (clamp lo hi q :: rest).
    replace (done ++ clamp lo hi q :: rest)%list
      with ((done ++ [clamp lo hi q]) ++ rest)%list
      by (rewrite <- app_assoc; reflexivity).
    replace (S (length done)) with (length (done ++ [clamp lo hi q])%list)
      by (rewrite length_app; cbn [length]; lia).
    rewrite IH by (injection Hlen as Hlen; exact Hlen).
    rewrite <- app_assoc. reflexivity.
Qed.

Lemma defaults_storable (prop_name : string) (d : prop_decl) :
  declaration VSEGuidesSettings prop_name = Some d ->
  storable_value d (default_value d).
Proof.
  assert (H : List.Forall (fun nd => storable_value (snd nd) (default_value (snd nd)))
                VSEGuidesSettings).
  { unfold VSEGuidesSettings.
    repeat (constructor;
      [cbv beta; cbn [snd];
       match goal with
       | |- storable_value ?d _ => exists (to_py (default_value d)); reflexivity
       end|]).
    constructor. }
  revert H. generalize VSEGuidesSettings as schema.
  induction schema as [|[n d'] schema IH]; intros H; cbn [declaration];
    [discriminate|].
  destruct (String.eqb n prop_name).
  - intros [= <-]. exact (Forall_inv H).
  - apply IH. exact (Forall_inv_tail H).
Qed.

Lemma getattr_storable (s : settings) (prop_name : string) (d : prop_decl) :
  well_typed s ->
  declaration VSEGuidesSettings prop_name = Some d ->
  exists v, getattr s prop_name = Returned v /\ storable_value d v.
Proof.
  intros Hs Hd. unfold getattr. rewrite Hd.
  destruct (s !! prop_name) as [v|] eqn:E.
  - exists v. split; [reflexivity|]. exact (Hs prop_name v E d Hd).
  - exists (default_value d). split; [reflexivity|].
    exact (defaults_storable prop_name d Hd).
Qed.

(** One pass of the loop of [dict_to_settings] on an entry that
    [settings_to_dict] wrote. *)
Lemma apply_item_saved (s target : settings) (prop_name : string) (d : prop_decl)
    (v cur : propval) :
  In prop_name PRESET_PROPERTIES ->
  declaration VSEGuidesSettings prop_name = Some d ->
  storable_value d v ->
  getattr target prop_name = Returned cur -> storable_value d cur ->
  getattr (apply_item target (prop_name, to_py v)) prop_name = Returned v.
Proof.
  intros Hin Hd Hv Hcur Hc. unfold apply_item.
  assert (E1 : in_preset_properties prop_name = true).
  { unfold in_preset_properties. apply existsb_exists.
    exists prop_name. split; [exact Hin|apply String.eqb_refl]. }
  assert (E2 : hasattr prop_name = true) by (unfold hasattr; rewrite Hd; reflexivity).
  rewrite E1, E2. cbn [andb].
  assert (Hset : forall value w, rna_assign d value = Returned w ->
            getattr (fst (setattr target prop_name value)) prop_name = Returned w).
  { intros value w Hw. unfold setattr. rewrite Hd, Hw. cbn [fst].
    unfold getattr. rewrite Hd, lookup_insert_eq. reflexivity. }
  destruct d as [b|lo hi z|lo hi q|items e|size lo hi dflt|e].
  5: {
    destruct (storable_vector _ _ _ _ _ Hv) as (l & -> & Hl & Hfix).
    destruct (storable_vector _ _ _ _ _ Hc) as (l0 & -> & Hl0 & _).
    cbn [to_py]. rewrite Hd, Hcur.
    destruct l as [|q l].
    - cbn [map]. rewrite Hcur. cbn [length] in Hl. subst size.
      destruct l0; [reflexivity|discriminate Hl0].
    - cbn [map].
      change (PFloat q :: map PFloat l) with (map PFloat (q :: l)).
      pose proof (assign_items_all size lo hi dflt (q :: l) [] l0) as Hall.
      cbn [app length] in Hall. rewrite Hall by (cbn [length] in Hl; lia). rewrite Hfix.
      unfold getattr. rewrite Hd, lookup_insert_eq. reflexivity. }
  all: destruct (rna_assign_storable _ v Hv) as [Ha Hl];
       destruct (to_py v); try destruct Hl; apply Hset; exact Ha.
Qed.

Lemma hasattr_declared (prop_name : string) :
  hasattr prop_name = true ->
  exists d, declaration VSEGuidesSettings prop_name = Some d.
Proof.
  unfold hasattr. destruct (declaration VSEGuidesSettings prop_name) as [d|].
  - intros _. exists d. reflexivity.
  - discriminate.
Qed.

Lemma settings_to_dict_all (s : settings) (props : list string) :
  flat_map (fun prop_name =>
    if hasattr prop_name then
      match getattr s prop_name with
      | Returned value => [(prop_name, to_py value)]
      | _ => []
      end
    else []) props
  = map (fun prop_name =>
           (prop_name,
            to_py (match s !! prop_name with
                   | Some v => v
                   | None =>
                       match declaration VSEGuidesSettings prop_name with
                       | Some d => default_value d
                       | None => VBool false
                       end
                   end))) (List.filter hasattr props).
Proof.
  induction props as [|p props IH]; cbn [flat_map map List.filter]; [reflexivity|].
  rewrite IH. destruct (hasattr p) eqn:E; [|reflexivity].
  destruct (hasattr_declared p E) as (d & Hd).
  unfold getattr. rewrite Hd. cbn [map app]. rewrite Hd. reflexivity.
Qed.

Lemma dict_to_settings_saved (s target : settings) :
  well_typed s -> well_typed target ->
  forall props : list string,
  (forall p, In p props -> In p PRESET_PROPERTIES /\ hasattr p = true) ->
  forall p, In p props ->
  getattr
    (dict_to_settings
       (map (fun prop_name =>
               (prop_name,
                to_py (match s !! prop_name with
                       | Some v => v
                       | None =>
                           match declaration VSEGuidesSettings prop_name with
                           | Some d => default_value d
                           | None => VBool false
                           end
                       end))) props) target) p
  = getattr s p.
Proof.
  intros Hs Ht props.
  induction props as [|q props IH] using rev_ind; intros Hsub p Hp; [destruct Hp|].
  rewrite map_app. unfold dict_to_settings. rewrite fold_left_app.
  cbn [map fold_left].
  fold (dict_to_settings
          (map (fun prop_name =>
               (prop_name,
                to_py (match s !! prop_name with
                       | Some v => v
                       | None =>
                           match declaration VSEGuidesSettings prop_name with
                           | Some d => default_value d
                           | None => VBool false
                           end
                       end))) props) target).
  assert (Hsub' : forall p, In p props -> In p PRESET_PROPERTIES /\ hasattr p = true).
  { intros p' Hp'. apply Hsub. apply in_or_app. left. exact Hp'. }
  destruct (string_dec p q) as [->|Hne].
  - assert (Hq : In q PRESET_PROPERTIES /\ hasattr q = true).
    { apply Hsub. apply in_or_app. right. left. reflexivity. }
    destruct Hq as [Hq Hattr].
    destruct (hasattr_declared q Hattr) as (d & Hd).
    destruct (getattr_storable s q d Hs Hd) as (v & Hv & Hsv).
    assert (Ev : match s !! q with
                 | Some v => v
                 | None =>
                     match declaration VSEGuidesSettings q with
                     | Some d => default_value d
                     | None => VBool false
                     end
                 end = v).
    { unfold getattr in Hv. rewrite Hd in Hv |- *. injection Hv as <-. reflexivity. }
    rewrite Ev, Hv.
    destruct (in_dec string_dec q props) as [Hin|Hnin].
    + apply (apply_item_saved s _ q d v v Hq Hd Hsv); [|exact Hsv].
      rewrite (IH Hsub' q Hin). exact Hv.
    + destruct (getattr_storable target q d Ht Hd) as (cur & Hcur & Hsc).
      apply (apply_item_saved s _ q d v cur Hq Hd Hsv); [|exact Hsc].
      rewrite <- Hcur. apply getattr_lookup. apply dict_to_settings_lookup.
      intros item Hitem. left. intros ->. apply Hnin.
      apply in_map_iff in Hitem. destruct Hitem as (x & <- & Hx). exact Hx.
  - assert (Hin : In p props).
    { apply in_app_or in Hp. destruct Hp as [Hp|[Hp|[]]]; [exact Hp|congruence]. }
    rewrite <- (IH Hsub' p Hin). apply getattr_lookup.
    apply apply_item_lookup. left. exact Hne.
Qed.

(** X23.  A preset brings back every setting it holds: after
    [dict_to_settings(settings_to_dict(s), target)] each property of
    [PRESET_PROPERTIES] that the settings class declares reads in
    [target] as it reads in [s], whatever [target] held before, colours
    included.  The list also names [golden_triangle_fit], which the class
    does not declare: that name never reaches the dictionary. *)
Theorem preset_settings_round_trip (s target : settings) :
  well_typed s -> well_typed target ->
  (forall prop_name,
      In prop_name PRESET_PROPERTIES -> hasattr prop_name = true ->
      getattr (dict_to_settings (settings_to_dict s) target) prop_name
      = getattr s prop_name) /\
  (forall prop_name,
      In prop_name PRESET_PROPERTIES -> hasattr prop_name = false ->
      prop_name = "golden_triangle_fit") /\
  ~ In "golden_triangle_fit" (map fst (settings_to_dict s)).
Proof.
  intros Hs Ht. split; [|split].
  - intros prop_name Hin Hattr. unfold settings_to_dict.
    rewrite settings_to_dict_all.
    apply (dict_to_settings_saved s target Hs Ht (List.filter hasattr PRESET_PROPERTIES)).
    + intros p Hp. apply List.filter_In in Hp. exact Hp.
    + apply List.filter_In. split; assumption.
  - unfold PRESET_PROPERTIES. cbn [In]. intros prop_name H.
    repeat (destruct H as [<-|H]; [first [discriminate|reflexivity]|]).
    destruct H.
  - intros Hin. apply settings_to_dict_holds in Hin. destruct Hin as [_ H].
    discriminate H.
Qed.

Lemma thirds_and_grid_well_typed : well_typed toggling.thirds_and_grid.
Proof.
  unfold toggling.thirds_and_grid, well_typed.
  repeat (apply map_Forall_insert_2;
    [intros d Hd; vm_compute in Hd; injection Hd as <-;
     eexists (PBool _); reflexivity|]).
  apply map_Forall_empty.
Defined.

(** The settings of the example: the rule of thirds and the grid on, the
    custom guides off. *)
Lemma preset_settings_round_trip_witness :
  getattr (dict_to_settings (settings_to_dict toggling.thirds_and_grid) ∅) "show_grid"
  = Returned (VBool true).
Proof.
  apply (proj1 (preset_settings_round_trip toggling.thirds_and_grid ∅
                  thirds_and_grid_well_typed (map_Forall_empty _)) "show_grid").
  - unfold PRESET_PROPERTIES. in_list.
  - reflexivity.
Defined.

End SettingsRoundTrip.

